(** * Log_Report_Generator.py: the usage report pipeline

    A shallow embedding of [src/script/Log_Report_Generator.py].  The script
    is a straight line of pandas calls over one in-memory table; every call is
    rendered here as a function on lists of rows, with the row labels pandas
    keeps in the index written out, and the top-level script as a computation
    that prints, writes the report and may raise.

    What is taken from pandas, as of the script's date: [read_csv] types a
    column by its cells; [to_numeric(errors='coerce')] gives NaN for what is
    no number; [astype(int)] truncates floats and calls [int] on objects;
    a boolean Series used as indexer is aligned on the index;
    [value_counts] orders by count; [groupby] orders by key and aggregates
    the numeric columns; [merge] pairs rows of equal key, left rows first;
    [round] rounds halves to even.

    The file has two parts.  The first follows the script on a log whose
    [USER_ID] and [WHEN_CREATED] columns hold text in every cell, with the
    integers and the means taken exactly ([Z] and [Q]): it keeps the row
    labels, the lines printed, the report written and the exceptions of
    steps 5 and 6.  The second part, [Typed], types every column the way
    [pd.read_csv] does (numbers, missing cells, text), with the sums of
    [int64] and the roundings of [float64], and gives steps 4 to 10 as a
    function from the two files to the rows of the table written.  The
    lookup table has the four columns the script declares for it
    ([USER_ID], [User_Name], [Email], [Org]).  Steps 1 to 3 and 11 touch the
    file system only; they are modelled on their own (the paths, the merge
    of the daily files, the clean-up). *)

From Stdlib Require Import ZArith NArith QArith Qround Qabs Qpower.
From Stdlib Require Import List String Ascii Bool.
From Stdlib Require Import Lia Lqa.
From Stdlib Require Import Sorted Permutation DecimalString.
Import ListNotations.

Local Open Scope string_scope.
Local Open Scope Z_scope.

(* ================================================================== *)
(** * Python's order on [str] *)

(** [a <= b] on Python strings compares code points left to right, which is
    what [String.leb] does on bytes. *)
Definition str_le (a b : string) : bool := String.leb a b.
Definition str_ge (a b : string) : bool := String.leb b a.

(* ================================================================== *)
(** * Cells, rows and frames *)

(** A cell of the [NUM_SUBMITTED_REQUESTS] column, by what the text in the
    file is to pandas' parsers. *)
Inductive cell : Type :=
| IntText (n : Z)        (** a decimal integer, [7] *)
| FloatText (q : Q)      (** any other number, [5.5] *)
| NaN                    (** an empty cell *)
| Text (s : string).     (** anything else, such as a repeated header line *)

Inductive dtype : Set := int64 | float64 | object.

Inductive exn : Set :=
| ValueError          (** [int('5.5')], raised by [astype(int)] *)
| IndexError          (** [index[0]] of an empty index *)
| KeyError            (** a label the Series does not have *)
| IndexingError       (** a boolean indexer that does not cover the index *)
| AttributeError.     (** [.str] on a column that holds no strings *)

(** The log table: the three columns the script reads, the type of the
    job-size column left open (cells as read, integers after step 5). *)
Module Log.
Record row (T : Type) : Type := mk
    { USER_ID : string;
      WHEN_CREATED : string;
      NUM_SUBMITTED_REQUESTS : T }.
Arguments mk {T} _ _ _.
Arguments USER_ID {T} _.
Arguments WHEN_CREATED {T} _.
Arguments NUM_SUBMITTED_REQUESTS {T} _.
End Log.

(** The client lookup table. *)
Module LookUp.
Record row : Type := mk
    { USER_ID : string;
      User_Name : option string;
      Email : option string;
      Org : option string }.
End LookUp.

(** [dfTotalAddresses], [dfJobSubmissions], [dfAveragePerJob]: a key and one
    value column. *)
Definition keyed (V : Type) : Type := list (string * V).

(** [dfFinalReport]: columns [USER_ID], [Total], [Jobs], [Avg]. *)
Module Final.
Record row : Type := mk
    { USER_ID : string; Total : Z; Jobs : Z; Avg : Q }.
End Final.

(** [dfCPFUsage], the table that is written out. *)
Module Usage.
Record row : Type := mk
    { USER_ID : string; Total : Z; Jobs : Z; Avg : Q;
      User_Name : option string;
      Email : option string;
      Org : option string }.
End Usage.

(** A DataFrame (or Series) with its index: rows keep the label they were
    read under when other rows are filtered away. *)
Definition frame (A : Type) : Type := list (nat * A).

Definition labels {A} (df : frame A) : list nat := map fst df.
Definition values {A} (df : frame A) : list A := map snd df.

(** [pd.read_csv] numbers the rows [0 .. n-1]. *)
Definition read_csv {A} (rows : list A) : frame A :=
  combine (seq 0 (List.length rows)) rows.

Fixpoint at_label {B} (i : nat) (s : frame B) : option B :=
  match s with
  | [] => None
  | (j, b) :: s' => if Nat.eqb i j then Some b else at_label i s'
  end.

(** [df[mask]] and [df.loc[mask]] for a boolean Series [mask]: the mask is
    reindexed to the frame's index, a label the mask does not have raises,
    and the rows whose label is mapped to [True] are kept. *)
Definition covers {A} (mask : frame bool) (df : frame A) : bool :=
  forallb (fun ir => match at_label (fst ir) mask with
                     | Some _ => true | None => false end) df.

Definition keep_true {A} (mask : frame bool) (df : frame A) : frame A :=
  filter (fun ir => match at_label (fst ir) mask with
                    | Some b => b | None => false end) df.

Definition loc {A} (df : frame A) (mask : frame bool) : exn + frame A :=
  if covers mask df then inr (keep_true mask df) else inl IndexingError.

(** A Series computed row by row from a frame has the frame's index. *)
Definition series_of {A B} (f : A -> B) (df : frame A) : frame B :=
  map (fun ir => (fst ir, f (snd ir))) df.

(* ================================================================== *)
(** * Step 5: integer data type *)

(** [pd.read_csv] types a column by its cells: all integers, else all numbers
    or empty, else Python objects. *)
Definition is_int (c : cell) : bool :=
  match c with IntText _ => true | _ => false end.

Definition is_float (c : cell) : bool :=
  match c with IntText _ | FloatText _ | NaN => true | Text _ => false end.

Definition infer_dtype (col : list cell) : dtype :=
  match col with
  | [] => object
  | _ => if forallb is_int col then int64
         else if forallb is_float col then float64 else object
  end.

(** [pd.to_numeric(., errors='coerce')]: the number, or NaN ([None]) for what
    does not parse. *)
Definition to_numeric (c : cell) : option Q :=
  match c with
  | IntText n => Some (inject_Z n)
  | FloatText q => Some q
  | NaN | Text _ => None
  end.

Definition notnull {A} (o : option A) : bool :=
  match o with Some _ => true | None => false end.

(** The cast of a float to [int] truncates towards zero. *)
Definition trunc (q : Q) : Z := Z.quot (Qnum q) (Z.pos (Qden q)).

(** [astype(int)] on one cell: a float column truncates, an object column
    calls [int] on the Python string, which takes integer text only. *)
Definition astype_int (dt : dtype) (c : cell) : exn + Z :=
  match c with
  | IntText n => inr n
  | FloatText q => match dt with float64 => inr (trunc q) | _ => inl ValueError end
  | NaN | Text _ => inl ValueError
  end.

Fixpoint astype_rows (dt : dtype) (df : frame (Log.row cell))
  : exn + frame (Log.row Z) :=
  match df with
  | [] => inr []
  | (i, r) :: df' =>
      match astype_int dt (Log.NUM_SUBMITTED_REQUESTS r) with
      | inl e => inl e
      | inr n =>
          match astype_rows dt df' with
          | inl e => inl e
          | inr out =>
              inr ((i, Log.mk (Log.USER_ID r) (Log.WHEN_CREATED r) n) :: out)
          end
      end
  end.

(** [csvLogFileContent[pd.to_numeric(...).notnull()]] followed by the
    [astype(int)] assignment. *)
Definition numeric_mask (df : frame (Log.row cell)) : frame bool :=
  series_of (fun r => notnull (to_numeric (Log.NUM_SUBMITTED_REQUESTS r))) df.

Definition column_dtype (df : frame (Log.row cell)) : dtype :=
  infer_dtype (map Log.NUM_SUBMITTED_REQUESTS (values df)).

Definition step5 (df : frame (Log.row cell)) : exn + frame (Log.row Z) :=
  match loc df (numeric_mask df) with
  | inl e => inl e
  | inr kept => astype_rows (column_dtype df) kept
  end.

(* ================================================================== *)
(** * Step 6: the date range *)

(** [s.split(' ')[0]]: the text before the first blank. *)
Fixpoint split0 (s : string) : string :=
  match s with
  | EmptyString => EmptyString
  | String c s' =>
      if Ascii.eqb c " "%char then EmptyString else String c (split0 s')
  end.

Definition day {T} (r : Log.row T) : string := split0 (Log.WHEN_CREATED r).

(** The two [.loc] selections.  The second mask is computed on the whole
    [csvLogFileContent], not on the frame it is applied to. *)
Definition trim (startDate endDate : string) (csvLogFileContent : frame (Log.row Z))
  : exn + frame (Log.row Z) :=
  match loc csvLogFileContent
            (series_of (fun r => str_ge (day r) startDate) csvLogFileContent) with
  | inl e => inl e
  | inr csvLogFileContentTrimmed =>
      loc csvLogFileContentTrimmed
          (series_of (fun r => str_le (day r) endDate) csvLogFileContent)
  end.

(** What the two selections are meant to keep: [start <= day <= end]. *)
Definition in_window {T} (startDate endDate : string) (r : Log.row T) : bool :=
  str_ge (day r) startDate && str_le (day r) endDate.

(* ================================================================== *)
(** * Step 7: job submissions, average and total per user *)

(** The distinct keys, in order of first appearance (the hash table behind
    [value_counts] and [groupby]). *)
Fixpoint unique_from (seen l : list string) : list string :=
  match l with
  | [] => []
  | k :: l' =>
      if existsb (String.eqb k) seen then unique_from seen l'
      else k :: unique_from (k :: seen) l'
  end.

Definition unique (l : list string) : list string := unique_from [] l.

Definition user_ids {T} (df : frame (Log.row T)) : list string :=
  map Log.USER_ID (values df).

(** The job sizes of one user's rows. *)
Definition group (k : string) (df : frame (Log.row Z)) : list Z :=
  map Log.NUM_SUBMITTED_REQUESTS
      (filter (fun r => String.eqb (Log.USER_ID r) k) (values df)).

Definition sum (l : list Z) : Z := fold_right Z.add 0 l.
Definition count (l : list Z) : Z := Z.of_nat (List.length l).
Definition mean (l : list Z) : Q := inject_Z (sum l) / inject_Z (count l).

(** [value_counts()] orders by count, largest first; rows of equal count
    stay in order of first appearance. *)
Fixpoint insert_by_count (x : string * Z) (l : keyed Z) : keyed Z :=
  match l with
  | [] => [x]
  | y :: l' =>
      if snd y <=? snd x then x :: y :: l' else y :: insert_by_count x l'
  end.

Definition sort_by_count (l : keyed Z) : keyed Z :=
  fold_right insert_by_count [] l.

Definition value_counts (df : frame (Log.row Z)) : keyed Z :=
  sort_by_count (map (fun k => (k, count (group k df))) (unique (user_ids df))).

(** [groupby('USER_ID')] orders the groups by key. *)
Fixpoint insert_key (k : string) (l : list string) : list string :=
  match l with
  | [] => [k]
  | h :: t => if str_le k h then k :: l else h :: insert_key k t
  end.

Definition sort_keys (l : list string) : list string :=
  fold_right insert_key [] l.

Definition group_keys (df : frame (Log.row Z)) : list string :=
  sort_keys (unique (user_ids df)).

Definition groupby_mean (df : frame (Log.row Z)) : keyed Q :=
  map (fun k => (k, mean (group k df))) (group_keys df).

Definition groupby_sum (df : frame (Log.row Z)) : keyed Z :=
  map (fun k => (k, sum (group k df))) (group_keys df).

(* ================================================================== *)
(** * Step 8: the final report *)

(** [left.merge(right)] on the one shared column [USER_ID]: for every left
    row in order, one row per right row of the same key, in order. *)
Definition matches {R} (keyR : R -> string) (k : string) (right : list R)
  : list R :=
  filter (fun r => String.eqb (keyR r) k) right.

Definition merge {L R O} (keyL : L -> string) (keyR : R -> string)
    (join : L -> R -> O) (left : list L) (right : list R) : list O :=
  flat_map (fun l => map (join l) (matches keyR (keyL l) right)) left.

(** [np.rint]: the nearest integer, halves to the even one. *)
Definition rint (x : Q) : Z :=
  let f := Qfloor x in
  match Qcompare (x - inject_Z f) (1 # 2) with
  | Lt => f
  | Gt => f + 1
  | Eq => if Z.even f then f else f + 1
  end.

(** [round(1)] on a float: [rint(x * 10) / 10]. *)
Definition round1 (x : Q) : Q := inject_Z (rint (x * 10)) / 10.

Definition round_frame (df : keyed Q) : keyed Q :=
  map (fun kv => (fst kv, round1 (snd kv))) df.

(** The two merges of step 8: totals with job counts, then with the rounded
    averages. *)
Definition merge_series (dfTotalAddresses dfJobSubmissions : keyed Z)
    (dfAveragePerJob : keyed Q) : list Final.row :=
  let dfFinalReport :=
    merge fst fst (fun t j => (fst t, snd t, snd j))
          dfTotalAddresses dfJobSubmissions in
  merge (fun r => fst (fst r)) fst
        (fun r a => Final.mk (fst (fst r)) (snd (fst r)) (snd r) (snd a))
        dfFinalReport (round_frame dfAveragePerJob).

(** Steps 7 and 8 together, from the trimmed log. *)
Definition dfFinalReport (csvLogFileContentTrimmed : frame (Log.row Z))
  : list Final.row :=
  let seriesJobSubmissions := value_counts csvLogFileContentTrimmed in
  let seriesAveragePerJob := groupby_mean csvLogFileContentTrimmed in
  let seriesTotalAddresses := groupby_sum csvLogFileContentTrimmed in
  merge_series seriesTotalAddresses seriesJobSubmissions seriesAveragePerJob.

(* ================================================================== *)
(** * Step 9: the lookup table *)

(** [left.merge(right, how='left')]: as [merge], and a left row without a
    match is kept, the right columns empty. *)
Definition merge_left {L R O} (keyL : L -> string) (keyR : R -> string)
    (join : L -> option R -> O) (left : list L) (right : list R) : list O :=
  flat_map (fun l => match matches keyR (keyL l) right with
                     | [] => [join l None]
                     | ms => map (fun r => join l (Some r)) ms
                     end) left.

Definition with_lookup (f : Final.row) (d : option LookUp.row) : Usage.row :=
  Usage.mk (Final.USER_ID f) (Final.Total f) (Final.Jobs f) (Final.Avg f)
           (match d with Some e => LookUp.User_Name e | None => None end)
           (match d with Some e => LookUp.Email e | None => None end)
           (match d with Some e => LookUp.Org e | None => None end).

(** Steps 7 to 9 together, from the trimmed log and the lookup table. *)
Definition dfCPFUsage (csvLogFileContentTrimmed : frame (Log.row Z))
    (dfLookUpTable : list LookUp.row) : list Usage.row :=
  merge_left Final.USER_ID LookUp.USER_ID with_lookup
             (dfFinalReport csvLogFileContentTrimmed) dfLookUpTable.

(* ================================================================== *)
(** * The script *)

(** What a run leaves behind: the lines printed and the report file, if it
    was written. *)
Record world : Type := World
  { stdout : list string;
    finalReport : option (list string * list Usage.row) }.

Definition script (A : Type) : Type := world -> world * (exn + A).

Definition ret {A} (a : A) : script A := fun w => (w, inr a).

Definition bind {A B} (m : script A) (k : A -> script B) : script B :=
  fun w => match m w with
           | (w', inl e) => (w', inl e)
           | (w', inr a) => k a w'
           end.

Definition raise {A} (e : exn) : script A := fun w => (w, inl e).

Definition lift {A} (r : exn + A) : script A := fun w => (w, r).

Definition print (line : string) : script unit :=
  fun w => (World (stdout w ++ [line]) (finalReport w), inr tt).

Definition to_csv (columns : list string) (df : list Usage.row) : script unit :=
  fun w => (World (stdout w) (Some (columns, df)), inr tt).

Declare Scope script_scope.
Delimit Scope script_scope with script.
Notation "x <- m ;; k" := (bind m (fun x => k))
  (at level 61, m at next level, right associativity) : script_scope.
Notation "m ;; k" := (bind m (fun _ => k))
  (at level 61, right associativity) : script_scope.

Definition nl : string := String "010"%char EmptyString.

(** [index[0]], [index[-1]] and [series[label]]. *)
Definition index_first {A} (df : frame A) : script nat :=
  match labels df with
  | [] => raise IndexError
  | i :: _ => ret i
  end.

Definition index_last {A} (df : frame A) : script nat :=
  match labels df with
  | [] => raise IndexError
  | i :: rest => ret (last rest i)
  end.

Definition getitem {B} (s : frame B) (i : nat) : script B :=
  match at_label i s with
  | Some b => ret b
  | None => raise KeyError
  end.

Definition str_of_nat (n : nat) : string :=
  NilZero.string_of_uint (Nat.to_uint n).

(** The columns of the table written, in the order the merges give them
    when the table has a row (pandas orders the columns of a table without
    rows differently). *)
Definition report_columns : list string :=
  ["USER_ID"; "Total"; "Jobs"; "Avg"; "User_Name"; "Email"; "Org"].

(** The top-level statements of the script, steps 1 to 11.  [csvLogFile] is
    the merged log as [pd.read_csv] finds it, [csvLookUpTable] the lookup
    table, [startDate] and [endDate] are [sys.argv[4]] and [sys.argv[5]].
    The user ids of both tables and the time stamps are text, steps 1 to 3
    have succeeded, and the clean-up of step 11 is not refused (what it does
    when it is, is [step11] below). *)
Definition main (csvLogFile : list (Log.row cell))
    (csvLookUpTable : list LookUp.row) (startDate endDate : string)
  : script unit :=
  (print "Unzipping log package" ;;
   print (nl ++ "Merging log files into one file") ;;
   print (nl ++ "Converting log from tsv to csv") ;;
   print (nl ++ "Reading the merged CSV log into a DataFrame") ;;
   csvLogFileContent <- lift (step5 (read_csv csvLogFile)) ;;
   print (nl ++ "This is the range of dates in the log file") ;;
   oldest <- index_first csvLogFileContent ;;
   d <- getitem (series_of Log.WHEN_CREATED csvLogFileContent) oldest ;;
   print d ;;
   newest <- index_last csvLogFileContent ;;
   d <- getitem (series_of Log.WHEN_CREATED csvLogFileContent) newest ;;
   print d ;;
   print (nl ++ "Create a smaller dataframe using the user date range of: ") ;;
   print (nl ++ "From: " ++ startDate ++ " to " ++ endDate) ;;
   csvLogFileContentTrimmed <- lift (trim startDate endDate csvLogFileContent) ;;
   print (nl ++ "Calculate submissions per user") ;;
   seriesJobSubmissions <- ret (value_counts csvLogFileContentTrimmed) ;;
   print (nl ++ "Calculate average addresses per job") ;;
   seriesAveragePerJob <- ret (groupby_mean csvLogFileContentTrimmed) ;;
   print (nl ++ "Calculate total addresses processed per user") ;;
   seriesTotalAddresses <- ret (groupby_sum csvLogFileContentTrimmed) ;;
   print (nl ++ "Number of unique users found in logs:") ;;
   print (str_of_nat (List.length seriesTotalAddresses)) ;;
   print (nl ++ "Merge query results (series) into a single DataFrame") ;;
   dfFinalReport <- ret (merge_series seriesTotalAddresses seriesJobSubmissions
                                      seriesAveragePerJob) ;;
   dfLookUpTable <- ret csvLookUpTable ;;
   dfCPFUsage <- ret (merge_left Final.USER_ID LookUp.USER_ID with_lookup
                                 dfFinalReport dfLookUpTable) ;;
   to_csv report_columns dfCPFUsage ;;
   print (nl ++ "Deleting intermediate files (including logs)") ;;
   print (nl ++ "Processing complete"))%script.

Definition start : world := World [] None.

(** A run from a fresh process: the world it ends in and how it ended. *)
Definition run (csvLogFile : list (Log.row cell))
    (csvLookUpTable : list LookUp.row) (startDate endDate : string)
  : world * (exn + unit) :=
  main csvLogFile csvLookUpTable startDate endDate start.

(* ================================================================== *)
(** * The scenario of the specification *)

Definition r1 : Log.row cell :=
  Log.mk "u1" "2019-09-01 00:00:00.000" (IntText 5).
Definition r2 : Log.row cell :=
  Log.mk "u1" "2019-09-02 00:00:00.000" (IntText 3).
Definition r3 : Log.row cell :=
  Log.mk "u2" "2019-09-01 00:00:00.000" (IntText 10).
Definition header_row : Log.row cell :=
  Log.mk "USER_ID" "WHEN_CREATED" (Text "NUM_SUBMITTED_REQUESTS").
Definition alice : LookUp.row :=
  LookUp.mk "u1" (Some "Alice") (Some "a@x.com") (Some "OrgA").

Definition scenario_trimmed : frame (Log.row Z) :=
  [ (0%nat, Log.mk "u1" "2019-09-01 00:00:00.000" 5);
    (1%nat, Log.mk "u1" "2019-09-02 00:00:00.000" 3);
    (3%nat, Log.mk "u2" "2019-09-01 00:00:00.000" 10) ].

Definition alice_again : LookUp.row :=
  LookUp.mk "u1" (Some "Alice B.") (Some "alice@y.org") (Some "OrgB").

(* ================================================================== *)
(** * Calendar dates

    The script has no type of dates: the two bounds and the day of a record
    are strings, compared as strings.  The claims speak of days, of the day
    before and the day after, and of arguments that parse as dates; these
    notions are defined here, with the [YYYY-MM-DD] format of the script's
    instructions. *)

(** A day: year, month and day of the month. *)
Record date : Set := Date { year : N; month : N; dom : N }.

Definition leap (y : N) : bool :=
  ((y mod 4 =? 0) && negb (y mod 100 =? 0) || (y mod 400 =? 0))%N.

Definition days_in_month (y m : N) : N :=
  (if m =? 2 then (if leap y then 29 else 28)
   else if (m =? 4) || (m =? 6) || (m =? 9) || (m =? 11) then 30 else 31)%N.

(** The days of the calendar, years 1 to 9999. *)
Definition valid_date (d : date) : bool :=
  ((1 <=? year d) && (year d <=? 9999) && (1 <=? month d) && (month d <=? 12)
   && (1 <=? dom d) && (dom d <=? days_in_month (year d) (month d)))%N.

(** The last decimal digit of [n], and its last [w] digits, zeros in
    front. *)
Definition digit (n : N) : ascii := ascii_of_N (48 + n mod 10).

Fixpoint digits (w : nat) (n : N) : string :=
  match w with
  | O => EmptyString
  | S w' => digits w' (n / 10) ++ String (digit n) EmptyString
  end.

(** [YYYY-MM-DD], as in ['2019-08-25']. *)
Definition isoformat (d : date) : string :=
  digits 4 (year d) ++ "-" ++ digits 2 (month d) ++ "-" ++ digits 2 (dom d).

(** The day after and the day before. *)
Definition next_day (d : date) : date :=
  if (dom d <? days_in_month (year d) (month d))%N
  then Date (year d) (month d) (dom d + 1)
  else if (month d <? 12)%N then Date (year d) (month d + 1) 1
       else Date (year d + 1) 1 1.

Definition prev_day (d : date) : date :=
  if (1 <? dom d)%N then Date (year d) (month d) (dom d - 1)
  else if (1 <? month d)%N
       then Date (year d) (month d - 1) (days_in_month (year d) (month d - 1))
       else Date (year d - 1) 12 31.

(** Earlier in the calendar. *)
Definition date_lt (a b : date) : Prop :=
  (year a < year b
   \/ (year a = year b /\ (month a < month b
                           \/ (month a = month b /\ dom a < dom b))))%N.

Definition digit_value (c : ascii) : option N :=
  let n := N_of_ascii c in
  if ((48 <=? n) && (n <=? 57))%N then Some (n - 48)%N else None.

(** The specification's parseable date: ten characters [YYYY-MM-DD] that
    name a day of the calendar. *)
Definition parse_date (s : string) : option date :=
  match list_ascii_of_string s with
  | [y1; y2; y3; y4; h1; m1; m2; h2; d1; d2] =>
      match digit_value y1, digit_value y2, digit_value y3, digit_value y4,
            digit_value m1, digit_value m2, digit_value d1, digit_value d2 with
      | Some a, Some b, Some c, Some d, Some e, Some f, Some g, Some h =>
          let x := Date (1000 * a + 100 * b + 10 * c + d) (10 * e + f) (10 * g + h) in
          if (Ascii.eqb h1 "-" && Ascii.eqb h2 "-" && valid_date x)%bool
          then Some x else None
      | _, _, _, _, _, _, _, _ => None
      end
  | _ => None
  end.

(* ================================================================== *)
(** * Notions the statements use *)

(** The order [groupby] leaves the keys in. *)
Definition key_le (a b : string) : Prop := str_le a b = true.

(** One row per user, in key order, holding the user's total, count and
    rounded mean. *)
Definition metrics_row (df : frame (Log.row Z)) (k : string) : Final.row :=
  Final.mk k (sum (group k df)) (count (group k df))
           (round1 (mean (group k df))).

(** The rows the left join emits for one report row. *)
Definition joined (f : Final.row) (dir : list LookUp.row) : list Usage.row :=
  match matches LookUp.USER_ID (Final.USER_ID f) dir with
  | [] => [with_lookup f None]
  | ms => map (fun e => with_lookup f (Some e)) ms
  end.

(** Step 9 on any report table [M] and lookup table [D]. *)
Definition join (M : list Final.row) (D : list LookUp.row) : list Usage.row :=
  merge_left Final.USER_ID LookUp.USER_ID with_lookup M D.

(** The row passes the numeric coercion of step 5. *)
Definition numeric (r : Log.row cell) : bool :=
  notnull (to_numeric (Log.NUM_SUBMITTED_REQUESTS r)).

(** [astype(int)] on the row: whether it converts, and to what. *)
Definition can_int (dt : dtype) (r : Log.row cell) : bool :=
  match astype_int dt (Log.NUM_SUBMITTED_REQUESTS r) with
  | inr _ => true
  | inl _ => false
  end.

Definition as_int (dt : dtype) (r : Log.row cell) : Log.row Z :=
  Log.mk (Log.USER_ID r) (Log.WHEN_CREATED r)
         (match astype_int dt (Log.NUM_SUBMITTED_REQUESTS r) with
          | inr n => n
          | inl _ => 0
          end).

(** Step 5 on the list of rows: the rows that hold a number, as integers,
    unless one of them does not convert. *)
Definition ingest (rows : list (Log.row cell)) : exn + list (Log.row Z) :=
  let dt := infer_dtype (map Log.NUM_SUBMITTED_REQUESTS rows) in
  let kept := filter numeric rows in
  if forallb (can_int dt) kept then inr (map (as_int dt) kept)
  else inl ValueError.

(** The lines a run has printed when it reaches step 5, when it reaches
    the range of dates, and when it completes. *)
Definition lines_before_step5 : list string :=
  [ "Unzipping log package";
    nl ++ "Merging log files into one file";
    nl ++ "Converting log from tsv to csv";
    nl ++ "Reading the merged CSV log into a DataFrame" ].

Definition lines_before_range : list string :=
  lines_before_step5 ++ [ nl ++ "This is the range of dates in the log file" ].

Definition lines_complete (oldest newest startDate endDate : string)
    (users : nat) : list string :=
  lines_before_range ++
  [ oldest; newest;
    nl ++ "Create a smaller dataframe using the user date range of: ";
    nl ++ "From: " ++ startDate ++ " to " ++ endDate;
    nl ++ "Calculate submissions per user";
    nl ++ "Calculate average addresses per job";
    nl ++ "Calculate total addresses processed per user";
    nl ++ "Number of unique users found in logs:";
    str_of_nat users;
    nl ++ "Merge query results (series) into a single DataFrame";
    nl ++ "Deleting intermediate files (including logs)";
    nl ++ "Processing complete" ].

(** The three ways a run ends, by the frame step 5 leaves. *)
Definition outcome (step5_result : exn + frame (Log.row Z))
    (csvLookUpTable : list LookUp.row) (startDate endDate : string)
  : world * (exn + unit) :=
  match step5_result with
  | inl err => (World lines_before_step5 None, inl err)
  | inr [] => (World lines_before_range None, inl IndexError)
  | inr ((i, r) :: df) =>
      let whole := (i, r) :: df in
      let trimmed :=
        filter (fun ir => in_window startDate endDate (snd ir)) whole in
      (World (lines_complete (Log.WHEN_CREATED r)
                             (Log.WHEN_CREATED (snd (last df (i, r))))
                             startDate endDate
                             (List.length (groupby_sum trimmed)))
             (Some (report_columns, dfCPFUsage trimmed csvLookUpTable)),
       inr tt)
  end.

(** A run is determined by what step 5 makes of the rows. *)
Definition outcome_of_rows (ingested : exn + list (Log.row Z))
    (csvLookUpTable : list LookUp.row) (startDate endDate : string)
  : world * (exn + unit) :=
  match ingested with
  | inl err => outcome (inl err) csvLookUpTable startDate endDate
  | inr rows => outcome (inr (read_csv rows)) csvLookUpTable startDate endDate
  end.

(* ================================================================== *)
(** * The paths of the script *)

(** [s.rsplit(c, 1)[0]]: the text before the last [c], all of [s] when it
    has none. *)
Fixpoint before_last (c : ascii) (s : string) : option string :=
  match s with
  | EmptyString => None
  | String a t =>
      match before_last c t with
      | Some p => Some (String a p)
      | None => if Ascii.eqb a c then Some EmptyString else None
      end
  end.

Definition rsplit0 (c : ascii) (s : string) : string :=
  match before_last c s with
  | Some p => p
  | None => s
  end.

(** The variable definitions that derive a path from [zipLogFiles]. *)
Module Paths.
Definition folder (zipLogFiles : string) : string := rsplit0 "\" zipLogFiles.
Definition zipLogFilesExtract (zipLogFiles : string) : string :=
  folder zipLogFiles ++ "\logFiles".
Definition subFolder (zipLogFiles : string) : string :=
  zipLogFilesExtract zipLogFiles ++ "\jobs".
Definition mergedLogFile (zipLogFiles : string) : string :=
  folder zipLogFiles ++ "\merged.tsv".
Definition csvLogFile (zipLogFiles : string) : string :=
  folder zipLogFiles ++ "\mergedCSV.csv".
Definition finalReport (zipLogFiles : string) : string :=
  folder zipLogFiles ++ "\finalReport.csv".
End Paths.

(** The text has the character. *)
Definition has_char (c : ascii) (s : string) : Prop :=
  In c (list_ascii_of_string s).

(* ================================================================== *)
(** * Step 2: the merge of the daily files *)

(** The loop over [glob.glob]: every file's text, each followed by two line
    ends, in the order [glob] lists the files. *)
Definition merged_text (contents : list string) : string :=
  fold_right (fun content rest => content ++ nl ++ nl ++ rest) "" contents.

(** The lines of a text, as [str.split] at the line end gives them. *)
Fixpoint split_lines (s : string) : list string :=
  match s with
  | EmptyString => [EmptyString]
  | String c t =>
      if Ascii.eqb c "010"%char then EmptyString :: split_lines t
      else match split_lines t with
           | [] => [String c EmptyString]
           | l :: ls => String c l :: ls
           end
  end.

(** The lines [pd.read_table] makes rows of: it skips the blank ones.
    [blank] says which lines count as blank. *)
Definition records (blank : string -> bool) (text : string) : list string :=
  filter (fun l => negb (blank l)) (split_lines text).

(* ================================================================== *)
(** * Step 11: the clean-up *)

(** The paths that exist. *)
Definition disk : Type := list string.

Fixpoint starts_with (p s : string) : bool :=
  match p, s with
  | EmptyString, _ => true
  | String a p', String b s' => Ascii.eqb a b && starts_with p' s'
  | String _ _, EmptyString => false
  end.

(** The folder itself and what lies in it. *)
Definition under (dir p : string) : bool :=
  String.eqb p dir || starts_with (dir ++ "\") p.

(** What the clean-up acts on: the disk and the lines printed. *)
Record os_state : Type := OS { files : disk; printed : list string }.

(** [OSError]: [e.filename] and [e.strerror]. *)
Definition OSError : Type := (string * string)%type.

Definition os (A : Type) : Type := os_state -> os_state * (OSError + A).

Definition os_bind {A B} (m : os A) (k : A -> os B) : os B :=
  fun st => match m st with
            | (st', inl e) => (st', inl e)
            | (st', inr a) => k a st'
            end.

(** [try: body except OSError as e: handler(e)]. *)
Definition try_except (body : os unit) (handler : OSError -> os unit)
  : os unit :=
  fun st => match body st with
            | (st', inl e) => handler e st'
            | (st', inr tt) => (st', inr tt)
            end.

Definition os_print (line : string) : os unit :=
  fun st => (OS (files st) (printed st ++ [line]), inr tt).

Section CleanUp.

(** The operating system: whether it refuses to remove a path on a disk, and
    with what error; and, of a [rmtree] it refuses, what that had deleted
    already. *)
Variable refuses : disk -> string -> option OSError.
Variable deleted_before : disk -> string -> string -> bool.

Definition os_remove (path : string) : os unit :=
  fun st => match refuses (files st) path with
            | Some e => (st, inl e)
            | None => (OS (filter (fun p => negb (String.eqb p path)) (files st))
                          (printed st), inr tt)
            end.

Definition rmtree (path : string) : os unit :=
  fun st => match refuses (files st) path with
            | Some e =>
                (OS (filter (fun p => negb (under path p
                                            && deleted_before (files st) path p))
                            (files st))
                    (printed st), inl e)
            | None => (OS (filter (fun p => negb (under path p)) (files st))
                          (printed st), inr tt)
            end.

Definition step11 (zipLogFiles : string) : os unit :=
  os_bind (os_print (nl ++ "Deleting intermediate files (including logs)"))
    (fun _ =>
  os_bind (try_except
             (os_bind (os_remove (Paths.mergedLogFile zipLogFiles)) (fun _ =>
              os_bind (os_remove (Paths.csvLogFile zipLogFiles)) (fun _ =>
              rmtree (Paths.zipLogFilesExtract zipLogFiles))))
             (fun e => os_print ("Error: " ++ fst e ++ " - " ++ snd e ++ ".")))
    (fun _ =>
  os_print (nl ++ "Processing complete"))).

End CleanUp.

(* ================================================================== *)
(** * More rows, and a disk *)

(** At the end of a run, with a file of the user's in the [logFiles]
    folder. *)
Definition disk_after_step10 : disk :=
  [ "C:\work\logs.zip"; "C:\work\lookup.csv"; "C:\work\merged.tsv";
    "C:\work\mergedCSV.csv"; "C:\work\finalReport.csv";
    "C:\work\logFiles\jobs\2019-09-01.tsv"; "C:\work\logFiles\notes.txt" ].

Definition r0_late : Log.row cell :=
  Log.mk "u3" "2019-12-24 00:00:00.000" (IntText 1).

(* ================================================================== *)
(** * The columns as pandas types them

    [pd.read_csv] types every column by its cells, the [USER_ID] and
    [WHEN_CREATED] columns of the log and the [USER_ID] column of the lookup
    table as well: a column of integers is [int64] ([007] is then the number
    7), a cell that is empty or spells a missing value ([NA]) is NaN, and a
    column with any other text holds Python strings.  The keys of
    [value_counts], [groupby] and [merge] are the typed values; NaN is no
    key; [merge] refuses to pair a column of strings with a column of
    numbers; [.str] exists on columns of strings only.  [astype(int)] gives
    [int64], NumPy's default integer where a C [long] has 64 bits.  Sums of
    an [int64] column wrap around, and the mean and its rounding are
    [float64].

    This part is the script over such columns.  An input whose behaviour
    it does not describe gives [Outside]: a column of fractional or partly
    missing numeric user ids, a number out of the range of [int64] (or, in a
    float column, of the integers a [float64] holds exactly), and a merge of
    keys of two kinds when one side has no row.  The average of a user is
    given where the job sizes of the user add up, in absolute value, to at
    most [2^53], so that every partial sum is exact in [float64] in whatever
    order the sizes are added; elsewhere the [Avg] of the row is left open
    ([None]). *)

Module Typed.

(** ** Keys *)

Inductive key : Type :=
| KInt (n : Z)         (** a key of an [int64] column *)
| KText (s : string).  (** a key of an [object] column, a Python [str] *)

Definition key_eqb (a b : key) : bool :=
  match a, b with
  | KInt n, KInt m => Z.eqb n m
  | KText s, KText t => String.eqb s t
  | _, _ => false
  end.

(** The order of the keys of one column: numbers by value, strings by code
    points.  (A column holds keys of one kind; the order between the kinds
    is never used by a run.) *)
Definition key_leb (a b : key) : bool :=
  match a, b with
  | KInt n, KInt m => Z.leb n m
  | KText s, KText t => str_le s t
  | KInt _, KText _ => true
  | KText _, KInt _ => false
  end.

(** ** Cells, by what the text in the file is to [pd.read_csv] *)

(** A cell of a [USER_ID] column. *)
Inductive id_cell : Type :=
| IdInt (text : string) (n : Z)  (** the decimal integer [n], written [text] *)
| IdFloat (text : string)        (** any other number, [7.0] *)
| IdNA                           (** empty, or a marker of a missing value: [NA] *)
| IdText (s : string).           (** other text, read as a string *)

(** A cell of the [WHEN_CREATED] column. *)
Inductive stamp_cell : Type :=
| StampNumber (text : string)    (** a number, [20190901] *)
| StampNA                        (** empty, or a marker of a missing value *)
| StampText (s : string).        (** other text, [2019-09-01 00:00:00.000] *)

(** A cell of the [NUM_SUBMITTED_REQUESTS] column. *)
Inductive job_cell : Type :=
| JobInt (n : Z)                 (** a decimal integer *)
| JobFloat (q : Q)               (** any other finite number, as the [float64]
                                     it is read as *)
| JobInf                         (** [inf] or [-inf] *)
| JobNA                          (** empty, or a marker of a missing value *)
| JobText (s : string).          (** other text, such as a repeated header *)

(** The rows of the two files, cell by cell. *)
Module Csv.
Record row : Type := mk
    { USER_ID : id_cell;
      WHEN_CREATED : stamp_cell;
      NUM_SUBMITTED_REQUESTS : job_cell }.
End Csv.

Module LookUpCsv.
Record row : Type := mk
    { USER_ID : id_cell;
      User_Name : option string;
      Email : option string;
      Org : option string }.
End LookUpCsv.

(** The tables in memory.  A missing user id or time stamp is [None]. *)
Module Log.
Record row (T : Type) : Type := mk
    { USER_ID : option key;
      WHEN_CREATED : option string;
      NUM_SUBMITTED_REQUESTS : T }.
Arguments mk {T} _ _ _.
Arguments USER_ID {T} _.
Arguments WHEN_CREATED {T} _.
Arguments NUM_SUBMITTED_REQUESTS {T} _.
End Log.

Module LookUp.
Record row : Type := mk
    { USER_ID : option key;
      User_Name : option string;
      Email : option string;
      Org : option string }.
End LookUp.

Definition keyed (V : Type) : Type := list (key * V).

(** [Avg] is a [float64], given by its exact value; [None] where this part
    does not compute it (see [mean]). *)
Module Final.
Record row : Type := mk
    { USER_ID : key; Total : Z; Jobs : Z; Avg : option Q }.
End Final.

Module Usage.
Record row : Type := mk
    { USER_ID : key; Total : Z; Jobs : Z; Avg : option Q;
      User_Name : option string;
      Email : option string;
      Org : option string }.
End Usage.

(** How a run ends: with the table it writes, with an exception, or outside
    what this part describes. *)
Inductive result (A : Type) : Type :=
| Done (a : A)
| Raises (e : exn)
| Outside.
Arguments Done {A} _.
Arguments Raises {A} _.
Arguments Outside {A}.

(** ** The types of the columns *)

Definition in_int64 (n : Z) : bool := (- 2 ^ 63 <=? n) && (n <? 2 ^ 63).

Definition id_is_text (c : id_cell) : bool :=
  match c with IdText _ => true | _ => false end.

Definition id_is_int64 (c : id_cell) : bool :=
  match c with IdInt _ n => in_int64 n | _ => false end.

(** The type of a [USER_ID] column: strings as soon as one cell is text,
    [int64] when every cell is an integer. *)
Definition id_dtype (col : list id_cell) : option dtype :=
  match col with
  | [] => Some object
  | _ => if existsb id_is_text col then Some object
         else if forallb id_is_int64 col then Some int64
         else None
  end.

(** The value of a cell in a column of that type. *)
Definition id_key (dt : dtype) (c : id_cell) : option key :=
  match dt, c with
  | object, IdInt text _ => Some (KText text)
  | object, IdFloat text => Some (KText text)
  | object, IdText s => Some (KText s)
  | int64, IdInt _ n => Some (KInt n)
  | _, _ => None
  end.

Definition stamp_is_text (c : stamp_cell) : bool :=
  match c with StampText _ => true | _ => false end.

(** Whether the [WHEN_CREATED] column holds strings, so that it has the
    [.str] accessor: not when every cell is a number or missing. *)
Definition has_str (col : list stamp_cell) : bool :=
  match col with
  | [] => true
  | _ => existsb stamp_is_text col
  end.

Definition stamp_value (c : stamp_cell) : option string :=
  match c with
  | StampNumber text => Some text
  | StampNA => None
  | StampText s => Some s
  end.

Definition job_is_int (c : job_cell) : bool :=
  match c with JobInt _ => true | _ => false end.

Definition job_is_float (c : job_cell) : bool :=
  match c with JobText _ => false | _ => true end.

Definition infer_dtype (col : list job_cell) : dtype :=
  match col with
  | [] => object
  | _ => if forallb job_is_int col then int64
         else if forallb job_is_float col then float64 else object
  end.

(** The numbers whose conversion this part describes. *)
Definition job_fits (dt : dtype) (c : job_cell) : bool :=
  match c, dt with
  | JobInt n, float64 => Z.abs n <=? 2 ^ 53
  | JobInt n, _ => in_int64 n
  | JobFloat q, float64 => in_int64 (trunc q)
  | _, _ => true
  end.

Definition job_dtype (col : list job_cell) : option dtype :=
  let dt := infer_dtype col in
  if forallb (job_fits dt) col then Some dt else None.

Definition typed_row (id_type : dtype) (r : Csv.row) : Log.row job_cell :=
  Log.mk (id_key id_type (Csv.USER_ID r))
         (stamp_value (Csv.WHEN_CREATED r))
         (Csv.NUM_SUBMITTED_REQUESTS r).

Definition typed_lookup (id_type : dtype) (r : LookUpCsv.row) : LookUp.row :=
  LookUp.mk (id_key id_type (LookUpCsv.USER_ID r))
            (LookUpCsv.User_Name r) (LookUpCsv.Email r) (LookUpCsv.Org r).

(** ** Step 5 *)

(** [pd.to_numeric(., errors='coerce')]: a finite number, an infinite one,
    or NaN ([None]). *)
Inductive number : Type := Finite (q : Q) | Infinite.

Definition to_numeric (c : job_cell) : option number :=
  match c with
  | JobInt n => Some (Finite (inject_Z n))
  | JobFloat q => Some (Finite q)
  | JobInf => Some Infinite
  | JobNA | JobText _ => None
  end.

(** [astype(int)] on one cell: a float column truncates and refuses what is
    not finite, an object column calls [int] on the Python string. *)
Definition astype_int (dt : dtype) (c : job_cell) : exn + Z :=
  match c with
  | JobInt n => inr n
  | JobFloat q => match dt with float64 => inr (trunc q) | _ => inl ValueError end
  | JobInf | JobNA | JobText _ => inl ValueError
  end.

Fixpoint astype_rows (dt : dtype) (df : frame (Log.row job_cell))
  : exn + frame (Log.row Z) :=
  match df with
  | [] => inr []
  | (i, r) :: df' =>
      match astype_int dt (Log.NUM_SUBMITTED_REQUESTS r) with
      | inl e => inl e
      | inr n =>
          match astype_rows dt df' with
          | inl e => inl e
          | inr out =>
              inr ((i, Log.mk (Log.USER_ID r) (Log.WHEN_CREATED r) n) :: out)
          end
      end
  end.

Definition numeric_mask (df : frame (Log.row job_cell)) : frame bool :=
  series_of (fun r => notnull (to_numeric (Log.NUM_SUBMITTED_REQUESTS r))) df.

Definition step5 (dt : dtype) (df : frame (Log.row job_cell))
  : exn + frame (Log.row Z) :=
  match loc df (numeric_mask df) with
  | inl e => inl e
  | inr kept => astype_rows dt kept
  end.

(** ** Step 6 *)

(** [.str.split(' ').str[0]]: NaN stays NaN. *)
Definition day {T} (r : Log.row T) : option string :=
  option_map split0 (Log.WHEN_CREATED r).

(** [series >= text] and [series <= text] on one element: NaN compares
    [False]. *)
Definition ge_text (d : option string) (s : string) : bool :=
  match d with Some x => str_ge x s | None => false end.

Definition le_text (d : option string) (s : string) : bool :=
  match d with Some x => str_le x s | None => false end.

Definition trim (startDate endDate : string) (csvLogFileContent : frame (Log.row Z))
  : exn + frame (Log.row Z) :=
  match loc csvLogFileContent
            (series_of (fun r => ge_text (day r) startDate) csvLogFileContent) with
  | inl e => inl e
  | inr csvLogFileContentTrimmed =>
      loc csvLogFileContentTrimmed
          (series_of (fun r => le_text (day r) endDate) csvLogFileContent)
  end.

Definition in_window {T} (startDate endDate : string) (r : Log.row T) : bool :=
  ge_text (day r) startDate && le_text (day r) endDate.

(** ** Step 7 *)

Fixpoint unique_from (seen l : list key) : list key :=
  match l with
  | [] => []
  | k :: l' =>
      if existsb (key_eqb k) seen then unique_from seen l'
      else k :: unique_from (k :: seen) l'
  end.

Definition unique (l : list key) : list key := unique_from [] l.

(** The keys of the rows: [value_counts] and [groupby] leave out the rows
    whose [USER_ID] is NaN. *)
Definition dropna (l : list (option key)) : list key :=
  flat_map (fun o => match o with Some k => [k] | None => [] end) l.

Definition user_ids {T} (df : frame (Log.row T)) : list key :=
  dropna (map Log.USER_ID (values df)).

Definition has_key {T} (k : key) (r : Log.row T) : bool :=
  match Log.USER_ID r with Some k' => key_eqb k' k | None => false end.

Definition group (k : key) (df : frame (Log.row Z)) : list Z :=
  map Log.NUM_SUBMITTED_REQUESTS (filter (has_key k) (values df)).

(** The sum of an [int64] column wraps around. *)
Definition wrap64 (n : Z) : Z := (n + 2 ^ 63) mod 2 ^ 64 - 2 ^ 63.

(** ** [float64] *)

Definition pow2 (e : Z) : Q := (2 ^ e)%Q.

(** For [a > 0], the [e] with [2^e <= a < 2^(e+1)]. *)
Definition ilog2 (a : Q) : Z :=
  let k := Z.log2 (Qnum a) - Z.log2 (Z.pos (Qden a)) in
  if Qle_bool (pow2 k) a then k else k - 1.

(** The [float64] nearest to [x], halves to the even significand: 53 bits,
    exponents from -1074 (overflow to infinity left aside). *)
Definition f64 (x : Q) : Q :=
  if Qeq_bool x 0 then 0
  else
    let a := Qabs x in
    let e := Z.max (ilog2 a - 52) (- 1074) in
    let m := (inject_Z (rint (a / pow2 e)) * pow2 e)%Q in
    Qred (if Qle_bool 0 x then m else (- m)%Q).

Definition sum_abs (l : list Z) : Z := fold_right (fun n s => Z.abs n + s) 0 l.

(** The mean of a group: the job sizes are added up as [float64] and the sum
    is divided by the count.  Where the sizes are small enough for every
    partial sum to be exact (in whatever order they are added), this is the
    quotient of the exact sum, rounded once; the other cases are left
    open. *)
Definition mean (l : list Z) : option Q :=
  match l with
  | [] => None
  | _ => if sum_abs l <=? 2 ^ 53
         then Some (f64 (inject_Z (sum l) / inject_Z (count l))%Q)
         else None
  end.

(** [round(1)] on a float: [rint(x * 10) / 10], every step in [float64]. *)
Definition round1 (x : Q) : Q :=
  f64 (inject_Z (rint (f64 (x * 10)%Q)) / 10)%Q.

(** ** Step 7, continued *)

Fixpoint insert_by_count (x : key * Z) (l : keyed Z) : keyed Z :=
  match l with
  | [] => [x]
  | y :: l' =>
      if snd y <=? snd x then x :: y :: l' else y :: insert_by_count x l'
  end.

Definition sort_by_count (l : keyed Z) : keyed Z :=
  fold_right insert_by_count [] l.

Definition value_counts (df : frame (Log.row Z)) : keyed Z :=
  sort_by_count (map (fun k => (k, count (group k df))) (unique (user_ids df))).

Fixpoint insert_key (k : key) (l : list key) : list key :=
  match l with
  | [] => [k]
  | h :: t => if key_leb k h then k :: l else h :: insert_key k t
  end.

Definition sort_keys (l : list key) : list key :=
  fold_right insert_key [] l.

Definition group_keys (df : frame (Log.row Z)) : list key :=
  sort_keys (unique (user_ids df)).

Definition groupby_mean (df : frame (Log.row Z)) : keyed (option Q) :=
  map (fun k => (k, mean (group k df))) (group_keys df).

Definition groupby_sum (df : frame (Log.row Z)) : keyed Z :=
  map (fun k => (k, wrap64 (sum (group k df)))) (group_keys df).

(** ** Step 8 *)

Definition matches {R} (keyR : R -> option key) (k : key) (right : list R)
  : list R :=
  filter (fun r => match keyR r with
                   | Some k' => key_eqb k' k
                   | None => false
                   end) right.

Definition merge {L R O} (keyL : L -> key) (keyR : R -> option key)
    (join : L -> R -> O) (left : list L) (right : list R) : list O :=
  flat_map (fun l => map (join l) (matches keyR (keyL l) right)) left.

Definition round_frame (df : keyed (option Q)) : keyed (option Q) :=
  map (fun kv => (fst kv, option_map round1 (snd kv))) df.

Definition merge_series (dfTotalAddresses dfJobSubmissions : keyed Z)
    (dfAveragePerJob : keyed (option Q)) : list Final.row :=
  let dfFinalReport :=
    merge fst (fun j => Some (fst j)) (fun t j => (fst t, snd t, snd j))
          dfTotalAddresses dfJobSubmissions in
  merge (fun r => fst (fst r)) (fun a => Some (fst a))
        (fun r a => Final.mk (fst (fst r)) (snd (fst r)) (snd r) (snd a))
        dfFinalReport (round_frame dfAveragePerJob).

Definition dfFinalReport (csvLogFileContentTrimmed : frame (Log.row Z))
  : list Final.row :=
  let seriesJobSubmissions := value_counts csvLogFileContentTrimmed in
  let seriesAveragePerJob := groupby_mean csvLogFileContentTrimmed in
  let seriesTotalAddresses := groupby_sum csvLogFileContentTrimmed in
  merge_series seriesTotalAddresses seriesJobSubmissions seriesAveragePerJob.

(** ** Step 9 *)

Definition merge_left {L R O} (keyL : L -> key) (keyR : R -> option key)
    (join : L -> option R -> O) (left : list L) (right : list R) : list O :=
  flat_map (fun l => match matches keyR (keyL l) right with
                     | [] => [join l None]
                     | ms => map (fun r => join l (Some r)) ms
                     end) left.

Definition with_lookup (f : Final.row) (d : option LookUp.row) : Usage.row :=
  Usage.mk (Final.USER_ID f) (Final.Total f) (Final.Jobs f) (Final.Avg f)
           (match d with Some e => LookUp.User_Name e | None => None end)
           (match d with Some e => LookUp.Email e | None => None end)
           (match d with Some e => LookUp.Org e | None => None end).

(** [merge] checks the two key columns before it pairs any row: strings on
    one side and numbers on the other raise. *)
Definition same_kind (left_on right_on : dtype) : bool :=
  match left_on, right_on with
  | object, object => true
  | object, _ | _, object => false
  | _, _ => true
  end.

Definition dfCPFUsage (left_on right_on : dtype)
    (dfFinalReport : list Final.row) (dfLookUpTable : list LookUp.row)
  : result (list Usage.row) :=
  if same_kind left_on right_on
  then Done (merge_left Final.USER_ID LookUp.USER_ID with_lookup
                        dfFinalReport dfLookUpTable)
  else match dfFinalReport, dfLookUpTable with
       | _ :: _, _ :: _ => Raises ValueError
       | _, _ => Outside
       end.

(** ** The script *)

(** Steps 4 to 10, from the two files as [pd.read_csv] finds them to the
    table written to [finalReport]. *)
Definition main (csvLogFile : list Csv.row)
    (csvLookUpTable : list LookUpCsv.row) (startDate endDate : string)
  : result (list Usage.row) :=
  match job_dtype (map Csv.NUM_SUBMITTED_REQUESTS csvLogFile),
        id_dtype (map Csv.USER_ID csvLogFile),
        id_dtype (map LookUpCsv.USER_ID csvLookUpTable) with
  | Some job_type, Some id_type, Some lookup_type =>
      match step5 job_type (read_csv (map (typed_row id_type) csvLogFile)) with
      | inl e => Raises e
      | inr [] => Raises IndexError
      | inr csvLogFileContent =>
          if has_str (map Csv.WHEN_CREATED csvLogFile) then
            match trim startDate endDate csvLogFileContent with
            | inl e => Raises e
            | inr csvLogFileContentTrimmed =>
                dfCPFUsage id_type lookup_type
                           (dfFinalReport csvLogFileContentTrimmed)
                           (map (typed_lookup lookup_type) csvLookUpTable)
            end
          else Raises AttributeError
      end
  | _, _, _ => Outside
  end.

(** ** Notions the statements use *)

Definition key_le (a b : key) : Prop := key_leb a b = true.

(** The row of one user: total, count and rounded mean of the user's job
    sizes. *)
Definition metrics_row (df : frame (Log.row Z)) (k : key) : Final.row :=
  Final.mk k (wrap64 (sum (group k df))) (count (group k df))
           (option_map round1 (mean (group k df))).

(** The rows the left join emits for one report row. *)
Definition joined (f : Final.row) (dir : list LookUp.row) : list Usage.row :=
  match matches LookUp.USER_ID (Final.USER_ID f) dir with
  | [] => [with_lookup f None]
  | ms => map (fun e => with_lookup f (Some e)) ms
  end.

Definition join (M : list Final.row) (D : list LookUp.row) : list Usage.row :=
  merge_left Final.USER_ID LookUp.USER_ID with_lookup M D.

(** The rows of one user in a report, and the job count the report shows
    for the user (that of the user's first row). *)
Definition rows_of (u : key) (report : list Usage.row) : list Usage.row :=
  filter (fun row => key_eqb (Usage.USER_ID row) u) report.

Definition jobs_of_user (report : list Usage.row) (u : key) : Z :=
  match rows_of u report with
  | row :: _ => Usage.Jobs row
  | [] => 0
  end.

(** The records that have a user id. *)
Definition with_user_id {T} (rows : list (Log.row T)) : list (Log.row T) :=
  filter (fun r => notnull (Log.USER_ID r)) rows.

(** The records of one user. *)
Definition records_of {T} (u : key) (rows : list (Log.row T))
  : list (Log.row T) :=
  filter (has_key u) rows.

(** Step 5 on the list of rows. *)
Definition numeric (r : Log.row job_cell) : bool :=
  notnull (to_numeric (Log.NUM_SUBMITTED_REQUESTS r)).

Definition can_int (dt : dtype) (r : Log.row job_cell) : bool :=
  match astype_int dt (Log.NUM_SUBMITTED_REQUESTS r) with
  | inr _ => true
  | inl _ => false
  end.

Definition as_int (dt : dtype) (r : Log.row job_cell) : Log.row Z :=
  Log.mk (Log.USER_ID r) (Log.WHEN_CREATED r)
         (match astype_int dt (Log.NUM_SUBMITTED_REQUESTS r) with
          | inr n => n
          | inl _ => 0
          end).

Definition ingest (dt : dtype) (rows : list (Log.row job_cell))
  : exn + list (Log.row Z) :=
  let kept := filter numeric rows in
  if forallb (can_int dt) kept then inr (map (as_int dt) kept)
  else inl ValueError.

(** A run by the rows: what [main] comes to, once the three columns are
    typed. *)
Definition outcome (job_type id_type lookup_type : dtype)
    (csvLogFile : list Csv.row) (csvLookUpTable : list LookUpCsv.row)
    (startDate endDate : string) : result (list Usage.row) :=
  match ingest job_type (map (typed_row id_type) csvLogFile) with
  | inl e => Raises e
  | inr [] => Raises IndexError
  | inr rows =>
      if has_str (map Csv.WHEN_CREATED csvLogFile) then
        dfCPFUsage id_type lookup_type
          (dfFinalReport (read_csv (filter (in_window startDate endDate) rows)))
          (map (typed_lookup lookup_type) csvLookUpTable)
      else Raises AttributeError
  end.

(** The header line of a daily file, read as a row, and the table
    [pd.read_table] makes of the merged file, each daily file given by its
    rows under the header line: the header of the first file names the
    columns, the header of every other file is one more row.  Without a file
    there is no table ([EmptyDataError]). *)
Definition header_row : Csv.row :=
  Csv.mk (IdText "USER_ID") (StampText "WHEN_CREATED")
         (JobText "NUM_SUBMITTED_REQUESTS").

Definition merged_table (logs : list (list Csv.row)) : option (list Csv.row) :=
  match logs with
  | [] => None
  | first :: others =>
      Some (first ++ flat_map (fun f => header_row :: f) others)%list
  end.

(** The row step 5 makes of a row of the file: an integer as it is, another
    number cut to an integer towards zero. *)
Definition converted (r : Log.row job_cell) (out : Log.row Z) : Prop :=
  Log.USER_ID out = Log.USER_ID r /\
  Log.WHEN_CREATED out = Log.WHEN_CREATED r /\
  match Log.NUM_SUBMITTED_REQUESTS r with
  | JobInt n => Log.NUM_SUBMITTED_REQUESTS out = n
  | JobFloat q => Log.NUM_SUBMITTED_REQUESTS out = trunc q
  | _ => False
  end.


End Typed.

(* ================================================================== *)
(** * The scenario of the specification, cell by cell *)

Definition row1 : Typed.Csv.row :=
  Typed.Csv.mk (Typed.IdText "u1") (Typed.StampText "2019-09-01 00:00:00.000")
               (Typed.JobInt 5).
Definition row2 : Typed.Csv.row :=
  Typed.Csv.mk (Typed.IdText "u1") (Typed.StampText "2019-09-02 00:00:00.000")
               (Typed.JobInt 3).
Definition row3 : Typed.Csv.row :=
  Typed.Csv.mk (Typed.IdText "u2") (Typed.StampText "2019-09-01 00:00:00.000")
               (Typed.JobInt 10).
Definition lookup_alice : Typed.LookUpCsv.row :=
  Typed.LookUpCsv.mk (Typed.IdText "u1")
                     (Some "Alice") (Some "a@x.com") (Some "OrgA").
Definition lookup_alice_again : Typed.LookUpCsv.row :=
  Typed.LookUpCsv.mk (Typed.IdText "u1")
                     (Some "Alice B.") (Some "alice@y.org") (Some "OrgB").

(** A lookup table keyed by numbers. *)
Definition lookup_1001 : Typed.LookUpCsv.row :=
  Typed.LookUpCsv.mk (Typed.IdInt "1001" 1001)
                     (Some "Alice") (Some "a@x.com") (Some "OrgA").

(** A job of the user whose id is written [NA]. *)
Definition row_na : Typed.Csv.row :=
  Typed.Csv.mk Typed.IdNA (Typed.StampText "2019-09-01 00:00:00.000")
               (Typed.JobInt 7).

(** A job of 5.5 addresses, and two jobs of [2^62] addresses. *)
Definition row_half : Typed.Csv.row :=
  Typed.Csv.mk (Typed.IdText "u1") (Typed.StampText "2019-09-01 00:00:00.000")
               (Typed.JobFloat (55 # 10)).
Definition row_huge : Typed.Csv.row :=
  Typed.Csv.mk (Typed.IdText "u1") (Typed.StampText "2019-09-01 00:00:00.000")
               (Typed.JobInt (2 ^ 62)).

(** Logs of the users 7 and 12. *)
Definition row_7 : Typed.Csv.row :=
  Typed.Csv.mk (Typed.IdInt "007" 7)
               (Typed.StampText "2019-09-01 00:00:00.000") (Typed.JobInt 4).
Definition row_12 : Typed.Csv.row :=
  Typed.Csv.mk (Typed.IdInt "12" 12)
               (Typed.StampText "2019-09-01 00:00:00.000") (Typed.JobInt 6).

(** The scenario after steps 5 and 6, a header line dropped at label 2. *)
Definition typed_trimmed : frame (Typed.Log.row Z) :=
  [ (0%nat, Typed.Log.mk (Some (Typed.KText "u1"))
                         (Some "2019-09-01 00:00:00.000") 5);
    (1%nat, Typed.Log.mk (Some (Typed.KText "u1"))
                         (Some "2019-09-02 00:00:00.000") 3);
    (3%nat, Typed.Log.mk (Some (Typed.KText "u2"))
                         (Some "2019-09-01 00:00:00.000") 10) ].

Definition typed_alice : Typed.LookUp.row :=
  Typed.typed_lookup object lookup_alice.
Definition typed_alice_again : Typed.LookUp.row :=
  Typed.typed_lookup object lookup_alice_again.

(* ================================================================== *)
(** * Facts on the order of strings *)

Lemma ascii_compare_refl (c : ascii) : Ascii.compare c c = Eq.
Proof. unfold Ascii.compare. apply N.compare_refl. Qed.

Lemma string_compare_refl (s : string) : String.compare s s = Eq.
Proof.
  induction s as [|c s IH]; simpl; [reflexivity|].
  now rewrite ascii_compare_refl.
Qed.

Lemma ascii_compare_lt_trans (a b c : ascii) :
  Ascii.compare a b = Lt -> Ascii.compare b c = Lt -> Ascii.compare a c = Lt.
Proof.
  unfold Ascii.compare. rewrite !N.compare_lt_iff. apply N.lt_trans.
Qed.

Lemma string_compare_lt_trans (s1 s2 s3 : string) :
  String.compare s1 s2 = Lt -> String.compare s2 s3 = Lt ->
  String.compare s1 s3 = Lt.
Proof.
  revert s2 s3.
  induction s1 as [|a s1 IH]; intros [|b s2] [|c s3]; simpl;
    try congruence.
  destruct (Ascii.compare a b) eqn:Hab; try discriminate;
    destruct (Ascii.compare b c) eqn:Hbc; try discriminate; intros H1 H2.
  - apply Ascii.compare_eq_iff in Hab, Hbc. subst.
    rewrite ascii_compare_refl. eauto.
  - apply Ascii.compare_eq_iff in Hab. subst. now rewrite Hbc.
  - apply Ascii.compare_eq_iff in Hbc. subst. now rewrite Hab.
  - now rewrite (ascii_compare_lt_trans a b c).
Qed.

Lemma str_le_refl (s : string) : str_le s s = true.
Proof. unfold str_le, String.leb. now rewrite string_compare_refl. Qed.

Lemma str_le_lt_cases (a b : string) :
  str_le a b = true <-> a = b \/ String.compare a b = Lt.
Proof.
  unfold str_le, String.leb.
  destruct (String.compare a b) eqn:E; split; intros H; auto.
  - left. now apply String.compare_eq_iff.
  - discriminate.
  - destruct H as [->|H]; [|discriminate].
    rewrite string_compare_refl in E. discriminate.
Qed.

Lemma str_le_trans (a b c : string) :
  str_le a b = true -> str_le b c = true -> str_le a c = true.
Proof.
  rewrite !str_le_lt_cases.
  intros [->|H1] [->|H2]; auto.
  right. eapply string_compare_lt_trans; eauto.
Qed.

Lemma str_le_antisym (a b : string) :
  str_le a b = true -> str_le b a = true -> a = b.
Proof. apply String.leb_antisym. Qed.

Lemma str_le_total (a b : string) : str_le a b = true \/ str_le b a = true.
Proof. apply String.leb_total. Qed.

(** [a < b], the negation of [b <= a]. *)
Lemma str_lt_not_ge (a b : string) :
  String.ltb a b = true <-> str_le b a = false.
Proof.
  unfold String.ltb, str_le, String.leb.
  rewrite (String.compare_antisym b a).
  destruct (String.compare a b); simpl; split; congruence.
Qed.

(* ================================================================== *)
(** * Frames and boolean indexing *)

Section Frames.

Context {A : Type}.

Lemma at_label_series_of {B} (f : A -> B) (df : frame A) (i : nat) :
  at_label i (series_of f df) = option_map f (at_label i df).
Proof.
  induction df as [|[j a] df IH]; simpl; [reflexivity|].
  destruct (Nat.eqb i j); auto.
Qed.

Lemma at_label_in (df : frame A) (i : nat) (a : A) :
  NoDup (labels df) -> In (i, a) df -> at_label i df = Some a.
Proof.
  induction df as [|[j b] df IH]; simpl; [tauto|].
  intros Hnd [Heq|Hin]; inversion Hnd; subst.
  - inversion Heq; subst. now rewrite Nat.eqb_refl.
  - destruct (Nat.eqb_spec i j) as [->|_]; auto.
    exfalso. apply H1. change j with (fst (j, a)). now apply in_map.
Qed.

(** A mask computed on a frame selects, in any part of that frame, the rows
    on which the condition holds. *)
Lemma loc_part (f : A -> bool) (whole part : frame A) :
  NoDup (labels whole) -> incl part whole ->
  loc part (series_of f whole) = inr (filter (fun ir => f (snd ir)) part).
Proof.
  intros Hnd Hincl. unfold loc.
  assert (Hat : forall ir, In ir part ->
            at_label (fst ir) (series_of f whole) = Some (f (snd ir))).
  { intros [i a] Hin. simpl. rewrite at_label_series_of.
    now rewrite (at_label_in whole i a Hnd (Hincl _ Hin)). }
  replace (covers (series_of f whole) part) with true.
  - f_equal. unfold keep_true. apply filter_ext_in.
    intros ir Hin. now rewrite (Hat ir Hin).
  - symmetry. apply forallb_forall. intros ir Hin. now rewrite (Hat ir Hin).
Qed.

Lemma loc_self (f : A -> bool) (df : frame A) :
  NoDup (labels df) ->
  loc df (series_of f df) = inr (filter (fun ir => f (snd ir)) df).
Proof. intros Hnd. apply loc_part; [exact Hnd | apply incl_refl]. Qed.

Lemma labels_filter_NoDup (p : nat * A -> bool) (df : frame A) :
  NoDup (labels df) -> NoDup (labels (filter p df)).
Proof.
  unfold labels. induction df as [|ir df IH]; simpl; intros Hnd; [constructor|].
  inversion Hnd; subst. destruct (p ir); simpl; auto.
  constructor; auto. intros Hin. apply H1.
  apply in_map_iff in Hin. destruct Hin as [x [Hx Hin]].
  apply filter_In in Hin. rewrite <- Hx. apply in_map. tauto.
Qed.

Lemma values_filter (p : A -> bool) (df : frame A) :
  values (filter (fun ir => p (snd ir)) df) = filter p (values df).
Proof.
  unfold values. induction df as [|[i a] df IH]; simpl; [reflexivity|].
  destruct (p a); simpl; now rewrite IH.
Qed.

Lemma labels_read_csv (rows : list A) :
  labels (read_csv rows) = seq 0 (List.length rows).
Proof.
  unfold labels, read_csv. generalize 0%nat.
  induction rows as [|a rows IH]; intros n; simpl; [reflexivity|].
  now rewrite IH.
Qed.

Lemma values_read_csv (rows : list A) : values (read_csv rows) = rows.
Proof.
  unfold values, read_csv. generalize 0%nat.
  induction rows as [|a rows IH]; intros n; simpl; [reflexivity|].
  now rewrite IH.
Qed.

Lemma read_csv_NoDup (rows : list A) : NoDup (labels (read_csv rows)).
Proof. rewrite labels_read_csv. apply seq_NoDup. Qed.

End Frames.

(* ================================================================== *)
(** * The date filter *)

Lemma trim_filter (startDate endDate : string) (df : frame (Log.row Z)) :
  NoDup (labels df) ->
  trim startDate endDate df
  = inr (filter (fun ir => in_window startDate endDate (snd ir)) df).
Proof.
  intros Hnd. unfold trim.
  rewrite (loc_self (fun r => str_ge (day r) startDate) df Hnd).
  rewrite (loc_part (fun r => str_le (day r) endDate) df _ Hnd).
  - f_equal. unfold in_window.
    induction df as [|ir df IH]; simpl; [reflexivity|].
    inversion Hnd; subst.
    destruct (str_ge (day (snd ir)) startDate); simpl.
    + destruct (str_le (day (snd ir)) endDate); simpl; now rewrite IH.
    + now rewrite IH.
  - apply incl_filter.
Qed.

(* ================================================================== *)
(** * Keys: [unique], the two sorts, and matching *)

Lemma existsb_eqb_In (k : string) (seen : list string) :
  existsb (String.eqb k) seen = true <-> In k seen.
Proof.
  rewrite existsb_exists. split.
  - intros [x [Hin Heq]]. apply String.eqb_eq in Heq. now subst.
  - intros Hin. exists k. split; [exact Hin | apply String.eqb_refl].
Qed.

Lemma unique_from_In (k : string) (l seen : list string) :
  In k (unique_from seen l) <-> In k l /\ ~ In k seen.
Proof.
  revert seen. induction l as [|x l IH]; intros seen; simpl; [tauto|].
  destruct (existsb (String.eqb x) seen) eqn:E.
  - apply existsb_eqb_In in E. rewrite IH. split.
    + tauto.
    + intros [[->|H] Hn]; tauto.
  - assert (Hx : ~ In x seen) by (rewrite <- existsb_eqb_In; congruence).
    simpl. rewrite IH. simpl. split.
    + intros [->|[H Hn]]; tauto.
    + intros [[->|H] Hn]; [tauto|].
      destruct (string_dec x k) as [->|Hne]; [tauto|]. right. tauto.
Qed.

Lemma unique_from_NoDup (l seen : list string) : NoDup (unique_from seen l).
Proof.
  revert seen. induction l as [|x l IH]; intros seen; simpl; [constructor|].
  destruct (existsb (String.eqb x) seen); auto.
  constructor; auto. rewrite unique_from_In. simpl. tauto.
Qed.

Lemma unique_In (k : string) (l : list string) : In k (unique l) <-> In k l.
Proof. unfold unique. rewrite unique_from_In. simpl. tauto. Qed.

Lemma unique_NoDup (l : list string) : NoDup (unique l).
Proof. apply unique_from_NoDup. Qed.

Lemma insert_key_perm (k : string) (l : list string) :
  Permutation (k :: l) (insert_key k l).
Proof.
  induction l as [|h t IH]; simpl; [reflexivity|].
  destruct (str_le k h); [reflexivity|].
  rewrite perm_swap. now constructor.
Qed.

Lemma sort_keys_perm (l : list string) : Permutation l (sort_keys l).
Proof.
  induction l as [|k l IH]; simpl; [reflexivity|].
  rewrite <- insert_key_perm. now constructor.
Qed.

Lemma insert_key_sorted (k : string) (l : list string) :
  StronglySorted key_le l -> StronglySorted key_le (insert_key k l).
Proof.
  induction l as [|h t IH]; simpl; intros Hs.
  - repeat constructor.
  - inversion Hs; subst. destruct (str_le k h) eqn:E.
    + constructor; [exact Hs|]. constructor; [exact E|].
      eapply Forall_impl; [|exact H2]. intros a Ha.
      unfold key_le in *. eapply str_le_trans; eauto.
    + constructor; [auto|].
      assert (Hhk : key_le h k).
      { destruct (str_le_total k h) as [H|H]; [congruence | exact H]. }
      eapply Permutation_Forall; [apply insert_key_perm|].
      constructor; assumption.
Qed.

Lemma sort_keys_sorted (l : list string) : StronglySorted key_le (sort_keys l).
Proof.
  induction l as [|k l IH]; simpl; [constructor|].
  now apply insert_key_sorted.
Qed.

Lemma sort_keys_In (k : string) (l : list string) :
  In k (sort_keys l) <-> In k l.
Proof.
  split; apply Permutation_in;
    [symmetry|]; apply sort_keys_perm.
Qed.

Lemma sort_keys_NoDup (l : list string) : NoDup l -> NoDup (sort_keys l).
Proof. apply Permutation_NoDup, sort_keys_perm. Qed.

Lemma insert_by_count_perm (x : string * Z) (l : keyed Z) :
  Permutation (x :: l) (insert_by_count x l).
Proof.
  induction l as [|y l IH]; simpl; [reflexivity|].
  destruct (snd y <=? snd x); [reflexivity|].
  rewrite perm_swap. now constructor.
Qed.

Lemma sort_by_count_perm (l : keyed Z) : Permutation l (sort_by_count l).
Proof.
  induction l as [|x l IH]; simpl; [reflexivity|].
  rewrite <- insert_by_count_perm. now constructor.
Qed.

Lemma matches_none {R} (key : R -> string) (k : string) (right : list R) :
  ~ In k (map key right) -> matches key k right = [].
Proof.
  induction right as [|r right IH]; simpl; [reflexivity|].
  intros Hn. destruct (String.eqb_spec (key r) k) as [E|E]; [tauto|].
  apply IH. tauto.
Qed.

Lemma matches_one {R} (key : R -> string) (r : R) (right : list R) :
  NoDup (map key right) -> In r right -> matches key (key r) right = [r].
Proof.
  induction right as [|x right IH]; simpl; [tauto|].
  intros Hnd [->|Hin]; inversion Hnd; subst.
  - rewrite String.eqb_refl. f_equal. now apply matches_none.
  - destruct (String.eqb_spec (key x) (key r)) as [E|E].
    + exfalso. apply H1. rewrite E. now apply in_map.
    + now apply IH.
Qed.

(* ================================================================== *)
(** * The merged report in closed form *)

Lemma merge_map_one {K L R O} (keyL : L -> string) (keyR : R -> string)
    (join : L -> R -> O) (f : K -> L) (g : K -> R)
    (keys : list K) (right : list R) :
  (forall k, In k keys -> matches keyR (keyL (f k)) right = [g k]) ->
  merge keyL keyR join (map f keys) right
  = map (fun k => join (f k) (g k)) keys.
Proof.
  unfold merge. induction keys as [|k keys IH]; simpl; intros H; [reflexivity|].
  rewrite (H k (or_introl eq_refl)). simpl. f_equal.
  apply IH. intros k' Hin. apply H. now right.
Qed.

Lemma group_keys_In (df : frame (Log.row Z)) (k : string) :
  In k (group_keys df) <-> In k (user_ids df).
Proof. unfold group_keys. now rewrite sort_keys_In, unique_In. Qed.

Lemma group_keys_NoDup (df : frame (Log.row Z)) : NoDup (group_keys df).
Proof. apply sort_keys_NoDup, unique_NoDup. Qed.

Lemma group_keys_sorted (df : frame (Log.row Z)) :
  StronglySorted key_le (group_keys df).
Proof. apply sort_keys_sorted. Qed.

Create HintDb keys.
#[local] Hint Resolve unique_NoDup group_keys_NoDup group_keys_sorted : keys.
#[local] Hint Resolve -> unique_In group_keys_In : keys.
#[local] Hint Resolve <- unique_In group_keys_In : keys.

Lemma map_fst_keyed {V} (f : string -> V) (keys : list string) :
  map fst (map (fun k => (k, f k)) keys) = keys.
Proof. rewrite map_map. simpl. apply map_id. Qed.

Lemma value_counts_perm (df : frame (Log.row Z)) :
  Permutation (map (fun k => (k, count (group k df))) (unique (user_ids df)))
              (value_counts df).
Proof. apply sort_by_count_perm. Qed.

Lemma value_counts_keys_NoDup (df : frame (Log.row Z)) :
  NoDup (map fst (value_counts df)).
Proof.
  eapply Permutation_NoDup.
  - apply Permutation_map, value_counts_perm.
  - rewrite map_fst_keyed. apply unique_NoDup.
Qed.

Lemma value_counts_match (df : frame (Log.row Z)) (k : string) :
  In k (user_ids df) ->
  matches fst k (value_counts df) = [(k, count (group k df))].
Proof.
  intros Hin.
  apply (matches_one fst (k, count (group k df))).
  - apply value_counts_keys_NoDup.
  - eapply Permutation_in; [apply value_counts_perm|].
    apply in_map_iff. exists k. split; [reflexivity|].
    now apply unique_In.
Qed.

Lemma keyed_match {V} (f : string -> V) (keys : list string) (k : string) :
  NoDup keys -> In k keys ->
  matches fst k (map (fun k => (k, f k)) keys) = [(k, f k)].
Proof.
  intros Hnd Hin.
  apply (matches_one fst (k, f k)).
  - now rewrite map_fst_keyed.
  - apply in_map_iff. now exists k.
Qed.

Lemma dfFinalReport_rows (df : frame (Log.row Z)) :
  dfFinalReport df = map (metrics_row df) (group_keys df).
Proof.
  unfold dfFinalReport, merge_series, groupby_sum, groupby_mean, round_frame.
  cbv zeta.
  rewrite (merge_map_one fst fst _ (fun k => (k, sum (group k df)))
             (fun k => (k, count (group k df)))).
  - rewrite map_map. simpl.
    rewrite (merge_map_one (fun r => fst (fst r)) fst _
               (fun k => (k, sum (group k df), count (group k df)))
               (fun k => (k, round1 (mean (group k df))))).
    + reflexivity.
    + intros k Hin. simpl.
      apply (keyed_match (fun k => round1 (mean (group k df)))).
      * apply group_keys_NoDup.
      * exact Hin.
  - intros k Hin. simpl. apply value_counts_match. auto with keys.
Qed.

(* ================================================================== *)
(** * The join with the lookup table *)

(** The two cases of [joined]: no lookup entry, or the entries [e :: ms]. *)
Ltac joined_cases f D e ms :=
  unfold joined;
  destruct (matches LookUp.USER_ID (Final.USER_ID f) D) as [|e ms].

Lemma filter_all {A} (p : A -> bool) (l : list A) :
  (forall x, In x l -> p x = true) -> filter p l = l.
Proof.
  induction l as [|a l IH]; simpl; intros H; [reflexivity|].
  rewrite (H a (or_introl eq_refl)). f_equal. apply IH. auto.
Qed.

Lemma filter_none {A} (p : A -> bool) (l : list A) :
  (forall x, In x l -> p x = false) -> filter p l = [].
Proof.
  induction l as [|a l IH]; simpl; intros H; [reflexivity|].
  rewrite (H a (or_introl eq_refl)). apply IH. auto.
Qed.

Lemma report_user_ids (df : frame (Log.row Z)) :
  map Final.USER_ID (dfFinalReport df) = group_keys df.
Proof. rewrite dfFinalReport_rows, map_map. simpl. apply map_id. Qed.

(* ================================================================== *)
(** * Rounding *)

Lemma rint_nearest (x : Q) :
  (Qabs (x - inject_Z (rint x)) <= 1 # 2)%Q /\
  ((Qabs (x - inject_Z (rint x)) == 1 # 2)%Q -> Z.even (rint x) = true).
Proof.
  unfold rint.
  pose proof (Qfloor_le x) as Hlo. pose proof (Qlt_floor x) as Hhi.
  rewrite inject_Z_plus in Hhi. change (inject_Z 1) with 1%Q in Hhi.
  remember (Qfloor x) as f eqn:Hf. clear Hf.
  destruct (Qcompare (x - inject_Z f) (1 # 2)) eqn:E.
  - apply Qeq_alt in E.
    destruct (Z.even f) eqn:Ev.
    + split; [|auto]. apply Qabs_Qle_condition. split; lra.
    + split.
      * rewrite inject_Z_plus. change (inject_Z 1) with 1%Q.
        apply Qabs_Qle_condition. split; lra.
      * intros _. rewrite Z.even_add, Ev. reflexivity.
  - apply Qlt_alt in E. split.
    + apply Qabs_Qle_condition. split; lra.
    + intros H. exfalso. rewrite Qabs_pos in H; lra.
  - apply Qgt_alt in E. rewrite inject_Z_plus. change (inject_Z 1) with 1%Q.
    split.
    + apply Qabs_Qle_condition. split; lra.
    + intros H. exfalso. rewrite Qabs_neg in H; lra.
Qed.

(* ================================================================== *)
(** * Counting *)

Lemma sum_perm (l l' : list Z) : Permutation l l' -> sum l = sum l'.
Proof.
  unfold sum. induction 1; simpl; lia.
Qed.

(* ================================================================== *)
(** * Step 5 on the rows *)

Lemma astype_int_error (dt : dtype) (c : cell) (e : exn) :
  astype_int dt c = inl e -> e = ValueError.
Proof.
  destruct c as [n|q| |t]; simpl; try congruence.
  destruct dt; congruence.
Qed.

Lemma astype_rows_spec (dt : dtype) (df : frame (Log.row cell)) :
  astype_rows dt df
  = if forallb (fun ir => can_int dt (snd ir)) df
    then inr (map (fun ir => (fst ir, as_int dt (snd ir))) df)
    else inl ValueError.
Proof.
  induction df as [|[i r] df IH]; simpl; [reflexivity|].
  unfold can_int at 1, as_int at 1. simpl.
  destruct (astype_int dt (Log.NUM_SUBMITTED_REQUESTS r)) as [e|n] eqn:E; simpl.
  - now rewrite (astype_int_error _ _ _ E).
  - rewrite IH. now destruct (forallb (fun ir => can_int dt (snd ir)) df).
Qed.

Lemma step5_spec (df : frame (Log.row cell)) :
  NoDup (labels df) ->
  let kept := filter (fun ir => numeric (snd ir)) df in
  step5 df
  = if forallb (fun ir => can_int (column_dtype df) (snd ir)) kept
    then inr (map (fun ir => (fst ir, as_int (column_dtype df) (snd ir))) kept)
    else inl ValueError.
Proof.
  intros Hnd kept. unfold step5, numeric_mask.
  rewrite (loc_self _ df Hnd). apply astype_rows_spec.
Qed.

Lemma forallb_values {A} (p : A -> bool) (df : frame A) :
  forallb (fun ir => p (snd ir)) df = forallb p (values df).
Proof.
  unfold values. induction df as [|ir df IH]; simpl; [reflexivity|].
  now rewrite IH.
Qed.

(** The frame step 5 makes of the file: its rows are [ingest]'s, and it has
    no label twice. *)
Lemma step5_read_csv (rows : list (Log.row cell)) :
  match step5 (read_csv rows) with
  | inl e => ingest rows = inl e
  | inr df => ingest rows = inr (values df) /\ NoDup (labels df)
  end.
Proof.
  rewrite (step5_spec _ (read_csv_NoDup rows)). unfold ingest, column_dtype.
  rewrite forallb_values, values_filter, values_read_csv.
  destruct (forallb _ (filter numeric rows)); [|reflexivity].
  split.
  - f_equal. unfold values. rewrite map_map. simpl.
    rewrite <- (map_map snd (as_int _)). fold (values (filter (fun ir => numeric (snd ir)) (read_csv rows))).
    now rewrite values_filter, values_read_csv.
  - unfold labels. rewrite map_map. simpl.
    apply (labels_filter_NoDup _ (read_csv rows)), read_csv_NoDup.
Qed.

(* ================================================================== *)
(** * What a run prints, writes and returns *)

Lemma last_in_cons {A} (l : list A) (d : A) : In (last l d) (d :: l).
Proof.
  induction l as [|a l IH]; [now left|].
  change (last (a :: l) d) with (match l with [] => a | _ => last l d end).
  destruct l as [|b l]; [right; now left|].
  destruct IH as [H|H]; [now left | right; now right].
Qed.

Lemma last_labels {A} (df : frame A) (d : nat * A) :
  last (labels df) (fst d) = fst (last df d).
Proof.
  unfold labels. revert d. induction df as [|a df IH]; intros d; simpl;
    [reflexivity|].
  destruct df as [|b df]; [reflexivity|]. apply (IH d).
Qed.

Lemma getitem_last {A B} (f : A -> B) (i : nat) (r : A) (df : frame A)
    (w : world) :
  NoDup (labels ((i, r) :: df)) ->
  getitem (series_of f ((i, r) :: df)) (last (labels df) i) w
  = (w, inr (f (snd (last df (i, r))))).
Proof.
  intros Hnd. unfold getitem. rewrite at_label_series_of.
  rewrite (last_labels df (i, r) : last (labels df) i = fst (last df (i, r))).
  rewrite (at_label_in ((i, r) :: df) _ (snd (last df (i, r))) Hnd).
  - reflexivity.
  - rewrite <- surjective_pairing. apply last_in_cons.
Qed.

Lemma run_outcome (csvLogFile : list (Log.row cell))
    (csvLookUpTable : list LookUp.row) (startDate endDate : string) :
  run csvLogFile csvLookUpTable startDate endDate
  = outcome (step5 (read_csv csvLogFile)) csvLookUpTable startDate endDate.
Proof.
  pose proof (step5_read_csv csvLogFile) as H.
  unfold run, main, outcome.
  destruct (step5 (read_csv csvLogFile)) as [err|[|[i r] df]].
  - reflexivity.
  - reflexivity.
  - destruct H as [_ Hnd].
    unfold bind at 1. unfold bind at 1. unfold bind at 1. unfold bind at 1.
    unfold bind at 1. unfold bind at 1. unfold bind at 1.
    cbn [print lift start stdout finalReport app index_first labels map fst ret].
    unfold bind at 1. unfold getitem at 1.
    rewrite at_label_series_of. cbn [at_label]. rewrite Nat.eqb_refl.
    cbn [option_map ret].
    unfold bind at 1. unfold bind at 1. cbn [print stdout finalReport].
    unfold index_last. cbn [labels map fst ret].
    unfold bind at 1.
    change (map fst df) with (labels df).
    rewrite (getitem_last Log.WHEN_CREATED i r df _ Hnd).
    rewrite (trim_filter startDate endDate _ Hnd).
    reflexivity.
Qed.

(* ================================================================== *)
(** * Runs depend on the rows only *)

Lemma dfCPFUsage_values (df df' : frame (Log.row Z)) (D : list LookUp.row) :
  values df = values df' -> dfCPFUsage df D = dfCPFUsage df' D.
Proof.
  intros H.
  unfold dfCPFUsage, dfFinalReport, merge_series, value_counts, groupby_mean,
    groupby_sum, group_keys, user_ids, group.
  now rewrite H.
Qed.

Lemma groupby_sum_values (df df' : frame (Log.row Z)) :
  values df = values df' -> groupby_sum df = groupby_sum df'.
Proof.
  intros H. unfold groupby_sum, group_keys, user_ids, group. now rewrite H.
Qed.

Lemma last_values {A} (df : frame A) (d : nat * A) :
  snd (last df d) = last (values df) (snd d).
Proof.
  unfold values. induction df as [|a df IH]; [reflexivity|].
  change (last (a :: df) d) with (match df with [] => a | _ => last df d end).
  simpl map.
  change (last (snd a :: map snd df) (snd d))
    with (match map snd df with [] => snd a | _ => last (map snd df) (snd d) end).
  destruct df as [|b df]; [reflexivity|]. exact IH.
Qed.

Lemma outcome_values (df df' : frame (Log.row Z)) (D : list LookUp.row)
    (startDate endDate : string) :
  values df = values df' ->
  outcome (inr df) D startDate endDate = outcome (inr df') D startDate endDate.
Proof.
  intros H. unfold outcome.
  destruct df as [|[i r] df]; destruct df' as [|[i' r'] df'];
    try discriminate H; [reflexivity|].
  simpl in H. injection H as Hr Hv. subst r'.
  set (t := filter (fun ir => in_window startDate endDate (snd ir)) ((i, r) :: df)).
  set (t' := filter (fun ir => in_window startDate endDate (snd ir)) ((i', r) :: df')).
  assert (Ht : values t = values t').
  { unfold t, t'. rewrite !values_filter. simpl. now rewrite Hv. }
  rewrite (dfCPFUsage_values t t' D Ht), (groupby_sum_values t t' Ht).
  rewrite (last_values df (i, r)), (last_values df' (i', r)), Hv.
  reflexivity.
Qed.

Lemma run_of_rows (csvLogFile : list (Log.row cell))
    (csvLookUpTable : list LookUp.row) (startDate endDate : string) :
  run csvLogFile csvLookUpTable startDate endDate
  = outcome_of_rows (ingest csvLogFile) csvLookUpTable startDate endDate.
Proof.
  rewrite run_outcome. pose proof (step5_read_csv csvLogFile) as H.
  destruct (step5 (read_csv csvLogFile)) as [err|df].
  - now rewrite H.
  - destruct H as [H _]. rewrite H. simpl.
    apply outcome_values. now rewrite values_read_csv.
Qed.

(* ================================================================== *)
(** * No valid row at all *)

Lemma ingest_nothing (rows : list (Log.row cell)) :
  filter numeric rows = [] -> ingest rows = inr [].
Proof. intros H. unfold ingest. now rewrite H. Qed.

(** C10 -- no valid log record.  When no row of the merged log passes the
    numeric coercion, the run stops with an [IndexError] while printing the
    range of dates: the last line printed is the heading of that range, and
    no report is written. *)
Theorem empty_log_aborts (csvLogFile : list (Log.row cell))
    (csvLookUpTable : list LookUp.row) (startDate endDate : string) :
  filter numeric csvLogFile = [] ->
  run csvLogFile csvLookUpTable startDate endDate
  = (World lines_before_range None, inl IndexError).
Proof.
  intros H. rewrite run_of_rows, (ingest_nothing _ H). reflexivity.
Qed.

Lemma empty_log_aborts_witness :
  filter numeric [header_row; header_row] = [] /\
  run [header_row; header_row] [alice] "2019-09-01" "2019-09-02"
  = (World lines_before_range None, inl IndexError).
Proof.
  split; [reflexivity|].
  apply (empty_log_aborts [header_row; header_row] [alice]
                          "2019-09-01" "2019-09-02").
  reflexivity.
Defined.

(** C7 fails on the code at a log without a valid row: the window matches
    no record, and the run raises instead of writing the empty report. *)
Theorem empty_window_on_empty_log_raises :
  run [] [alice] "2019-09-01" "2019-09-02"
  = (World lines_before_range None, inl IndexError) /\
  run [header_row] [alice] "2019-09-02" "2019-09-01"
  = (World lines_before_range None, inl IndexError).
Proof. split; reflexivity. Qed.

(** A window the wrong way round holds no day. *)
Lemma reversed_window_empty {T} (startDate endDate : string) (r : Log.row T) :
  String.ltb endDate startDate = true -> in_window startDate endDate r = false.
Proof.
  intros Hlt. apply str_lt_not_ge in Hlt. unfold in_window.
  change (str_ge (day r) startDate) with (str_le startDate (day r)).
  destruct (str_le startDate (day r)) eqn:E1; [|reflexivity].
  destruct (str_le (day r) endDate) eqn:E2; [|reflexivity].
  rewrite (str_le_trans _ _ _ E1 E2) in Hlt. discriminate.
Qed.

(** With at least one valid row, a window that matches no record gives the
    report without a data row. *)
Lemma empty_window_report (csvLogFile : list (Log.row cell))
    (csvLookUpTable : list LookUp.row) (startDate endDate : string)
    (r : Log.row Z) (rows : list (Log.row Z)) :
  ingest csvLogFile = inr (r :: rows) ->
  (forall x, In x (r :: rows) -> in_window startDate endDate x = false) ->
  snd (run csvLogFile csvLookUpTable startDate endDate) = inr tt /\
  option_map snd
    (finalReport (fst (run csvLogFile csvLookUpTable startDate endDate)))
  = Some [].
Proof.
  intros Hi Hw. rewrite run_of_rows, Hi. unfold outcome_of_rows.
  unfold read_csv. simpl combine. unfold outcome.
  cbv zeta. cbn [fst snd finalReport option_map].
  split; [reflexivity|].
  rewrite (filter_none _ ((0%nat, r) :: combine (seq 1 (List.length rows)) rows)).
  - reflexivity.
  - intros [i x] Hin. simpl. apply Hw.
    assert (Hv : In x (values (read_csv (r :: rows)))).
    { unfold values. change x with (snd (i, x)). apply in_map. exact Hin. }
    now rewrite values_read_csv in Hv.
Qed.

Lemma reversed_window_report (csvLogFile : list (Log.row cell))
    (csvLookUpTable : list LookUp.row) (startDate endDate : string)
    (r : Log.row Z) (rows : list (Log.row Z)) :
  ingest csvLogFile = inr (r :: rows) ->
  String.ltb endDate startDate = true ->
  snd (run csvLogFile csvLookUpTable startDate endDate) = inr tt /\
  option_map snd
    (finalReport (fst (run csvLogFile csvLookUpTable startDate endDate)))
  = Some [].
Proof.
  intros Hi Hlt. apply (empty_window_report _ _ _ _ r rows Hi).
  intros x _. now apply reversed_window_empty.
Qed.

(* ================================================================== *)
(** * The order of the rows of the log does not matter *)

Lemma filter_perm {A} (p : A -> bool) (l l' : list A) :
  Permutation l l' -> Permutation (filter p l) (filter p l').
Proof.
  induction 1 as [|x l l' _ IH|x y l|l l' l'' _ IH1 _ IH2]; simpl.
  - constructor.
  - destruct (p x); [now constructor | exact IH].
  - destruct (p x), (p y); try reflexivity. apply perm_swap.
  - now transitivity (filter p l').
Qed.

Lemma forallb_perm {A} (p : A -> bool) (l l' : list A) :
  Permutation l l' -> forallb p l = forallb p l'.
Proof.
  induction 1 as [|x l l' _ IH|x y l|l l' l'' _ IH1 _ IH2]; simpl.
  - reflexivity.
  - now rewrite IH.
  - destruct (p x), (p y); reflexivity.
  - congruence.
Qed.


(* ================================================================== *)
(** * The format of dates and the order of strings *)

Lemma compare_app_same (a x y : string) :
  String.compare (a ++ x) (a ++ y) = String.compare x y.
Proof.
  induction a as [|c a IH]; simpl; [reflexivity|].
  unfold Ascii.compare. now rewrite N.compare_refl.
Qed.

Lemma compare_app_lt (a b x y : string) :
  String.length a = String.length b ->
  String.compare a b = Lt -> String.compare (a ++ x) (b ++ y) = Lt.
Proof.
  revert b. induction a as [|c a IH]; intros [|c' b]; simpl; try discriminate.
  intros Hlen. injection Hlen as Hlen.
  destruct (Ascii.compare c c'); auto.
Qed.

Lemma length_append (a b : string) :
  String.length (a ++ b) = (String.length a + String.length b)%nat.
Proof. induction a; simpl; auto. Qed.

Lemma digits_length (w : nat) (n : N) : String.length (digits w n) = w.
Proof.
  revert n. induction w as [|w IH]; intros n; simpl; [reflexivity|].
  rewrite length_append, IH. simpl. lia.
Qed.

Lemma digit_lt (n m : N) :
  (n mod 10 < m mod 10)%N -> Ascii.compare (digit n) (digit m) = Lt.
Proof.
  intros H. unfold Ascii.compare, digit.
  apply N.compare_lt_iff.
  assert (H10 : (10 <> 0)%N) by discriminate.
  pose proof (N.mod_upper_bound n 10 H10) as Hn.
  pose proof (N.mod_upper_bound m 10 H10) as Hm.
  remember (n mod 10)%N as rn. remember (m mod 10)%N as rm.
  rewrite !N_ascii_embedding by lia. lia.
Qed.

(** Zero-padded decimals of equal width compare as the numbers do. *)
Lemma digits_lt (w : nat) (n m : N) :
  (n < m)%N -> (m < 10 ^ N.of_nat w)%N ->
  String.compare (digits w n) (digits w m) = Lt.
Proof.
  revert n m. induction w as [|w IH]; intros n m Hlt Hm.
  - simpl in Hm. lia.
  - simpl digits.
    rewrite Nat2N.inj_succ, N.pow_succ_r' in Hm.
    assert (H10 : (10 <> 0)%N) by discriminate.
    pose proof (N.div_mod n 10 H10) as En. pose proof (N.div_mod m 10 H10) as Em.
    pose proof (N.mod_upper_bound n 10 H10) as Hrn.
    pose proof (N.mod_upper_bound m 10 H10) as Hrm.
    destruct (N.lt_ge_cases (n / 10) (m / 10)) as [Hq|Hq].
    + apply compare_app_lt; [now rewrite !digits_length|].
      apply IH; [exact Hq|].
      apply N.Div0.div_lt_upper_bound. exact Hm.
    + assert (E : (n / 10 = m / 10)%N /\ (n mod 10 < m mod 10)%N).
      { remember (n / 10)%N as qn. remember (m / 10)%N as qm.
        remember (n mod 10)%N as rn. remember (m mod 10)%N as rm.
        clear - Hlt En Em Hrn Hrm Hq. lia. }
      destruct E as [E Hr].
      rewrite E, compare_app_same. simpl.
      now rewrite digit_lt.
Qed.

Lemma valid_date_bounds (d : date) :
  valid_date d = true ->
  (1 <= year d <= 9999 /\ 1 <= month d <= 12 /\
   1 <= dom d <= days_in_month (year d) (month d))%N.
Proof.
  unfold valid_date. rewrite !andb_true_iff, !N.leb_le. tauto.
Qed.

Lemma days_in_month_bounds (y m : N) : (28 <= days_in_month y m <= 31)%N.
Proof.
  unfold days_in_month.
  destruct (m =? 2)%N; [destruct (leap y); lia|].
  destruct ((m =? 4) || (m =? 6) || (m =? 9) || (m =? 11))%N; lia.
Qed.

(** The format orders dates as the calendar does. *)
Lemma isoformat_lt (a b : date) :
  valid_date b = true -> date_lt a b ->
  String.ltb (isoformat a) (isoformat b) = true.
Proof.
  intros Hb Hlt. apply valid_date_bounds in Hb.
  pose proof (days_in_month_bounds (year b) (month b)).
  unfold String.ltb, isoformat.
  destruct Hlt as [Hy|[Ey [Hm|[Em Hd]]]].
  - rewrite compare_app_lt; [reflexivity | now rewrite !digits_length |].
    apply digits_lt; [exact Hy | simpl; lia].
  - rewrite Ey, compare_app_same, (compare_app_same "-").
    rewrite compare_app_lt; [reflexivity | now rewrite !digits_length |].
    apply digits_lt; [exact Hm | simpl; lia].
  - rewrite Ey, Em, compare_app_same, (compare_app_same "-").
    rewrite compare_app_same, (compare_app_same "-").
    rewrite digits_lt; [reflexivity | exact Hd | simpl; lia].
Qed.

Lemma prev_day_lt (d : date) :
  valid_date d = true -> date_lt (prev_day d) d.
Proof.
  intros Hv. apply valid_date_bounds in Hv.
  pose proof (days_in_month_bounds (year d) (month d - 1)).
  unfold prev_day, date_lt.
  destruct (N.ltb_spec 1 (dom d)); simpl; [lia|].
  destruct (N.ltb_spec 1 (month d)); simpl; lia.
Qed.

Lemma next_day_gt (d : date) : date_lt d (next_day d).
Proof.
  unfold next_day, date_lt.
  destruct (N.ltb_spec (dom d) (days_in_month (year d) (month d))); simpl; [lia|].
  destruct (N.ltb_spec (month d) 12); simpl; lia.
Qed.

Lemma next_day_valid (d : date) :
  valid_date d = true -> (year d < 9999 \/ month d < 12 \/ dom d < 31)%N ->
  valid_date (next_day d) = true.
Proof.
  intros Hv Hmax. apply valid_date_bounds in Hv.
  unfold next_day, valid_date.
  destruct (N.ltb_spec (dom d) (days_in_month (year d) (month d))); simpl.
  - rewrite !andb_true_iff, !N.leb_le. lia.
  - destruct (N.ltb_spec (month d) 12); simpl.
    + pose proof (days_in_month_bounds (year d) (month d + 1)).
      rewrite !andb_true_iff, !N.leb_le. lia.
    + assert (month d = 12%N) by lia.
      assert (days_in_month (year d) (month d) = 31%N).
      { rewrite H1. unfold days_in_month. reflexivity. }
      rewrite !andb_true_iff, !N.leb_le.
      change (days_in_month (year d + 1) 1) with 31%N. lia.
Qed.

Lemma split0_blank (a b : string) :
  (forall c, In c (list_ascii_of_string a) -> c <> " "%char) ->
  split0 (a ++ String " " b) = a.
Proof.
  induction a as [|c a IH]; simpl; intros H; [reflexivity|].
  destruct (Ascii.eqb_spec c " "%char) as [E|E].
  - exfalso. apply (H c); auto.
  - f_equal. apply IH. intros x Hx. apply H. now right.
Qed.

Lemma digit_not_blank (n : N) : digit n <> " "%char.
Proof.
  unfold digit. intros H.
  assert (H10 : (10 <> 0)%N) by discriminate.
  pose proof (N.mod_upper_bound n 10 H10) as Hn.
  remember (n mod 10)%N as r.
  apply (f_equal N_of_ascii) in H.
  rewrite N_ascii_embedding in H by lia.
  change (N_of_ascii " "%char) with 32%N in H. lia.
Qed.

Lemma list_ascii_app (a b : string) :
  list_ascii_of_string (a ++ b)
  = (list_ascii_of_string a ++ list_ascii_of_string b)%list.
Proof. induction a as [|c a IH]; simpl; [reflexivity|]. now rewrite IH. Qed.

(** The day of a time stamp [YYYY-MM-DD hh:mm:ss.fff] is its date. *)
Lemma day_of_timestamp {T} (u : string) (d : date) (time : string) (n : T) :
  day (Log.mk u (isoformat d ++ String " " time) n) = isoformat d.
Proof.
  unfold day. cbn [Log.WHEN_CREATED]. apply split0_blank.
  intros c Hc. unfold isoformat in Hc.
  rewrite !list_ascii_app, !in_app_iff in Hc. simpl in Hc.
  repeat match goal with
         | H : _ \/ _ |- _ => destruct H
         end;
    subst; try discriminate; try contradiction.
  all: apply digit_not_blank.
Qed.

(* ================================================================== *)
(** * The date filter, claim by claim *)

(** C3 -- the date filter.  On a frame without a repeated label the two
    selections succeed and keep, in order, exactly the rows whose day lies
    between the bounds in the order of strings.  A row dated the start or the
    end of a window is kept; for bounds that are dates in [YYYY-MM-DD] form,
    a row dated the day before the start or the day after the end is not. *)
Theorem date_filter_window (csvLogFileContent : frame (Log.row Z))
    (startDate endDate : string) :
  NoDup (labels csvLogFileContent) ->
  exists trimmed,
    trim startDate endDate csvLogFileContent = inr trimmed /\
    trimmed = filter (fun ir => str_le startDate (day (snd ir))
                                && str_le (day (snd ir)) endDate)
                     csvLogFileContent /\
    (str_le startDate endDate = true ->
     forall ir, In ir csvLogFileContent ->
                day (snd ir) = startDate \/ day (snd ir) = endDate ->
                In ir trimmed) /\
    (forall s e, valid_date s = true -> valid_date (next_day e) = true ->
                 startDate = isoformat s -> endDate = isoformat e ->
     forall ir, In ir csvLogFileContent ->
                day (snd ir) = isoformat (prev_day s)
                \/ day (snd ir) = isoformat (next_day e) ->
                ~ In ir trimmed).
Proof.
  intros Hnd. eexists. split; [apply (trim_filter _ _ _ Hnd)|].
  split; [reflexivity|]. split.
  - intros Hse ir Hin Hday. apply filter_In. split; [exact Hin|].
    unfold in_window, str_ge.
    destruct Hday as [-> | ->]; fold (str_le startDate startDate);
      fold (str_le startDate endDate); fold (str_le endDate endDate);
      rewrite ?str_le_refl, ?Hse; reflexivity.
  - intros s e Hs He -> -> ir Hin Hday Hkept.
    apply filter_In in Hkept. destruct Hkept as [_ Hw].
    unfold in_window, str_ge in Hw. apply andb_true_iff in Hw.
    destruct Hw as [Hge Hle]. destruct Hday as [E|E]; rewrite E in *.
    + pose proof (isoformat_lt _ _ Hs (prev_day_lt s Hs)) as Hlt.
      apply str_lt_not_ge in Hlt. unfold str_le in Hlt. congruence.
    + assert (Hlt : String.ltb (isoformat e) (isoformat (next_day e)) = true).
      { apply isoformat_lt; [exact He|]. apply next_day_gt. }
      apply str_lt_not_ge in Hlt. congruence.
Qed.

Lemma date_filter_window_witness :
  NoDup (labels scenario_trimmed) /\
  exists trimmed,
    trim "2019-09-02" "2019-09-02" scenario_trimmed = inr trimmed /\
    trimmed = [(1%nat, Log.mk "u1" "2019-09-02 00:00:00.000" 3)].
Proof.
  assert (Hnd : NoDup (labels scenario_trimmed)).
  { simpl. repeat constructor; simpl; intuition discriminate. }
  split; [exact Hnd|].
  destruct (date_filter_window scenario_trimmed "2019-09-02" "2019-09-02" Hnd)
    as [trimmed [Ht [Hf _]]].
  exists trimmed. split; [exact Ht|]. rewrite Hf. reflexivity.
Defined.

(* ================================================================== *)
(** * The paths and the clean-up *)

Lemma before_last_some (c : ascii) (s p : string) :
  before_last c s = Some p ->
  exists name, s = p ++ String c name /\ ~ has_char c name.
Proof.
  revert p. induction s as [|a t IH]; simpl; intros p H; [discriminate|].
  destruct (before_last c t) as [q|] eqn:E.
  - injection H as <-. destruct (IH q eq_refl) as [name [-> Hn]].
    now exists name.
  - destruct (Ascii.eqb_spec a c) as [->|_]; [|discriminate].
    injection H as <-. exists t. split; [reflexivity|].
    clear IH. revert E. unfold has_char.
    induction t as [|b t IHt]; simpl; [tauto|].
    destruct (before_last c t); [discriminate|].
    destruct (Ascii.eqb_spec b c); [discriminate|].
    intros _ [Hb|Hin]; [congruence | now apply IHt].
Qed.

Lemma before_last_none (c : ascii) (s : string) :
  before_last c s = None <-> ~ has_char c s.
Proof.
  unfold has_char. induction s as [|a t IH]; simpl; [tauto|].
  destruct (before_last c t) as [q|].
  - split; [discriminate|]. intros H. exfalso. apply H. right.
    destruct (in_dec ascii_dec c (list_ascii_of_string t)) as [Hin|Hn];
      [exact Hin|]. apply IH in Hn. discriminate.
  - destruct (Ascii.eqb_spec a c) as [->|Hne].
    + split; [discriminate|]. intros H. exfalso. apply H. now left.
    + split; [|reflexivity]. intros _ [H|H]; [congruence|].
      now apply (proj1 IH).
Qed.

Lemma append_inj_l (a x y : string) : a ++ x = a ++ y -> x = y.
Proof.
  induction a as [|c a IH]; simpl; intros H; [exact H|].
  injection H as H. now apply IH.
Qed.

Lemma append_assoc (a b c : string) : (a ++ b) ++ c = a ++ (b ++ c).
Proof. induction a as [|x a IH]; simpl; [reflexivity|]. now rewrite IH. Qed.

Lemma starts_with_app (a x y : string) :
  starts_with (a ++ x) (a ++ y) = starts_with x y.
Proof.
  induction a as [|c a IH]; simpl; [reflexivity|].
  now rewrite Ascii.eqb_refl.
Qed.

Lemma eqb_app (a x y : string) :
  String.eqb (a ++ x) (a ++ y) = String.eqb x y.
Proof.
  induction a as [|c a IH]; simpl; [reflexivity|].
  now rewrite Ascii.eqb_refl.
Qed.

(** Whether a path next to the zip file lies in the folder the logs are
    extracted to is decided by the names alone. *)
Lemma under_extract (zipLogFiles name : string) :
  under (Paths.zipLogFilesExtract zipLogFiles)
        (Paths.folder zipLogFiles ++ name)
  = under "\logFiles" name.
Proof.
  unfold under, Paths.zipLogFilesExtract.
  now rewrite append_assoc, eqb_app, starts_with_app.
Qed.

(** X1 -- the folder of the zip file.  [rsplit] cuts the path at its last
    backslash: the folder and the name of the zip file, joined by a
    backslash, give the path back, and the name has no backslash.  A path
    without a backslash is its own folder. *)
Theorem folder_round_trip (zipLogFiles : string) :
  (has_char "\" zipLogFiles ->
   exists name, zipLogFiles = Paths.folder zipLogFiles ++ "\" ++ name
                /\ ~ has_char "\" name) /\
  (~ has_char "\" zipLogFiles -> Paths.folder zipLogFiles = zipLogFiles).
Proof.
  unfold Paths.folder, rsplit0. split; intros H.
  - destruct (before_last "\" zipLogFiles) as [p|] eqn:E.
    + destruct (before_last_some _ _ _ E) as [name [Hs Hn]].
      exists name. split; [exact Hs | exact Hn].
    + apply before_last_none in E. contradiction.
  - apply before_last_none in H. now rewrite H.
Qed.

Lemma folder_round_trip_witness :
  has_char "\" "C:\work\logs.zip" /\
  exists name, "C:\work\logs.zip" = Paths.folder "C:\work\logs.zip" ++ "\" ++ name
               /\ ~ has_char "\" name.
Proof.
  assert (H : has_char "\" "C:\work\logs.zip").
  { unfold has_char. simpl. tauto. }
  split; [exact H|].
  apply (proj1 (folder_round_trip "C:\work\logs.zip") H).
Defined.

(** X2 -- the derived paths.  For every zip path the folder of the extracted
    logs, its [jobs] folder, the merged file, the CSV file and the report are
    five different paths; the [jobs] folder lies in the extracted folder, the
    merged file, the CSV file and the report do not. *)
Theorem paths_are_distinct (zipLogFiles : string) :
  NoDup [ Paths.zipLogFilesExtract zipLogFiles; Paths.subFolder zipLogFiles;
          Paths.mergedLogFile zipLogFiles; Paths.csvLogFile zipLogFiles;
          Paths.finalReport zipLogFiles ] /\
  under (Paths.zipLogFilesExtract zipLogFiles) (Paths.subFolder zipLogFiles)
  = true /\
  under (Paths.zipLogFilesExtract zipLogFiles) (Paths.mergedLogFile zipLogFiles)
  = false /\
  under (Paths.zipLogFilesExtract zipLogFiles) (Paths.csvLogFile zipLogFiles)
  = false /\
  under (Paths.zipLogFilesExtract zipLogFiles) (Paths.finalReport zipLogFiles)
  = false.
Proof.
  split.
  - unfold Paths.subFolder, Paths.zipLogFilesExtract, Paths.mergedLogFile,
      Paths.csvLogFile, Paths.finalReport.
    rewrite append_assoc.
    repeat constructor; simpl; intros H;
      repeat match goal with
             | H : _ \/ _ |- _ => destruct H
             | H : False |- _ => destruct H
             | H : _ ++ _ = _ ++ _ |- _ => apply append_inj_l in H; discriminate H
             end.
  - unfold Paths.subFolder at 1, Paths.mergedLogFile, Paths.csvLogFile,
      Paths.finalReport.
    unfold Paths.zipLogFilesExtract at 2. rewrite append_assoc.
    rewrite !under_extract. repeat split; reflexivity.
Qed.

(** The report is none of the three things the clean-up removes. *)
Lemma report_is_no_target (zipLogFiles : string) :
  Paths.finalReport zipLogFiles <> Paths.mergedLogFile zipLogFiles /\
  Paths.finalReport zipLogFiles <> Paths.csvLogFile zipLogFiles /\
  under (Paths.zipLogFilesExtract zipLogFiles) (Paths.finalReport zipLogFiles)
  = false.
Proof.
  unfold Paths.finalReport, Paths.mergedLogFile, Paths.csvLogFile.
  repeat split.
  - intros H. apply append_inj_l in H. discriminate H.
  - intros H. apply append_inj_l in H. discriminate H.
  - now rewrite under_extract.
Qed.

Lemma filter_filter {A} (f g : A -> bool) (l : list A) :
  filter f (filter g l) = filter (fun x => g x && f x) l.
Proof.
  induction l as [|a l IH]; simpl; [reflexivity|].
  destruct (g a); simpl; [destruct (f a)|]; now rewrite IH.
Qed.

Section CleanUpFacts.

Variable refuses : disk -> string -> option OSError.
Variable deleted_before : disk -> string -> string -> bool.

(** The clean-up ends normally, and what it took away is told by a test
    that only the three targets pass. *)
Lemma step11_files (zipLogFiles : string) (st : os_state) :
  exists gone : string -> bool,
    snd (step11 refuses deleted_before zipLogFiles st) = inr tt /\
    files (fst (step11 refuses deleted_before zipLogFiles st))
    = filter (fun p => negb (gone p)) (files st) /\
    forall p, gone p = true ->
              p = Paths.mergedLogFile zipLogFiles
              \/ p = Paths.csvLogFile zipLogFiles
              \/ under (Paths.zipLogFilesExtract zipLogFiles) p = true.
Proof.
  set (m := Paths.mergedLogFile zipLogFiles).
  set (c := Paths.csvLogFile zipLogFiles).
  set (x := Paths.zipLogFilesExtract zipLogFiles).
  unfold step11, os_bind, try_except, os_print, os_remove, rmtree.
  fold m c x. cbn [files printed].
  destruct (refuses (files st) m) as [e|]; cbn [files printed fst snd].
  { exists (fun _ => false). split; [reflexivity|]. split; [|discriminate].
    symmetry. now apply filter_all. }
  destruct (refuses _ c) as [e|] eqn:Ec; cbn [files printed fst snd].
  { exists (fun p => String.eqb p m). split; [reflexivity|].
    split; [reflexivity|]. intros p H. left. now apply String.eqb_eq. }
  destruct (refuses _ x) as [e|]; cbn [files printed fst snd].
  - exists (fun p => String.eqb p m || String.eqb p c
                     || (under x p
                         && deleted_before
                              (filter (fun p => negb (String.eqb p c))
                                 (filter (fun p => negb (String.eqb p m))
                                    (files st))) x p)).
    split; [reflexivity|]. split.
    + rewrite !filter_filter. apply filter_ext. intros p.
      rewrite !negb_orb. now rewrite andb_assoc.
    + intros p H. rewrite !orb_true_iff, andb_true_iff, !String.eqb_eq in H.
      tauto.
  - exists (fun p => String.eqb p m || String.eqb p c || under x p).
    split; [reflexivity|]. split.
    + rewrite !filter_filter. apply filter_ext. intros p.
      rewrite !negb_orb. now rewrite andb_assoc.
    + intros p H. rewrite !orb_true_iff, !String.eqb_eq in H. tauto.
Qed.

(** X3 -- the clean-up is safe.  Whatever the operating system refuses, the
    clean-up does not raise, creates nothing, and takes away nothing but the
    merged file, the CSV file and what lies in the folder of the extracted
    logs; the report stays. *)
Theorem cleanup_removes_targets_only (zipLogFiles : string) (st : os_state) :
  let after := step11 refuses deleted_before zipLogFiles st in
  snd after = inr tt /\
  (forall p, In p (files (fst after)) -> In p (files st)) /\
  (forall p, In p (files st) -> ~ In p (files (fst after)) ->
             p = Paths.mergedLogFile zipLogFiles
             \/ p = Paths.csvLogFile zipLogFiles
             \/ under (Paths.zipLogFilesExtract zipLogFiles) p = true) /\
  (In (Paths.finalReport zipLogFiles) (files st) ->
   In (Paths.finalReport zipLogFiles) (files (fst after))).
Proof.
  cbv zeta. destruct (step11_files zipLogFiles st) as [gone [Hok [Hf Hg]]].
  rewrite Hf. split; [exact Hok|]. split; [|split].
  - intros p Hp. apply filter_In in Hp. tauto.
  - intros p Hin Hout. apply Hg.
    destruct (gone p) eqn:G; [reflexivity|].
    exfalso. apply Hout. apply filter_In. now rewrite G.
  - intros Hin. apply filter_In. split; [exact Hin|].
    destruct (gone (Paths.finalReport zipLogFiles)) eqn:G; [|reflexivity].
    destruct (report_is_no_target zipLogFiles) as [H1 [H2 H3]].
    destruct (Hg _ G) as [H|[H|H]]; congruence.
Qed.

(** X4 -- the clean-up when nothing is refused.  It removes the merged file,
    the CSV file and everything in the folder of the extracted logs, files
    that were there before the run included, leaves every other path, and
    prints its two lines only. *)
Theorem cleanup_without_refusal (zipLogFiles : string) (st : os_state) :
  (forall d p, refuses d p = None) ->
  step11 refuses deleted_before zipLogFiles st
  = (OS (filter (fun p =>
                   negb (String.eqb p (Paths.mergedLogFile zipLogFiles))
                   && negb (String.eqb p (Paths.csvLogFile zipLogFiles))
                   && negb (under (Paths.zipLogFilesExtract zipLogFiles) p))
                (files st))
        (printed st ++ [ nl ++ "Deleting intermediate files (including logs)";
                         nl ++ "Processing complete" ]),
     inr tt).
Proof.
  intros Hno.
  unfold step11, os_bind, try_except, os_print, os_remove, rmtree.
  cbn [files printed]. rewrite !Hno. cbn [files printed fst snd].
  rewrite !filter_filter, <- app_assoc. do 2 f_equal.
  apply filter_ext. intros p. apply andb_assoc.
Qed.

End CleanUpFacts.

Lemma cleanup_without_refusal_witness :
  (forall (d : disk) (p : string), (fun _ _ => None) d p = @None OSError) /\
  files (fst (step11 (fun _ _ => None) (fun _ _ _ => false) "C:\work\logs.zip"
                     (OS disk_after_step10 [])))
  = [ "C:\work\logs.zip"; "C:\work\lookup.csv"; "C:\work\finalReport.csv" ].
Proof.
  split; [reflexivity|].
  rewrite (cleanup_without_refusal (fun _ _ => None) (fun _ _ _ => false)
             "C:\work\logs.zip" (OS disk_after_step10 [])
             (fun _ _ => eq_refl)).
  reflexivity.
Defined.

(* ================================================================== *)
(** * The merged file *)

Lemma split_lines_cons (s : string) : exists l ls, split_lines s = l :: ls.
Proof.
  induction s as [|c s [l [ls IH]]]; simpl; [now eexists _, _|].
  destruct (Ascii.eqb c "010"%char); [now eexists _, _|].
  rewrite IH. now eexists _, _.
Qed.

Lemma split_lines_app (a b : string) :
  split_lines (a ++ String "010"%char b)
  = (split_lines a ++ split_lines b)%list.
Proof.
  induction a as [|c a IH]; [reflexivity|].
  simpl. rewrite IH.
  destruct (Ascii.eqb c "010"%char); [reflexivity|].
  destruct (split_lines_cons a) as [l [ls ->]]. reflexivity.
Qed.

Lemma records_app (blank : string -> bool) (a b : string) :
  records blank (a ++ String "010"%char b)
  = (records blank a ++ records blank b)%list.
Proof. unfold records. now rewrite split_lines_app, filter_app. Qed.

Lemma records_line_end (blank : string -> bool) (b : string) :
  blank "" = true ->
  records blank (String "010"%char b) = records blank b.
Proof. intros Hb. unfold records. simpl. now rewrite Hb. Qed.

Lemma merged_text_cons (c : string) (cs : list string) :
  merged_text (c :: cs)
  = c ++ String "010"%char (String "010"%char (merged_text cs)).
Proof. reflexivity. Qed.

(** X5 -- the records of the merged file.  Whatever lines count as blank,
    the empty line among them, the records [pd.read_table] finds in the
    merged file are the records of the daily files one after the other, in
    the order of [glob]; the two line ends written after each file keep its
    last line apart from the header of the next. *)
Theorem merged_records (blank : string -> bool) (contents : list string) :
  blank "" = true ->
  records blank (merged_text contents) = flat_map (records blank) contents.
Proof.
  intros Hb. induction contents as [|c cs IH].
  - unfold records. simpl. now rewrite Hb.
  - rewrite merged_text_cons, records_app, !records_line_end by exact Hb.
    cbn [flat_map]. now rewrite IH.
Qed.

Lemma merged_records_witness :
  String.eqb "" "" = true /\
  records (String.eqb "")
          (merged_text [ "ID" ++ nl ++ "1" ++ nl ++ "2"; "ID" ++ nl ++ "3" ++ nl ])
  = [ "ID"; "1"; "2"; "ID"; "3" ].
Proof.
  split; [reflexivity|].
  rewrite (merged_records (String.eqb "")
             [ "ID" ++ nl ++ "1" ++ nl ++ "2"; "ID" ++ nl ++ "3" ++ nl ]
             eq_refl).
  reflexivity.
Defined.

(* ================================================================== *)
(** * How a run ends, and what it prints *)

(** X9 -- the range of dates printed.  The two time stamps printed as the
    range of the log are those of the first and of the last row that step 5
    keeps, in the order of the file, whichever rows are the oldest and the
    most recent. *)
Theorem printed_range_is_first_and_last (csvLogFile : list (Log.row cell))
    (csvLookUpTable : list LookUp.row) (startDate endDate : string)
    (i : nat) (r : Log.row Z) (df : frame (Log.row Z)) :
  step5 (read_csv csvLogFile) = inr ((i, r) :: df) ->
  let out := stdout (fst (run csvLogFile csvLookUpTable startDate endDate)) in
  firstn 5 out = lines_before_range /\
  nth_error out 5 = Some (Log.WHEN_CREATED r) /\
  nth_error out 6 = Some (Log.WHEN_CREATED (snd (last df (i, r)))).
Proof.
  intros H. cbv zeta. rewrite run_outcome, H.
  cbn [outcome fst stdout]. repeat split.
Qed.

Lemma printed_range_is_first_and_last_witness :
  step5 (read_csv [r0_late; header_row; r1])
  = inr [ (0%nat, as_int object r0_late); (2%nat, as_int object r1) ] /\
  nth_error (stdout (fst (run [r0_late; header_row; r1] [alice]
                              "2019-09-01" "2019-09-02"))) 5
  = Some "2019-12-24 00:00:00.000" /\
  nth_error (stdout (fst (run [r0_late; header_row; r1] [alice]
                              "2019-09-01" "2019-09-02"))) 6
  = Some "2019-09-01 00:00:00.000".
Proof.
  assert (H : step5 (read_csv [r0_late; header_row; r1])
              = inr [ (0%nat, as_int object r0_late); (2%nat, as_int object r1) ])
    by reflexivity.
  split; [exact H|].
  destruct (printed_range_is_first_and_last [r0_late; header_row; r1] [alice]
              "2019-09-01" "2019-09-02" _ _ _ H) as [_ [H5 H6]].
  split; [exact H5 | exact H6].
Defined.

Lemma matches_at_most_one {R} (key : R -> string) (k : string) (right : list R) :
  NoDup (map key right) -> (List.length (matches key k right) <= 1)%nat.
Proof.
  induction right as [|r right IH]; simpl; intros Hnd; [lia|].
  inversion Hnd; subst.
  destruct (String.eqb_spec (key r) k) as [E|E]; [|auto].
  simpl. rewrite (matches_none key k right); [simpl; lia|].
  now rewrite <- E.
Qed.

(* ================================================================== *)
(** * More on the aggregates *)

Lemma perm_short {A} (l l' : list A) :
  Permutation l l' -> (List.length l <= 1)%nat -> l = l'.
Proof.
  intros Hp Hl. destruct l as [|a [|b l]]; simpl in Hl; [| |lia].
  - now apply Permutation_nil in Hp.
  - now apply Permutation_length_1_inv in Hp.
Qed.

Lemma merge_perm_right {L R O} (keyL : L -> string) (keyR : R -> string)
    (join : L -> R -> O) (left : list L) (right right' : list R) :
  NoDup (map keyR right) -> Permutation right right' ->
  merge keyL keyR join left right = merge keyL keyR join left right'.
Proof.
  intros Hnd Hp. unfold merge. apply flat_map_ext. intros l. f_equal.
  apply perm_short.
  - unfold matches. now apply filter_perm.
  - now apply matches_at_most_one.
Qed.

(** X12 -- the order of the job counts.  [value_counts] orders its rows by
    count; that order does not reach the report: with the job counts in any
    other order the two merges give the same table, in the key order of the
    totals. *)
Theorem job_count_order_is_irrelevant (trimmed : frame (Log.row Z))
    (dfJobSubmissions : keyed Z) :
  Permutation (value_counts trimmed) dfJobSubmissions ->
  merge_series (groupby_sum trimmed) dfJobSubmissions (groupby_mean trimmed)
  = dfFinalReport trimmed /\
  map Final.USER_ID (dfFinalReport trimmed) = map fst (groupby_sum trimmed).
Proof.
  intros Hp. split.
  - unfold dfFinalReport, merge_series. cbv zeta. f_equal.
    symmetry. apply merge_perm_right; [|exact Hp].
    apply value_counts_keys_NoDup.
  - rewrite report_user_ids. unfold groupby_sum. rewrite map_map. simpl.
    symmetry. apply map_id.
Qed.

Lemma job_count_order_is_irrelevant_witness :
  Permutation (value_counts scenario_trimmed) [("u2", 1); ("u1", 2)] /\
  merge_series (groupby_sum scenario_trimmed) [("u2", 1); ("u1", 2)]
               (groupby_mean scenario_trimmed)
  = dfFinalReport scenario_trimmed.
Proof.
  assert (Hp : Permutation (value_counts scenario_trimmed)
                           [("u2", 1); ("u1", 2)]) by apply perm_swap.
  split; [exact Hp|].
  apply (job_count_order_is_irrelevant scenario_trimmed _ Hp).
Defined.

(* ================================================================== *)
(** * More on step 5 *)

Lemma forallb_false {A} (p : A -> bool) (l : list A) :
  forallb p l = false <-> exists x, In x l /\ p x = false.
Proof.
  induction l as [|a l IH]; simpl.
  - split; [discriminate | intros [x [[] _]]].
  - destruct (p a) eqn:E; simpl.
    + rewrite IH. split; intros [x [Hx Hp]]; exists x; [tauto|].
      destruct Hx as [->|Hx]; [congruence | tauto].
    + split; [|reflexivity]. intros _. exists a. auto.
Qed.

Lemma Forall2_map_r {A B} (P : A -> B -> Prop) (f : A -> B) (l : list A) :
  (forall x, In x l -> P x (f x)) -> Forall2 P l (map f l).
Proof.
  induction l as [|a l IH]; simpl; intros H; constructor; auto.
Qed.

(* ================================================================== *)
(** * More on the date filter *)

Lemma in_window_wider {T} (s e s' e' : string) (r : Log.row T) :
  str_le s' s = true -> str_le e e' = true ->
  in_window s e r = true -> in_window s' e' r = true.
Proof.
  intros Hs He. unfold in_window.
  change (str_ge (day r) s) with (str_le s (day r)).
  change (str_ge (day r) s') with (str_le s' (day r)).
  rewrite !andb_true_iff. intros [H1 H2]. split.
  - eapply str_le_trans; eauto.
  - eapply str_le_trans; eauto.
Qed.

Lemma filter_length_mono {A} (p q : A -> bool) (l : list A) :
  (forall x, p x = true -> q x = true) ->
  (List.length (filter p l) <= List.length (filter q l))%nat.
Proof.
  intros H. induction l as [|a l IH]; simpl; [lia|].
  destruct (p a) eqn:E; [rewrite (H a E); simpl; lia|].
  destruct (q a); simpl; lia.
Qed.

(** X14 -- a narrower window.  When one window lies within another, the
    rows the filter keeps for the narrower one are those it would keep out of
    the rows kept for the wider one; so no user has more jobs in the narrower
    window. *)
Theorem narrower_window (csvLogFileContent : frame (Log.row Z))
    (startDate endDate startDate' endDate' : string) :
  NoDup (labels csvLogFileContent) ->
  str_le startDate' startDate = true -> str_le endDate endDate' = true ->
  exists narrow wide,
    trim startDate endDate csvLogFileContent = inr narrow /\
    trim startDate' endDate' csvLogFileContent = inr wide /\
    trim startDate endDate wide = inr narrow /\
    forall u, count (group u narrow) <= count (group u wide).
Proof.
  intros Hnd Hs He. rewrite !(trim_filter _ _ _ Hnd).
  do 2 eexists. split; [reflexivity|]. split; [reflexivity|].
  set (wide := filter (fun ir => in_window startDate' endDate' (snd ir))
                      csvLogFileContent).
  assert (Hn : filter (fun ir => in_window startDate endDate (snd ir)) wide
               = filter (fun ir => in_window startDate endDate (snd ir))
                        csvLogFileContent).
  { unfold wide. rewrite filter_filter. apply filter_ext. intros ir.
    destruct (in_window startDate endDate (snd ir)) eqn:E.
    - now rewrite (in_window_wider _ _ _ _ _ Hs He E).
    - apply andb_false_r. }
  split.
  - rewrite (trim_filter _ _ wide (labels_filter_NoDup _ _ Hnd)).
    now rewrite Hn.
  - intros u. rewrite <- Hn. unfold count, group.
    rewrite !length_map, values_filter, filter_filter.
    apply Nat2Z.inj_le, filter_length_mono.
    intros x Hx. apply andb_true_iff in Hx. tauto.
Qed.

Lemma narrower_window_witness :
  NoDup (labels scenario_trimmed) /\
  str_le "2019-09-01" "2019-09-02" = true /\
  str_le "2019-09-02" "2019-09-30" = true /\
  exists narrow wide,
    trim "2019-09-02" "2019-09-02" scenario_trimmed = inr narrow /\
    trim "2019-09-01" "2019-09-30" scenario_trimmed = inr wide /\
    trim "2019-09-02" "2019-09-02" wide = inr narrow.
Proof.
  assert (Hnd : NoDup (labels scenario_trimmed)).
  { simpl. repeat constructor; simpl; intuition discriminate. }
  split; [exact Hnd|]. split; [reflexivity|]. split; [reflexivity|].
  destruct (narrower_window scenario_trimmed "2019-09-02" "2019-09-02"
              "2019-09-01" "2019-09-30" Hnd eq_refl eq_refl)
    as [narrow [wide [H1 [H2 [H3 _]]]]].
  now exists narrow, wide.
Defined.

Lemma split0_no_blank (s : string) : ~ has_char " " (split0 s).
Proof.
  unfold has_char. induction s as [|c s IH]; simpl; [tauto|].
  destruct (Ascii.eqb_spec c " "%char) as [E|E]; simpl; [tauto|].
  intros [H|H]; [congruence | tauto].
Qed.

(* ================================================================== *)
(** * The leading zeros *)

Lemma date_lt_trichotomy (a b : date) : date_lt a b \/ a = b \/ date_lt b a.
Proof.
  destruct a as [y m d], b as [y' m' d']. unfold date_lt. simpl.
  destruct (N.lt_trichotomy y y') as [H|[->|H]]; [tauto| |tauto].
  destruct (N.lt_trichotomy m m') as [H|[->|H]]; [tauto| |tauto].
  destruct (N.lt_trichotomy d d') as [H|[->|H]]; tauto.
Qed.

Lemma ltb_irrefl (s : string) : String.ltb s s = false.
Proof. unfold String.ltb. now rewrite string_compare_refl. Qed.

Lemma ltb_asym (a b : string) :
  String.ltb a b = true -> String.ltb b a = false.
Proof.
  unfold String.ltb. rewrite (String.compare_antisym b a).
  destruct (String.compare a b); simpl; congruence.
Qed.

(** X15 -- the leading zeros.  For two days of the calendar written
    [YYYY-MM-DD], with the leading zeros the script asks for, the comparison
    of strings the filter makes is the comparison of the days: one string is
    below the other exactly when its day is earlier. *)
Theorem string_order_is_calendar_order (a b : date) :
  valid_date a = true -> valid_date b = true ->
  (String.ltb (isoformat a) (isoformat b) = true <-> date_lt a b) /\
  (str_le (isoformat a) (isoformat b) = true <-> date_lt a b \/ a = b).
Proof.
  intros Ha Hb.
  assert (Hlt : String.ltb (isoformat a) (isoformat b) = true <-> date_lt a b).
  { split; [|apply isoformat_lt; exact Hb].
    intros H. destruct (date_lt_trichotomy a b) as [L|[E|G]]; [exact L| |].
    - subst b. rewrite ltb_irrefl in H. discriminate.
    - apply (isoformat_lt b a Ha) in G. apply ltb_asym in G. congruence. }
  split; [exact Hlt|].
  split.
  - intros H. destruct (date_lt_trichotomy a b) as [L|[E|G]]; [tauto|tauto|].
    apply (isoformat_lt b a Ha) in G. apply str_lt_not_ge in G. congruence.
  - intros [L| ->]; [|apply str_le_refl].
    apply Hlt in L. apply str_le_lt_cases. right.
    unfold String.ltb in L. now destruct (String.compare _ _).
Qed.

Lemma string_order_is_calendar_order_witness :
  valid_date (Date 2019 9 30) = true /\ valid_date (Date 2019 10 1) = true /\
  String.ltb "2019-09-30" "2019-10-01" = true.
Proof.
  split; [reflexivity|]. split; [reflexivity|].
  apply (proj1 (string_order_is_calendar_order (Date 2019 9 30) (Date 2019 10 1)
                  eq_refl eq_refl)).
  unfold date_lt. simpl. lia.
Defined.

(** Without the leading zero September comes after October. *)
Example month_without_leading_zero :
  String.ltb "2019-10-01" "2019-9-30" = true.
Proof. reflexivity. Qed.

(* ================================================================== *)
(** * Typed columns: the order of the keys *)

Lemma key_eqb_spec (a b : Typed.key) : reflect (a = b) (Typed.key_eqb a b).
Proof.
  destruct a as [n|s], b as [m|t]; simpl; try (constructor; discriminate).
  - destruct (Z.eqb_spec n m); constructor; congruence.
  - destruct (String.eqb_spec s t); constructor; congruence.
Qed.

Lemma key_eqb_refl (a : Typed.key) : Typed.key_eqb a a = true.
Proof. now destruct (key_eqb_spec a a). Qed.

Lemma key_eqb_eq (a b : Typed.key) : Typed.key_eqb a b = true <-> a = b.
Proof. destruct (key_eqb_spec a b); split; congruence. Qed.

Lemma key_eqb_neq (a b : Typed.key) : Typed.key_eqb a b = false <-> a <> b.
Proof. destruct (key_eqb_spec a b); split; congruence. Qed.

Lemma key_dec (a b : Typed.key) : {a = b} + {a <> b}.
Proof. destruct (key_eqb_spec a b); auto. Qed.

Lemma key_le_refl (a : Typed.key) : Typed.key_le a a.
Proof.
  destruct a; unfold Typed.key_le; simpl;
    [apply Z.leb_refl | apply str_le_refl].
Qed.

Lemma key_le_trans (a b c : Typed.key) :
  Typed.key_le a b -> Typed.key_le b c -> Typed.key_le a c.
Proof.
  unfold Typed.key_le.
  destruct a, b, c; simpl; try congruence; try reflexivity.
  - rewrite !Z.leb_le. lia.
  - apply str_le_trans.
Qed.

Lemma key_le_antisym (a b : Typed.key) :
  Typed.key_le a b -> Typed.key_le b a -> a = b.
Proof.
  unfold Typed.key_le.
  destruct a, b; simpl; try congruence.
  - rewrite !Z.leb_le. intros. f_equal. lia.
  - intros H1 H2. f_equal. now apply str_le_antisym.
Qed.

Lemma key_le_total (a b : Typed.key) : Typed.key_le a b \/ Typed.key_le b a.
Proof.
  unfold Typed.key_le.
  destruct a, b; simpl; auto.
  - rewrite !Z.leb_le. lia.
  - apply str_le_total.
Qed.

(* ================================================================== *)
(** * Typed columns: the date filter *)

Lemma typed_trim_filter (startDate endDate : string)
    (df : frame (Typed.Log.row Z)) :
  NoDup (labels df) ->
  Typed.trim startDate endDate df
  = inr (filter (fun ir => Typed.in_window startDate endDate (snd ir)) df).
Proof.
  intros Hnd. unfold Typed.trim.
  rewrite (loc_self (fun r => Typed.ge_text (Typed.day r) startDate) df Hnd).
  rewrite (loc_part (fun r => Typed.le_text (Typed.day r) endDate) df _ Hnd).
  - f_equal. unfold Typed.in_window.
    induction df as [|ir df IH]; simpl; [reflexivity|].
    inversion Hnd; subst.
    destruct (Typed.ge_text (Typed.day (snd ir)) startDate); simpl.
    + destruct (Typed.le_text (Typed.day (snd ir)) endDate); simpl;
        now rewrite IH.
    + now rewrite IH.
  - apply incl_filter.
Qed.

(* ================================================================== *)
(** * Typed columns: [unique], the two sorts, and matching *)

Lemma typed_existsb_eqb_In (k : Typed.key) (seen : list Typed.key) :
  existsb (Typed.key_eqb k) seen = true <-> In k seen.
Proof.
  rewrite existsb_exists. split.
  - intros [x [Hin Heq]]. apply key_eqb_eq in Heq. now subst.
  - intros Hin. exists k. split; [exact Hin | apply key_eqb_refl].
Qed.

Lemma typed_unique_from_In (k : Typed.key) (l seen : list Typed.key) :
  In k (Typed.unique_from seen l) <-> In k l /\ ~ In k seen.
Proof.
  revert seen. induction l as [|x l IH]; intros seen; simpl; [tauto|].
  destruct (existsb (Typed.key_eqb x) seen) eqn:E.
  - apply typed_existsb_eqb_In in E. rewrite IH. split.
    + tauto.
    + intros [[->|H] Hn]; tauto.
  - assert (Hx : ~ In x seen) by (rewrite <- typed_existsb_eqb_In; congruence).
    simpl. rewrite IH. simpl. split.
    + intros [->|[H Hn]]; tauto.
    + intros [[->|H] Hn]; [tauto|].
      destruct (key_dec x k) as [->|Hne]; [tauto|]. right. tauto.
Qed.

Lemma typed_unique_from_NoDup (l seen : list Typed.key) :
  NoDup (Typed.unique_from seen l).
Proof.
  revert seen. induction l as [|x l IH]; intros seen; simpl; [constructor|].
  destruct (existsb (Typed.key_eqb x) seen); auto.
  constructor; auto. rewrite typed_unique_from_In. simpl. tauto.
Qed.

Lemma typed_unique_In (k : Typed.key) (l : list Typed.key) :
  In k (Typed.unique l) <-> In k l.
Proof. unfold Typed.unique. rewrite typed_unique_from_In. simpl. tauto. Qed.

Lemma typed_unique_NoDup (l : list Typed.key) : NoDup (Typed.unique l).
Proof. apply typed_unique_from_NoDup. Qed.

Lemma typed_insert_key_perm (k : Typed.key) (l : list Typed.key) :
  Permutation (k :: l) (Typed.insert_key k l).
Proof.
  induction l as [|h t IH]; simpl; [reflexivity|].
  destruct (Typed.key_leb k h); [reflexivity|].
  rewrite perm_swap. now constructor.
Qed.

Lemma typed_sort_keys_perm (l : list Typed.key) :
  Permutation l (Typed.sort_keys l).
Proof.
  induction l as [|k l IH]; simpl; [reflexivity|].
  rewrite <- typed_insert_key_perm. now constructor.
Qed.

Lemma typed_insert_key_sorted (k : Typed.key) (l : list Typed.key) :
  StronglySorted Typed.key_le l ->
  StronglySorted Typed.key_le (Typed.insert_key k l).
Proof.
  induction l as [|h t IH]; simpl; intros Hs.
  - repeat constructor.
  - inversion Hs; subst. destruct (Typed.key_leb k h) eqn:E.
    + constructor; [exact Hs|]. constructor; [exact E|].
      eapply Forall_impl; [|exact H2]. intros a Ha.
      eapply key_le_trans; eauto.
    + constructor; [auto|].
      assert (Hhk : Typed.key_le h k).
      { destruct (key_le_total k h) as [H|H];
          [unfold Typed.key_le in H; congruence | exact H]. }
      eapply Permutation_Forall; [apply typed_insert_key_perm|].
      constructor; assumption.
Qed.

Lemma typed_sort_keys_sorted (l : list Typed.key) :
  StronglySorted Typed.key_le (Typed.sort_keys l).
Proof.
  induction l as [|k l IH]; simpl; [constructor|].
  now apply typed_insert_key_sorted.
Qed.

Lemma typed_sorted_unique (l1 l2 : list Typed.key) :
  StronglySorted Typed.key_le l1 -> StronglySorted Typed.key_le l2 ->
  NoDup l1 -> NoDup l2 ->
  (forall k, In k l1 <-> In k l2) -> l1 = l2.
Proof.
  revert l2. induction l1 as [|a l1 IH]; intros [|b l2] S1 S2 N1 N2 Heq.
  - reflexivity.
  - exfalso. apply (proj2 (Heq b)). now left.
  - exfalso. apply (proj1 (Heq a)). now left.
  - inversion S1; subst. inversion S2; subst.
    inversion N1; subst. inversion N2; subst.
    assert (a = b).
    { apply key_le_antisym.
      - destruct (proj2 (Heq b) (or_introl eq_refl)) as [->|Hin];
          [apply key_le_refl|].
        rewrite Forall_forall in H2. now apply H2.
      - destruct (proj1 (Heq a) (or_introl eq_refl)) as [->|Hin];
          [apply key_le_refl|].
        rewrite Forall_forall in H4. now apply H4. }
    subst b. f_equal. apply IH; auto.
    intros k. split; intros Hin.
    + destruct (proj1 (Heq k) (or_intror Hin)) as [->|H]; tauto.
    + destruct (proj2 (Heq k) (or_intror Hin)) as [->|H]; tauto.
Qed.

Lemma typed_sort_keys_In (k : Typed.key) (l : list Typed.key) :
  In k (Typed.sort_keys l) <-> In k l.
Proof.
  split; apply Permutation_in;
    [symmetry|]; apply typed_sort_keys_perm.
Qed.

Lemma typed_sort_keys_NoDup (l : list Typed.key) :
  NoDup l -> NoDup (Typed.sort_keys l).
Proof. apply Permutation_NoDup, typed_sort_keys_perm. Qed.

Lemma typed_insert_by_count_perm (x : Typed.key * Z) (l : Typed.keyed Z) :
  Permutation (x :: l) (Typed.insert_by_count x l).
Proof.
  induction l as [|y l IH]; simpl; [reflexivity|].
  destruct (snd y <=? snd x); [reflexivity|].
  rewrite perm_swap. now constructor.
Qed.

Lemma typed_sort_by_count_perm (l : Typed.keyed Z) :
  Permutation l (Typed.sort_by_count l).
Proof.
  induction l as [|x l IH]; simpl; [reflexivity|].
  rewrite <- typed_insert_by_count_perm. now constructor.
Qed.

Lemma typed_matches_none {R} (key : R -> option Typed.key) (k : Typed.key)
    (right : list R) :
  ~ In (Some k) (map key right) -> Typed.matches key k right = [].
Proof.
  induction right as [|r right IH]; simpl; [reflexivity|].
  intros Hn. destruct (key r) as [k'|] eqn:Ek.
  - destruct (key_eqb_spec k' k) as [E|E]; [subst; tauto|].
    apply IH. tauto.
  - apply IH. tauto.
Qed.

Lemma typed_matches_one {R} (key : R -> option Typed.key) (k : Typed.key)
    (r : R) (right : list R) :
  NoDup (map key right) -> In r right -> key r = Some k ->
  Typed.matches key k right = [r].
Proof.
  induction right as [|x right IH]; simpl; [tauto|].
  intros Hnd [->|Hin] Hk; inversion Hnd; subst.
  - rewrite Hk, key_eqb_refl. f_equal. apply typed_matches_none.
    now rewrite <- Hk.
  - destruct (key x) as [k'|] eqn:Ex; [|now apply IH].
    destruct (key_eqb_spec k' k) as [E|E]; [|now apply IH].
    exfalso. apply H1. subst k'. rewrite <- Hk. now apply in_map.
Qed.

(* ================================================================== *)
(** * Typed columns: the merged report in closed form *)

Lemma typed_merge_map_one {K L R O} (keyL : L -> Typed.key)
    (keyR : R -> option Typed.key)
    (join : L -> R -> O) (f : K -> L) (g : K -> R)
    (keys : list K) (right : list R) :
  (forall k, In k keys -> Typed.matches keyR (keyL (f k)) right = [g k]) ->
  Typed.merge keyL keyR join (map f keys) right
  = map (fun k => join (f k) (g k)) keys.
Proof.
  unfold Typed.merge.
  induction keys as [|k keys IH]; simpl; intros H; [reflexivity|].
  rewrite (H k (or_introl eq_refl)). simpl. f_equal.
  apply IH. intros k' Hin. apply H. now right.
Qed.

Lemma typed_group_keys_In (df : frame (Typed.Log.row Z)) (k : Typed.key) :
  In k (Typed.group_keys df) <-> In k (Typed.user_ids df).
Proof.
  unfold Typed.group_keys. now rewrite typed_sort_keys_In, typed_unique_In.
Qed.

Lemma typed_group_keys_NoDup (df : frame (Typed.Log.row Z)) :
  NoDup (Typed.group_keys df).
Proof. apply typed_sort_keys_NoDup, typed_unique_NoDup. Qed.

Lemma typed_group_keys_sorted (df : frame (Typed.Log.row Z)) :
  StronglySorted Typed.key_le (Typed.group_keys df).
Proof. apply typed_sort_keys_sorted. Qed.

Lemma typed_map_some_fst {V} (f : Typed.key -> V) (keys : list Typed.key) :
  NoDup keys ->
  NoDup (map (fun a : Typed.key * V => Some (fst a))
             (map (fun k => (k, f k)) keys)).
Proof.
  intros Hnd. rewrite map_map. simpl.
  induction Hnd as [|k keys Hk Hnd IH]; simpl; constructor; [|exact IH].
  rewrite in_map_iff. intros [k' [E Hin]]. congruence.
Qed.

Lemma typed_value_counts_perm (df : frame (Typed.Log.row Z)) :
  Permutation (map (fun k => (k, count (Typed.group k df)))
                   (Typed.unique (Typed.user_ids df)))
              (Typed.value_counts df).
Proof. apply typed_sort_by_count_perm. Qed.

Lemma typed_value_counts_match (df : frame (Typed.Log.row Z)) (k : Typed.key) :
  In k (Typed.user_ids df) ->
  Typed.matches (fun j : Typed.key * Z => Some (fst j)) k (Typed.value_counts df)
  = [(k, count (Typed.group k df))].
Proof.
  intros Hin.
  apply (typed_matches_one (fun j : Typed.key * Z => Some (fst j)) k
           (k, count (Typed.group k df))).
  - eapply Permutation_NoDup.
    + apply Permutation_map, typed_value_counts_perm.
    + apply typed_map_some_fst, typed_unique_NoDup.
  - eapply Permutation_in; [apply typed_value_counts_perm|].
    apply in_map_iff. exists k. split; [reflexivity|].
    now apply typed_unique_In.
  - reflexivity.
Qed.

Lemma typed_keyed_match {V} (f : Typed.key -> V) (keys : list Typed.key)
    (k : Typed.key) :
  NoDup keys -> In k keys ->
  Typed.matches (fun a : Typed.key * V => Some (fst a)) k
                (map (fun k => (k, f k)) keys) = [(k, f k)].
Proof.
  intros Hnd Hin.
  apply (typed_matches_one (fun a : Typed.key * V => Some (fst a)) k (k, f k)).
  - now apply typed_map_some_fst.
  - apply in_map_iff. now exists k.
  - reflexivity.
Qed.

Lemma typed_dfFinalReport_rows (df : frame (Typed.Log.row Z)) :
  Typed.dfFinalReport df = map (Typed.metrics_row df) (Typed.group_keys df).
Proof.
  unfold Typed.dfFinalReport, Typed.merge_series, Typed.groupby_sum,
    Typed.groupby_mean, Typed.round_frame.
  cbv zeta.
  rewrite (typed_merge_map_one fst (fun j : Typed.key * Z => Some (fst j)) _
             (fun k => (k, Typed.wrap64 (sum (Typed.group k df))))
             (fun k => (k, count (Typed.group k df)))).
  - rewrite map_map. simpl.
    rewrite (typed_merge_map_one (fun r => fst (fst r))
               (fun a : Typed.key * option Q => Some (fst a)) _
               (fun k => (k, Typed.wrap64 (sum (Typed.group k df)),
                          count (Typed.group k df)))
               (fun k => (k, option_map Typed.round1
                               (Typed.mean (Typed.group k df))))).
    + reflexivity.
    + intros k Hin. simpl.
      apply (typed_keyed_match
               (fun k => option_map Typed.round1 (Typed.mean (Typed.group k df)))).
      * apply typed_group_keys_NoDup.
      * exact Hin.
  - intros k Hin. simpl. apply typed_value_counts_match.
    now apply typed_group_keys_In.
Qed.

(* ================================================================== *)
(** * Typed columns: the join with the lookup table *)

Ltac typed_joined_cases f D e ms :=
  unfold Typed.joined;
  destruct (Typed.matches Typed.LookUp.USER_ID (Typed.Final.USER_ID f) D)
    as [|e ms].

Lemma typed_join_flat_map (M : list Typed.Final.row)
    (D : list Typed.LookUp.row) :
  Typed.join M D = flat_map (fun f => Typed.joined f D) M.
Proof. reflexivity. Qed.

Lemma typed_joined_key (f : Typed.Final.row) (D : list Typed.LookUp.row)
    (row : Typed.Usage.row) :
  In row (Typed.joined f D) -> Typed.Usage.USER_ID row = Typed.Final.USER_ID f.
Proof.
  typed_joined_cases f D e ms.
  - intros [<-|[]]. reflexivity.
  - intros Hin. apply in_map_iff in Hin. destruct Hin as [x [<- _]].
    reflexivity.
Qed.

Lemma typed_joined_metrics (f : Typed.Final.row) (D : list Typed.LookUp.row)
    (row : Typed.Usage.row) :
  In row (Typed.joined f D) ->
  Typed.Usage.Total row = Typed.Final.Total f /\
  Typed.Usage.Jobs row = Typed.Final.Jobs f /\
  Typed.Usage.Avg row = Typed.Final.Avg f.
Proof.
  typed_joined_cases f D e ms.
  - intros [<-|[]]. simpl. auto.
  - intros Hin. apply in_map_iff in Hin. destruct Hin as [x [<- _]].
    simpl. auto.
Qed.

Lemma typed_joined_nonempty (f : Typed.Final.row) (D : list Typed.LookUp.row) :
  exists row, In row (Typed.joined f D).
Proof.
  typed_joined_cases f D e ms.
  - eexists. now left.
  - eexists. simpl. now left.
Qed.

Lemma typed_joined_length (f : Typed.Final.row) (D : list Typed.LookUp.row) :
  List.length (Typed.joined f D)
  = Nat.max 1 (List.length
                 (Typed.matches Typed.LookUp.USER_ID (Typed.Final.USER_ID f) D)).
Proof.
  typed_joined_cases f D e ms; [reflexivity|].
  rewrite length_map. simpl. now destruct (List.length ms).
Qed.

(** The rows of one user in the join come from the report rows of that
    user. *)
Lemma typed_join_rows_of (M : list Typed.Final.row)
    (D : list Typed.LookUp.row) (u : Typed.key) :
  Typed.rows_of u (Typed.join M D)
  = Typed.join (filter (fun f => Typed.key_eqb (Typed.Final.USER_ID f) u) M) D.
Proof.
  rewrite !typed_join_flat_map. unfold Typed.rows_of.
  induction M as [|f M IH]; simpl; [reflexivity|].
  rewrite filter_app, IH.
  destruct (key_eqb_spec (Typed.Final.USER_ID f) u) as [E|E]; simpl.
  - f_equal. apply filter_all. intros row Hin. apply key_eqb_eq.
    rewrite <- E. now apply (typed_joined_key f D).
  - rewrite filter_none; [reflexivity|].
    intros row Hin. apply key_eqb_neq.
    now rewrite (typed_joined_key f D row Hin).
Qed.

Lemma typed_join_In (M : list Typed.Final.row) (D : list Typed.LookUp.row)
    (row : Typed.Usage.row) :
  In row (Typed.join M D) <-> exists f, In f M /\ In row (Typed.joined f D).
Proof. rewrite typed_join_flat_map. apply in_flat_map. Qed.

Lemma typed_join_user_ids (M : list Typed.Final.row)
    (D : list Typed.LookUp.row) (u : Typed.key) :
  In u (map Typed.Usage.USER_ID (Typed.join M D))
  <-> In u (map Typed.Final.USER_ID M).
Proof.
  rewrite !in_map_iff. split.
  - intros [row [Hu Hin]]. apply typed_join_In in Hin.
    destruct Hin as [f [Hf Hr]].
    exists f. split; [|exact Hf]. now rewrite <- (typed_joined_key f D row Hr).
  - intros [f [Hu Hf]]. destruct (typed_joined_nonempty f D) as [row Hr].
    exists row. split.
    + now rewrite (typed_joined_key f D row Hr).
    + apply typed_join_In. now exists f.
Qed.

Lemma typed_filter_one {A} (key : A -> Typed.key) (a : A) (l : list A) :
  NoDup (map key l) -> In a l ->
  filter (fun x => Typed.key_eqb (key x) (key a)) l = [a].
Proof.
  induction l as [|x l IH]; simpl; [tauto|].
  intros Hnd [->|Hin]; inversion Hnd; subst.
  - rewrite key_eqb_refl. f_equal. apply filter_none.
    intros y Hy. apply key_eqb_neq. intros E. apply H1.
    rewrite <- E. now apply in_map.
  - destruct (key_eqb_spec (key x) (key a)) as [E|E].
    + exfalso. apply H1. rewrite E. now apply in_map.
    + now apply IH.
Qed.

Lemma typed_report_user_ids (df : frame (Typed.Log.row Z)) :
  map Typed.Final.USER_ID (Typed.dfFinalReport df) = Typed.group_keys df.
Proof. rewrite typed_dfFinalReport_rows, map_map. simpl. apply map_id. Qed.

Lemma typed_report_rows_of (df : frame (Typed.Log.row Z)) (u : Typed.key) :
  In u (Typed.user_ids df) ->
  filter (fun f => Typed.key_eqb (Typed.Final.USER_ID f) u)
         (Typed.dfFinalReport df)
  = [Typed.metrics_row df u].
Proof.
  intros Hin.
  apply (typed_filter_one Typed.Final.USER_ID (Typed.metrics_row df u)).
  - rewrite typed_report_user_ids. apply typed_group_keys_NoDup.
  - rewrite typed_dfFinalReport_rows. apply in_map.
    now apply typed_group_keys_In.
Qed.

Lemma typed_usage_user_ids (df : frame (Typed.Log.row Z))
    (D : list Typed.LookUp.row) (u : Typed.key) :
  In u (map Typed.Usage.USER_ID (Typed.join (Typed.dfFinalReport df) D))
  <-> In u (Typed.user_ids df).
Proof.
  now rewrite typed_join_user_ids, typed_report_user_ids, typed_group_keys_In.
Qed.

Lemma typed_usage_rows_of (df : frame (Typed.Log.row Z))
    (D : list Typed.LookUp.row) (u : Typed.key) :
  In u (Typed.user_ids df) ->
  Typed.rows_of u (Typed.join (Typed.dfFinalReport df) D)
  = Typed.joined (Typed.metrics_row df u) D.
Proof.
  intros Hin.
  rewrite typed_join_rows_of, (typed_report_rows_of df u Hin),
    typed_join_flat_map.
  simpl. apply app_nil_r.
Qed.

(** What [dfCPFUsage] gives when it gives a table. *)
Lemma typed_dfCPFUsage_done (left_on right_on : dtype)
    (M : list Typed.Final.row) (D : list Typed.LookUp.row)
    (report : list Typed.Usage.row) :
  Typed.dfCPFUsage left_on right_on M D = Typed.Done report ->
  Typed.same_kind left_on right_on = true /\ report = Typed.join M D.
Proof.
  unfold Typed.dfCPFUsage.
  destruct (Typed.same_kind left_on right_on).
  - intros H. injection H as <-. auto.
  - destruct M, D; discriminate.
Qed.

Lemma typed_dfCPFUsage_same_kind (left_on right_on : dtype)
    (M : list Typed.Final.row) (D : list Typed.LookUp.row) :
  Typed.same_kind left_on right_on = true ->
  Typed.dfCPFUsage left_on right_on M D = Typed.Done (Typed.join M D).
Proof. unfold Typed.dfCPFUsage. now intros ->. Qed.

Lemma dropna_In (k : Typed.key) (l : list (option Typed.key)) :
  In k (Typed.dropna l) <-> In (Some k) l.
Proof.
  unfold Typed.dropna. rewrite in_flat_map. split.
  - intros [[k'|] [Hin Hk]]; simpl in Hk; [|tauto].
    destruct Hk as [->|[]]. exact Hin.
  - intros Hin. exists (Some k). simpl. auto.
Qed.

Lemma typed_user_ids_In {T} (df : frame (Typed.Log.row T)) (k : Typed.key) :
  In k (Typed.user_ids df)
  <-> In (Some k) (map Typed.Log.USER_ID (values df)).
Proof. apply dropna_In. Qed.

(* ================================================================== *)
(** * Typed columns: counting *)

Lemma filter_length_by {A} (p q : A -> bool) (l : list A) :
  (forall x, p x = true -> q x = true) ->
  List.length (filter q l)
  = (List.length (filter p l)
     + List.length (filter q (filter (fun x => negb (p x)) l)))%nat.
Proof.
  intros Hpq. induction l as [|a l IH]; simpl; [reflexivity|].
  destruct (p a) eqn:Ep; simpl.
  - rewrite (Hpq a Ep). simpl. lia.
  - destruct (q a); simpl; lia.
Qed.

Lemma typed_count_by_key {A} (key : A -> option Typed.key)
    (keys : list Typed.key) (l : list A) :
  NoDup keys ->
  (forall x k, In x l -> key x = Some k -> In k keys) ->
  sum (map (fun k => Z.of_nat (List.length
                        (filter (fun x => match key x with
                                          | Some k' => Typed.key_eqb k' k
                                          | None => false
                                          end) l))) keys)
  = Z.of_nat (List.length (filter (fun x => notnull (key x)) l)).
Proof.
  intros Hnd. revert l.
  induction Hnd as [|k keys Hk Hnd IH]; intros l Hcov; simpl.
  - rewrite filter_none; [reflexivity|].
    intros x Hx. destruct (key x) as [k|] eqn:E; [|reflexivity].
    destruct (Hcov x k Hx E).
  - set (p := fun x => match key x with
                       | Some k' => Typed.key_eqb k' k
                       | None => false
                       end).
    rewrite (filter_length_by p (fun x => notnull (key x)) l).
    2:{ intros x. unfold p. now destruct (key x). }
    rewrite Nat2Z.inj_add. f_equal.
    rewrite <- (IH (filter (fun x => negb (p x)) l)).
    + f_equal. apply map_ext_in. intros k' Hk'. do 2 f_equal.
      clear IH.
      induction l as [|a l IHl]; simpl; [reflexivity|].
      assert (Hl : forall x kx, In x l -> key x = Some kx -> In kx (k :: keys))
        by (intros x kx Hx; apply Hcov; now right).
      unfold p at 1. destruct (key a) as [ka|] eqn:E; simpl.
      * destruct (key_eqb_spec ka k) as [Ek|Ek]; simpl.
        -- destruct (key_eqb_spec ka k') as [Ek'|Ek'].
           ++ exfalso. apply Hk. congruence.
           ++ now apply IHl.
        -- rewrite E. destruct (Typed.key_eqb ka k'); simpl; [f_equal|];
             now apply IHl.
      * rewrite E. now apply IHl.
    + intros x kx Hx Ex. apply filter_In in Hx. destruct Hx as [Hx Hne].
      destruct (Hcov x kx Hx Ex) as [E|Hin]; [|exact Hin].
      unfold p in Hne. rewrite Ex, <- E, key_eqb_refl in Hne. discriminate.
Qed.

Lemma typed_count_group (df : frame (Typed.Log.row Z)) (k : Typed.key) :
  count (Typed.group k df)
  = Z.of_nat (List.length (Typed.records_of k (values df))).
Proof. unfold count, Typed.group, Typed.records_of. now rewrite length_map. Qed.

Lemma typed_counts_add_up (df : frame (Typed.Log.row Z))
    (keys : list Typed.key) :
  NoDup keys -> (forall u, In u (Typed.user_ids df) -> In u keys) ->
  sum (map (fun k => count (Typed.group k df)) keys)
  = Z.of_nat (List.length (Typed.with_user_id (values df))).
Proof.
  intros Hnd Hcov. unfold Typed.with_user_id.
  rewrite <- (typed_count_by_key Typed.Log.USER_ID keys (values df) Hnd).
  - f_equal. apply map_ext. intros k. apply typed_count_group.
  - intros r k Hr Hk. apply Hcov, typed_user_ids_In.
    rewrite <- Hk. now apply in_map.
Qed.

(* ================================================================== *)
(** * Typed columns: step 5 and the run, by the rows *)

Lemma typed_astype_int_error (dt : dtype) (c : Typed.job_cell) (e : exn) :
  Typed.astype_int dt c = inl e -> e = ValueError.
Proof.
  destruct c as [n|q| | |t]; simpl; try congruence.
  destruct dt; congruence.
Qed.

Lemma typed_astype_rows_spec (dt : dtype)
    (df : frame (Typed.Log.row Typed.job_cell)) :
  Typed.astype_rows dt df
  = if forallb (fun ir => Typed.can_int dt (snd ir)) df
    then inr (map (fun ir => (fst ir, Typed.as_int dt (snd ir))) df)
    else inl ValueError.
Proof.
  induction df as [|[i r] df IH]; simpl; [reflexivity|].
  unfold Typed.can_int at 1, Typed.as_int at 1. simpl.
  destruct (Typed.astype_int dt (Typed.Log.NUM_SUBMITTED_REQUESTS r))
    as [e|n] eqn:E; simpl.
  - now rewrite (typed_astype_int_error _ _ _ E).
  - rewrite IH.
    now destruct (forallb (fun ir => Typed.can_int dt (snd ir)) df).
Qed.

Lemma typed_step5_spec (dt : dtype)
    (df : frame (Typed.Log.row Typed.job_cell)) :
  NoDup (labels df) ->
  let kept := filter (fun ir => Typed.numeric (snd ir)) df in
  Typed.step5 dt df
  = if forallb (fun ir => Typed.can_int dt (snd ir)) kept
    then inr (map (fun ir => (fst ir, Typed.as_int dt (snd ir))) kept)
    else inl ValueError.
Proof.
  intros Hnd kept. unfold Typed.step5, Typed.numeric_mask.
  rewrite (loc_self _ df Hnd). apply typed_astype_rows_spec.
Qed.

(** The frame step 5 makes of the file: its rows are [ingest]'s, and it has
    no label twice. *)
Lemma typed_step5_read_csv (dt : dtype)
    (rows : list (Typed.Log.row Typed.job_cell)) :
  match Typed.step5 dt (read_csv rows) with
  | inl e => Typed.ingest dt rows = inl e
  | inr df => Typed.ingest dt rows = inr (values df) /\ NoDup (labels df)
  end.
Proof.
  rewrite (typed_step5_spec dt _ (read_csv_NoDup rows)). unfold Typed.ingest.
  rewrite forallb_values, values_filter, values_read_csv.
  destruct (forallb _ (filter Typed.numeric rows)); [|reflexivity].
  split.
  - f_equal. unfold values. rewrite map_map. simpl.
    rewrite <- (map_map snd (Typed.as_int _)).
    fold (values (filter (fun ir => Typed.numeric (snd ir)) (read_csv rows))).
    now rewrite values_filter, values_read_csv.
  - unfold labels. rewrite map_map. simpl.
    apply (labels_filter_NoDup _ (read_csv rows)), read_csv_NoDup.
Qed.

Lemma typed_dfFinalReport_values (df df' : frame (Typed.Log.row Z)) :
  values df = values df' -> Typed.dfFinalReport df = Typed.dfFinalReport df'.
Proof.
  intros H.
  unfold Typed.dfFinalReport, Typed.merge_series, Typed.value_counts,
    Typed.groupby_mean, Typed.groupby_sum, Typed.group_keys, Typed.user_ids,
    Typed.group.
  now rewrite H.
Qed.

(** [main], once the columns are typed, is [outcome]. *)
Lemma typed_main_outcome (job_type id_type lookup_type : dtype)
    (csvLogFile : list Typed.Csv.row)
    (csvLookUpTable : list Typed.LookUpCsv.row) (startDate endDate : string) :
  Typed.job_dtype (map Typed.Csv.NUM_SUBMITTED_REQUESTS csvLogFile)
  = Some job_type ->
  Typed.id_dtype (map Typed.Csv.USER_ID csvLogFile) = Some id_type ->
  Typed.id_dtype (map Typed.LookUpCsv.USER_ID csvLookUpTable)
  = Some lookup_type ->
  Typed.main csvLogFile csvLookUpTable startDate endDate
  = Typed.outcome job_type id_type lookup_type csvLogFile csvLookUpTable
                  startDate endDate.
Proof.
  intros Hj Hi Hl. unfold Typed.main, Typed.outcome. rewrite Hj, Hi, Hl.
  pose proof (typed_step5_read_csv job_type
                (map (Typed.typed_row id_type) csvLogFile)) as H.
  destruct (Typed.step5 job_type
              (read_csv (map (Typed.typed_row id_type) csvLogFile)))
    as [err|df].
  - now rewrite H.
  - destruct H as [H Hnd]. rewrite H.
    destruct df as [|ir df]; [reflexivity|].
    cbn [values map].
    change (snd ir :: map snd df) with (values (ir :: df)).
    destruct (Typed.has_str (map Typed.Csv.WHEN_CREATED csvLogFile));
      [|reflexivity].
    rewrite (typed_trim_filter startDate endDate _ Hnd).
    f_equal. apply typed_dfFinalReport_values.
    now rewrite values_filter, values_read_csv.
Qed.

(** A run ends outside this part only by the types of its columns or the
    kinds of its keys. *)
Lemma typed_main_outside (csvLogFile : list Typed.Csv.row)
    (csvLookUpTable : list Typed.LookUpCsv.row) (startDate endDate : string) :
  Typed.job_dtype (map Typed.Csv.NUM_SUBMITTED_REQUESTS csvLogFile) = None
  \/ Typed.id_dtype (map Typed.Csv.USER_ID csvLogFile) = None
  \/ Typed.id_dtype (map Typed.LookUpCsv.USER_ID csvLookUpTable) = None ->
  Typed.main csvLogFile csvLookUpTable startDate endDate = Typed.Outside.
Proof.
  unfold Typed.main.
  intros [H|[H|H]]; rewrite H.
  - reflexivity.
  - now destruct (Typed.job_dtype _).
  - destruct (Typed.job_dtype _); [|reflexivity].
    now destruct (Typed.id_dtype (map Typed.Csv.USER_ID csvLogFile)).
Qed.

(* ================================================================== *)
(** * [float64]: how far rounding goes *)

Lemma pow2_pos (e : Z) : (0 < Typed.pow2 e)%Q.
Proof. apply Qpower_0_lt. reflexivity. Qed.

Lemma pow2_plus (a b : Z) :
  (Typed.pow2 (a + b) == Typed.pow2 a * Typed.pow2 b)%Q.
Proof. apply Qpower_plus. discriminate. Qed.

Lemma pow2_nonneg (n : Z) : 0 <= n -> (Typed.pow2 n == inject_Z (2 ^ n))%Q.
Proof. intros H. unfold Typed.pow2. symmetry. now apply (Zpower_Qpower 2 n). Qed.

Lemma pow2_neg (n : Z) :
  0 <= n -> (Typed.pow2 (- n) == / inject_Z (2 ^ n))%Q.
Proof.
  intros H. unfold Typed.pow2. rewrite Qpower_opp.
  apply Qinv_comp. symmetry. now apply (Zpower_Qpower 2 n).
Qed.

(** [ilog2] does not overshoot. *)
Lemma ilog2_le (a : Q) : (0 < a)%Q -> (Typed.pow2 (Typed.ilog2 a) <= a)%Q.
Proof.
  intros Ha. unfold Typed.ilog2.
  set (k := Z.log2 (Qnum a) - Z.log2 (Z.pos (Qden a))).
  destruct (Qle_bool (Typed.pow2 k) a) eqn:E; [now apply Qle_bool_iff|].
  destruct a as [n d]. cbn [Qnum Qden] in k.
  assert (Hn : 0 < n) by (unfold Qlt in Ha; simpl in Ha; lia).
  pose proof (Z.log2_spec n Hn) as [Hn1 _].
  pose proof (Z.log2_spec (Z.pos d) (Pos2Z.is_pos d)) as [_ Hd2].
  pose proof (Z.log2_nonneg n) as Hln.
  pose proof (Z.log2_nonneg (Z.pos d)) as Hld.
  replace (k - 1) with (Z.log2 n + - (Z.log2 (Z.pos d) + 1)) by (unfold k; lia).
  rewrite pow2_plus, pow2_nonneg, pow2_neg by lia.
  replace (Z.log2 (Z.pos d) + 1) with (Z.succ (Z.log2 (Z.pos d))) by lia.
  remember (2 ^ Z.log2 n) as p eqn:Hp.
  remember (2 ^ Z.succ (Z.log2 (Z.pos d))) as q eqn:Hq.
  assert (Hq0 : 0 < q) by lia.
  destruct q as [|q|q]; try lia.
  unfold Qle, Qmult, Qinv, inject_Z. simpl. nia.
Qed.

Lemma rint_close (y : Q) : (Qabs (inject_Z (rint y) - y) <= 1 # 2)%Q.
Proof.
  destruct (rint_nearest y) as [H _].
  rewrite <- Qabs_opp.
  setoid_replace (- (inject_Z (rint y) - y))%Q with (y - inject_Z (rint y))%Q
    by ring.
  exact H.
Qed.

(** The significand is rounded to the nearest integer: the error is at most
    half a unit in the last place. *)
Lemma f64_half_ulp (x : Q) :
  ~ (x == 0)%Q ->
  (Qabs (Typed.f64 x - x)
   <= Typed.pow2 (Z.max (Typed.ilog2 (Qabs x) - 52) (- 1074)) * (1 # 2))%Q.
Proof.
  intros Hx. unfold Typed.f64.
  destruct (Qeq_bool x 0) eqn:E0; [apply Qeq_bool_iff in E0; contradiction|].
  set (p := Typed.pow2 (Z.max (Typed.ilog2 (Qabs x) - 52) (- 1074))).
  pose proof (pow2_pos (Z.max (Typed.ilog2 (Qabs x) - 52) (- 1074))) as Hp.
  fold p in Hp.
  pose proof (rint_close (Qabs x / p)) as Hr.
  remember (inject_Z (rint (Qabs x / p))) as m eqn:Hm. clear Hm.
  rewrite Qred_correct.
  assert (Hscale : (Qabs (m * p - Qabs x) <= p * (1 # 2))%Q).
  { setoid_replace (m * p - Qabs x)%Q with ((m - Qabs x / p) * p)%Q
      by (field; lra).
    rewrite Qabs_Qmult, (Qabs_pos p) by lra.
    rewrite (Qmult_comm p (1 # 2)).
    apply Qmult_le_compat_r; lra. }
  destruct (Qle_bool 0 x) eqn:Es.
  - apply Qle_bool_iff in Es. rewrite (Qabs_pos x Es) in Hscale. exact Hscale.
  - assert (Hneg : (x <= 0)%Q).
    { destruct (Qlt_le_dec 0 x) as [H|H]; [|exact H].
      apply Qlt_le_weak, Qle_bool_iff in H. congruence. }
    rewrite (Qabs_neg x Hneg) in Hscale.
    rewrite <- Qabs_opp.
    setoid_replace (- (- (m * p) - x))%Q with (m * p - - x)%Q by ring.
    exact Hscale.
Qed.

(** One rounding: a relative error of [2^-53], or, below the normal range,
    an absolute error of [2^-1075]. *)
Lemma f64_close (x : Q) :
  (Qabs (Typed.f64 x - x)
   <= Qabs x * Typed.pow2 (- 53) + Typed.pow2 (- 1075))%Q.
Proof.
  pose proof (pow2_pos (- 53)) as H53. pose proof (pow2_pos (- 1075)) as Ht.
  pose proof (Qabs_nonneg x) as Hx0.
  destruct (Qeq_dec x 0) as [E|Hx].
  - assert (Hf : (Typed.f64 x == 0)%Q).
    { unfold Typed.f64. apply Qeq_bool_iff in E. now rewrite E. }
    setoid_replace (Typed.f64 x - x)%Q with 0%Q by (rewrite Hf, E; ring).
    change (Qabs 0) with 0%Q. nra.
  - pose proof (f64_half_ulp x Hx) as H.
    assert (Ha : (0 < Qabs x)%Q).
    { destruct (Qle_lt_or_eq _ _ Hx0) as [H0|H0]; [exact H0|].
      exfalso. apply Hx. symmetry in H0.
      destruct (Qabs_Qle_condition x 0) as [Hc _].
      destruct Hc as [H1 H2]; [rewrite H0; apply Qle_refl|]. lra. }
    pose proof (ilog2_le (Qabs x) Ha) as Hl.
    destruct (Z.max_spec (Typed.ilog2 (Qabs x) - 52) (- 1074)) as [[_ Em]|[_ Em]];
      rewrite Em in H.
    + setoid_replace (Typed.pow2 (-1074) * (1 # 2))%Q
        with (Typed.pow2 (- 1075)) in H by reflexivity.
      nra.
    + replace (Typed.ilog2 (Qabs x) - 52) with (Typed.ilog2 (Qabs x) + - 52)
        in H by lia.
      rewrite pow2_plus in H.
      setoid_replace (Typed.pow2 (Typed.ilog2 (Qabs x)) * Typed.pow2 (- 52)
                      * (1 # 2))%Q
        with (Typed.pow2 (Typed.ilog2 (Qabs x)) * Typed.pow2 (- 53))%Q in H.
      * assert (Hmul : (Typed.pow2 (Typed.ilog2 (Qabs x)) * Typed.pow2 (- 53)
                        <= Qabs x * Typed.pow2 (- 53))%Q)
          by (apply Qmult_le_compat_r; lra).
        lra.
      * setoid_replace (Typed.pow2 (- 53))%Q
          with (Typed.pow2 (- 52) * (1 # 2))%Q by reflexivity.
        ring.
Qed.

Lemma Qabs_bounds (x : Q) :
  (0 <= Qabs x)%Q /\ (x <= Qabs x)%Q /\ (- x <= Qabs x)%Q /\
  ((Qabs x <= x)%Q \/ (Qabs x <= - x)%Q).
Proof.
  split; [apply Qabs_nonneg|]. split; [apply Qle_Qabs|].
  split; [rewrite <- Qabs_opp; apply Qle_Qabs|].
  destruct (Qlt_le_dec x 0) as [H|H].
  - right. rewrite Qabs_neg by lra. apply Qle_refl.
  - left. rewrite Qabs_pos by lra. apply Qle_refl.
Qed.

(** One rounding, with the constants written out. *)
Lemma f64_close_u (x : Q) :
  (Qabs (Typed.f64 x - x) <= (Qabs x + 1) * (1 # 9007199254740992))%Q.
Proof.
  pose proof (f64_close x) as H.
  assert (H53 : (Typed.pow2 (- 53) == 1 # 9007199254740992)%Q) by reflexivity.
  assert (Ht : (Typed.pow2 (- 1075) <= 1 # 9007199254740992)%Q).
  { unfold Qle. vm_compute. discriminate. }
  rewrite H53 in H. pose proof (Qabs_nonneg x). lra.
Qed.

(** [round(1)] gives a number within half a tenth of its argument, up to
    the three roundings it goes through. *)
Lemma round1_close (x : Q) :
  (Qabs (Typed.round1 x - x)
   <= (1 # 20) + (Qabs x + 1) * (3 # 9007199254740992))%Q.
Proof.
  unfold Typed.round1.
  pose proof (f64_close_u (x * 10)) as Hy.
  remember (Typed.f64 (x * 10)) as y eqn:Ey. clear Ey.
  pose proof (rint_close y) as Hn.
  remember (inject_Z (rint y)) as n eqn:En. clear En.
  pose proof (f64_close_u (n / 10)) as Hr.
  remember (Typed.f64 (n / 10)) as r eqn:Er. clear Er.
  assert (Hx10 : (Qabs (x * 10) == Qabs x * 10)%Q).
  { rewrite Qabs_Qmult. reflexivity. }
  rewrite Hx10 in Hy.
  apply Qabs_Qle_condition in Hy. apply Qabs_Qle_condition in Hn.
  apply Qabs_Qle_condition in Hr.
  destruct (Qabs_bounds x) as [Hx0 [Hx1 [Hx2 _]]].
  destruct (Qabs_bounds (n / 10)) as [Hn0 [Hn1 [Hn2 Hn3]]].
  remember (Qabs x) as X eqn:EX. clear EX.
  remember (Qabs (n / 10)) as N eqn:EN. clear EN.
  unfold Qdiv in *.
  change (/ 10)%Q with (1 # 10)%Q in *.
  apply Qabs_Qle_condition.
  destruct Hn3 as [Hn3|Hn3]; split; lra.
Qed.

(** The rounded mean is within half a tenth of the exact quotient, up to
    [float64] precision. *)
Lemma rounded_mean_close (z : Q) :
  (Qabs (Typed.round1 (Typed.f64 z) - z)
   <= (1 # 20) + (Qabs z + 1) * (1 # 1125899906842624))%Q.
Proof.
  pose proof (f64_close_u z) as Hq.
  remember (Typed.f64 z) as q eqn:Eq. clear Eq.
  pose proof (round1_close q) as Hr.
  remember (Typed.round1 q) as r eqn:Er. clear Er.
  apply Qabs_Qle_condition in Hq. apply Qabs_Qle_condition in Hr.
  destruct (Qabs_bounds z) as [Hz0 [Hz1 [Hz2 _]]].
  destruct (Qabs_bounds q) as [Hq0 [Hq1 [Hq2 Hq3]]].
  remember (Qabs z) as Z0 eqn:EZ. clear EZ.
  remember (Qabs q) as Q0 eqn:EQ. clear EQ.
  apply Qabs_Qle_condition.
  destruct Hq3 as [Hq3|Hq3]; split; lra.
Qed.

(* ================================================================== *)
(** * Typed columns: the report against the filtered records *)

(** C1 -- join completeness fails on the code.  With a lookup table keyed
    by numbers and a log keyed by text no user has a lookup entry; the merge
    of step 9 raises instead of emitting the users with empty lookup fields,
    and there is no report.  And the jobs of a user whose id reads as
    missing are in no row of the report. *)
Lemma join_is_not_complete :
  Typed.main [row1; row2; row3] [lookup_1001] "2019-09-01" "2019-09-02"
  = Typed.Raises ValueError /\
  Typed.main [row_na; row3] [lookup_alice] "2019-09-01" "2019-09-02"
  = Typed.Done [Typed.Usage.mk (Typed.KText "u2") 10 1 (Some (10 # 1))
                               None None None].
Proof. split; vm_compute; reflexivity. Qed.

(** X21 -- join completeness, where it holds.  Whenever the merge of step 9
    gives a table (the two [USER_ID] columns are both text or both numbers),
    the user ids of that table are exactly the user ids of the filtered
    records that are not missing: no user of the log is dropped, no user of
    the lookup table alone appears, and a user without a lookup entry has
    one row, whose lookup columns are empty. *)
Theorem join_completeness (left_on right_on : dtype)
    (trimmed : frame (Typed.Log.row Z)) (dir : list Typed.LookUp.row)
    (report : list Typed.Usage.row) :
  Typed.dfCPFUsage left_on right_on (Typed.dfFinalReport trimmed) dir
  = Typed.Done report ->
  (forall u, In u (map Typed.Usage.USER_ID report)
             <-> In (Some u) (map Typed.Log.USER_ID (values trimmed))) /\
  (forall u, In (Some u) (map Typed.Log.USER_ID (values trimmed)) ->
     ~ In (Some u) (map Typed.LookUp.USER_ID dir) ->
     exists total jobs avg,
       Typed.rows_of u report
       = [Typed.Usage.mk u total jobs avg None None None]).
Proof.
  intros H. apply typed_dfCPFUsage_done in H. destruct H as [_ ->].
  split.
  - intros u. rewrite typed_usage_user_ids. apply typed_user_ids_In.
  - intros u Hin Hmiss. apply typed_user_ids_In in Hin.
    rewrite (typed_usage_rows_of trimmed dir u Hin). unfold Typed.joined.
    simpl. rewrite (typed_matches_none Typed.LookUp.USER_ID u dir Hmiss).
    now eexists _, _, _.
Qed.

Lemma join_completeness_witness :
  (In (Typed.KText "u2")
      (map Typed.Usage.USER_ID
           (Typed.join (Typed.dfFinalReport typed_trimmed) [typed_alice]))
   <-> In (Some (Typed.KText "u2"))
          (map Typed.Log.USER_ID (values typed_trimmed))) /\
  exists total jobs avg,
    Typed.rows_of (Typed.KText "u2")
                  (Typed.join (Typed.dfFinalReport typed_trimmed) [typed_alice])
    = [Typed.Usage.mk (Typed.KText "u2") total jobs avg None None None].
Proof.
  destruct (join_completeness object object typed_trimmed [typed_alice]
              (Typed.join (Typed.dfFinalReport typed_trimmed) [typed_alice])
              eq_refl) as [Hids Hmiss].
  split; [apply Hids|].
  apply Hmiss.
  - simpl. auto.
  - simpl. intros [H|[]]. discriminate.
Defined.

Lemma sum_abs_bound (l : list Z) : Z.abs (sum l) <= Typed.sum_abs l.
Proof.
  induction l as [|n l IH]; simpl; [lia|].
  unfold sum in *. simpl. lia.
Qed.

Lemma wrap64_small (n : Z) : - 2 ^ 63 <= n < 2 ^ 63 -> Typed.wrap64 n = n.
Proof.
  intros H. unfold Typed.wrap64. rewrite Z.mod_small; lia.
Qed.

Lemma wrap64_sum (l : list Z) :
  Typed.sum_abs l <= 2 ^ 53 -> Typed.wrap64 (sum l) = sum l.
Proof.
  intros H. pose proof (sum_abs_bound l). apply wrap64_small. lia.
Qed.

Lemma mean_exact (l : list Z) :
  l <> [] -> Typed.sum_abs l <= 2 ^ 53 ->
  Typed.mean l = Some (Typed.f64 (inject_Z (sum l) / inject_Z (count l))).
Proof.
  intros Hne H. unfold Typed.mean. destruct l as [|n l]; [congruence|].
  apply Z.leb_le in H. now rewrite H.
Qed.

(** The claim of C2 fails on the code: the total of two jobs of [2^62]
    addresses is [-2^63], not [2^63]. *)
Lemma total_wraps_around :
  Typed.main [row_huge; row_huge] [lookup_alice] "2019-09-01" "2019-09-02"
  = Typed.Done [Typed.Usage.mk (Typed.KText "u1") (- 2 ^ 63) 2 None
                               (Some "Alice") (Some "a@x.com") (Some "OrgA")].
Proof. vm_compute. reflexivity. Qed.

(** C2, amended -- per-user metrics.  Whenever step 9 gives a table, every
    user of the filtered records whose id is not missing has a row, and
    every row of the user shows the number of the user's filtered records as
    job count and the sum of their job sizes, reduced to [int64], as total.
    When the sizes add up to at most [2^53] in absolute value, the total is
    the sum itself and the average is the [float64] quotient of total and
    count, rounded by [round(1)]: the [float64] of a number of tenths, within
    half a tenth of the exact quotient up to [float64] precision. *)
Theorem per_user_metrics (left_on right_on : dtype)
    (trimmed : frame (Typed.Log.row Z)) (dir : list Typed.LookUp.row)
    (report : list Typed.Usage.row) (u : Typed.key) :
  Typed.dfCPFUsage left_on right_on (Typed.dfFinalReport trimmed) dir
  = Typed.Done report ->
  In (Some u) (map Typed.Log.USER_ID (values trimmed)) ->
  let sizes := map Typed.Log.NUM_SUBMITTED_REQUESTS
                   (Typed.records_of u (values trimmed)) in
  (exists row, In row report /\ Typed.Usage.USER_ID row = u) /\
  (forall row, In row report -> Typed.Usage.USER_ID row = u ->
     Typed.Usage.Jobs row = Z.of_nat (List.length sizes) /\
     Typed.Usage.Total row = Typed.wrap64 (fold_right Z.add 0 sizes) /\
     (Typed.sum_abs sizes <= 2 ^ 53 ->
      let quotient := (inject_Z (Typed.Usage.Total row)
                       / inject_Z (Typed.Usage.Jobs row))%Q in
      Typed.Usage.Total row = fold_right Z.add 0 sizes /\
      exists avg tenths,
        Typed.Usage.Avg row = Some avg /\
        avg = Typed.round1 (Typed.f64 quotient) /\
        avg = Typed.f64 (inject_Z tenths / 10) /\
        (Qabs (avg - quotient)
         <= (1 # 20) + (Qabs quotient + 1) * (1 # 1125899906842624))%Q)).
Proof.
  intros H Hin sizes. apply typed_dfCPFUsage_done in H. destruct H as [_ ->].
  apply typed_user_ids_In in Hin.
  assert (Hrows : forall row,
            In row (Typed.join (Typed.dfFinalReport trimmed) dir) ->
            Typed.Usage.USER_ID row = u ->
            In row (Typed.joined (Typed.metrics_row trimmed u) dir)).
  { intros row Hrow Hu. rewrite <- (typed_usage_rows_of trimmed dir u Hin).
    unfold Typed.rows_of. apply filter_In. split; [exact Hrow|].
    now apply key_eqb_eq. }
  split.
  - destruct (typed_joined_nonempty (Typed.metrics_row trimmed u) dir)
      as [row Hrow].
    rewrite <- (typed_usage_rows_of trimmed dir u Hin) in Hrow.
    unfold Typed.rows_of in Hrow. apply filter_In in Hrow.
    destruct Hrow as [Hrow Hu]. apply key_eqb_eq in Hu. now exists row.
  - intros row Hrow Hu.
    destruct (typed_joined_metrics _ _ _ (Hrows row Hrow Hu)) as [Ht [Hj Ha]].
    simpl in Ht, Hj, Ha. rewrite Ht, Hj, Ha.
    change (Typed.group u trimmed) with sizes.
    split; [reflexivity|]. split; [reflexivity|].
    intros Hsmall quotient.
    assert (Hne : sizes <> []).
    { unfold sizes, Typed.records_of.
      apply typed_user_ids_In, in_map_iff in Hin.
      destruct Hin as [r [Hr Hin]].
      assert (Hf : In r (filter (Typed.has_key u) (values trimmed))).
      { apply filter_In. split; [exact Hin|]. unfold Typed.has_key.
        rewrite Hr. apply key_eqb_refl. }
      destruct (filter (Typed.has_key u) (values trimmed));
        [destruct Hf | discriminate]. }
    subst quotient.
    rewrite (wrap64_sum sizes Hsmall), (mean_exact sizes Hne Hsmall).
    split; [reflexivity|].
    eexists _, _. split; [reflexivity|]. split; [reflexivity|].
    split; [reflexivity|]. apply rounded_mean_close.
Qed.

Lemma per_user_metrics_witness :
  In (Some (Typed.KText "u1")) (map Typed.Log.USER_ID (values typed_trimmed)) /\
  forall row,
    In row (Typed.join (Typed.dfFinalReport typed_trimmed) [typed_alice]) ->
    Typed.Usage.USER_ID row = Typed.KText "u1" ->
    Typed.Usage.Jobs row = 2 /\ Typed.Usage.Total row = 8 /\
    Typed.Usage.Avg row
    = Some (Typed.round1 (Typed.f64 (inject_Z 8 / inject_Z 2))).
Proof.
  assert (Hin : In (Some (Typed.KText "u1"))
                   (map Typed.Log.USER_ID (values typed_trimmed)))
    by (simpl; auto).
  split; [exact Hin|].
  intros row Hrow Hu.
  destruct (per_user_metrics object object typed_trimmed [typed_alice]
              (Typed.join (Typed.dfFinalReport typed_trimmed) [typed_alice])
              (Typed.KText "u1") eq_refl Hin)
    as [_ Hrows].
  destruct (Hrows row Hrow Hu) as [Hj [_ Hs]].
  assert (Hsmall : Typed.sum_abs [5; 3] <= 2 ^ 53) by (vm_compute; discriminate).
  destruct (Hs Hsmall) as [Ht [avg [tenths [Ha [Hr _]]]]].
  rewrite Ha, Hr, Ht, Hj. simpl. auto.
Defined.

(** The claim of C4 fails on the code: with two lookup entries for [u1] the
    join emits two rows for [u1]. *)
Lemma join_fans_out :
  List.length
    (Typed.rows_of (Typed.KText "u1")
       (Typed.join (Typed.dfFinalReport typed_trimmed)
                   [typed_alice; typed_alice_again]))
  = 2%nat.
Proof. vm_compute. reflexivity. Qed.

(** C4, amended -- whenever step 9 gives a table, a user id of [M] has in it
    one row per lookup entry of that id, in the order of the lookup table and
    with that entry's fields, and one row with empty lookup fields when
    there is no entry: exactly one row when the lookup table has at most one
    entry for the id. *)
Theorem join_one_row_per_entry (left_on right_on : dtype)
    (M : list Typed.Final.row) (D : list Typed.LookUp.row)
    (report : list Typed.Usage.row) (f : Typed.Final.row) :
  Typed.dfCPFUsage left_on right_on M D = Typed.Done report ->
  NoDup (map Typed.Final.USER_ID M) -> In f M ->
  let entries :=
    filter (fun e => match Typed.LookUp.USER_ID e with
                     | Some k => Typed.key_eqb k (Typed.Final.USER_ID f)
                     | None => false
                     end) D in
  Typed.rows_of (Typed.Final.USER_ID f) report
  = match entries with
    | [] => [Typed.with_lookup f None]
    | _ => map (fun e => Typed.with_lookup f (Some e)) entries
    end /\
  List.length (Typed.rows_of (Typed.Final.USER_ID f) report)
  = Nat.max 1 (List.length entries).
Proof.
  intros H Hnd Hf entries. apply typed_dfCPFUsage_done in H.
  destruct H as [_ ->].
  assert (E : Typed.rows_of (Typed.Final.USER_ID f) (Typed.join M D)
              = Typed.joined f D).
  { rewrite typed_join_rows_of,
      (typed_filter_one Typed.Final.USER_ID f M Hnd Hf), typed_join_flat_map.
    simpl. apply app_nil_r. }
  rewrite E. split.
  - unfold Typed.joined. fold (Typed.matches Typed.LookUp.USER_ID
                                 (Typed.Final.USER_ID f) D) in entries.
    subst entries. now destruct (Typed.matches _ _ D).
  - apply typed_joined_length.
Qed.

Lemma join_one_row_per_entry_witness :
  Typed.rows_of (Typed.KText "u1")
    (Typed.join (Typed.dfFinalReport typed_trimmed)
                [typed_alice; typed_alice_again])
  = [ Typed.Usage.mk (Typed.KText "u1") 8 2 (Some (4 # 1))
                     (Some "Alice") (Some "a@x.com") (Some "OrgA");
      Typed.Usage.mk (Typed.KText "u1") 8 2 (Some (4 # 1))
                     (Some "Alice B.") (Some "alice@y.org") (Some "OrgB") ].
Proof.
  assert (Hnd : NoDup (map Typed.Final.USER_ID
                           (Typed.dfFinalReport typed_trimmed))).
  { rewrite typed_report_user_ids. apply typed_group_keys_NoDup. }
  assert (Hin : In (Typed.metrics_row typed_trimmed (Typed.KText "u1"))
                   (Typed.dfFinalReport typed_trimmed)).
  { rewrite typed_dfFinalReport_rows. apply in_map.
    apply typed_group_keys_In. simpl. auto. }
  destruct (join_one_row_per_entry object object
              (Typed.dfFinalReport typed_trimmed)
              [typed_alice; typed_alice_again]
              (Typed.join (Typed.dfFinalReport typed_trimmed)
                          [typed_alice; typed_alice_again])
              (Typed.metrics_row typed_trimmed (Typed.KText "u1"))
              eq_refl Hnd Hin) as [Hrows _].
  exact Hrows.
Defined.

(** The claim of C8 fails on the code: of two filtered records, one with a
    user id that reads as missing, one job is counted. *)
Lemma missing_id_is_not_counted :
  let trimmed :=
    [ (0%nat, Typed.Log.mk None (Some "2019-09-01 00:00:00.000") 7);
      (1%nat, Typed.Log.mk (Some (Typed.KText "u2"))
                           (Some "2019-09-01 00:00:00.000") 10) ] in
  List.length trimmed = 2%nat /\
  sum (map snd (Typed.value_counts trimmed)) = 1 /\
  sum (map Typed.Final.Jobs (Typed.dfFinalReport trimmed)) = 1.
Proof. vm_compute. auto. Qed.

(** C8, amended -- the job counts add up to the number of filtered records
    whose user id is not missing: the counts of [value_counts], the [Jobs]
    column of the merged report, and the job counts of the users of the
    joined table each sum to it.  It is the number of all filtered records
    when no user id is missing. *)
Theorem job_counts_add_up (trimmed : frame (Typed.Log.row Z))
    (dir : list Typed.LookUp.row) :
  let counted :=
    Z.of_nat (List.length (Typed.with_user_id (values trimmed))) in
  sum (map snd (Typed.value_counts trimmed)) = counted /\
  sum (map Typed.Final.Jobs (Typed.dfFinalReport trimmed)) = counted /\
  sum (map (Typed.jobs_of_user (Typed.join (Typed.dfFinalReport trimmed) dir))
           (Typed.unique
              (map Typed.Usage.USER_ID
                   (Typed.join (Typed.dfFinalReport trimmed) dir))))
  = counted /\
  ((forall r, In r (values trimmed) -> Typed.Log.USER_ID r <> None) ->
   counted = Z.of_nat (List.length trimmed)).
Proof.
  intros counted. split; [|split; [|split]].
  - rewrite <- (sum_perm _ _ (Permutation_map snd
                                (typed_value_counts_perm trimmed))).
    rewrite map_map. simpl.
    apply typed_counts_add_up.
    + apply typed_unique_NoDup.
    + intros u. apply typed_unique_In.
  - rewrite typed_dfFinalReport_rows, map_map. simpl.
    apply typed_counts_add_up.
    + apply typed_group_keys_NoDup.
    + intros u. apply typed_group_keys_In.
  - pose proof (typed_usage_user_ids trimmed dir) as Hids.
    unfold counted.
    rewrite <- (typed_counts_add_up trimmed
                  (Typed.unique
                     (map Typed.Usage.USER_ID
                          (Typed.join (Typed.dfFinalReport trimmed) dir)))).
    + f_equal. apply map_ext_in. intros u Hu.
      apply typed_unique_In, Hids in Hu. unfold Typed.jobs_of_user.
      rewrite (typed_usage_rows_of trimmed dir u Hu).
      destruct (typed_joined_nonempty (Typed.metrics_row trimmed u) dir)
        as [row Hrow].
      destruct (Typed.joined (Typed.metrics_row trimmed u) dir)
        as [|row0 rest] eqn:E; [destruct Hrow|].
      assert (H0 : In row0 (Typed.joined (Typed.metrics_row trimmed u) dir))
        by (rewrite E; now left).
      now destruct (typed_joined_metrics _ _ _ H0) as [_ [Hj _]].
    + apply typed_unique_NoDup.
    + intros u Hu. apply typed_unique_In, Hids, Hu.
  - intros Hall. unfold counted, Typed.with_user_id.
    rewrite filter_all.
    + unfold values. now rewrite length_map.
    + intros r Hr. specialize (Hall r Hr).
      now destruct (Typed.Log.USER_ID r).
Qed.

Lemma job_counts_add_up_witness :
  sum (map snd (Typed.value_counts typed_trimmed)) = 3 /\
  sum (map Typed.Final.Jobs (Typed.dfFinalReport typed_trimmed)) = 3.
Proof.
  destruct (job_counts_add_up typed_trimmed [typed_alice])
    as [Hc [Hj [_ Hall]]].
  rewrite Hc, Hj, Hall.
  - split; reflexivity.
  - simpl. intros r [<-|[<-|[<-|[]]]]; discriminate.
Defined.

(* ================================================================== *)
(** * Typed columns: the order of the rows of the log does not matter *)

Lemma existsb_perm {A} (p : A -> bool) (l l' : list A) :
  Permutation l l' -> existsb p l = existsb p l'.
Proof.
  induction 1 as [|x l l' _ IH|x y l|l l' l'' _ IH1 _ IH2]; simpl.
  - reflexivity.
  - now rewrite IH.
  - destruct (p x), (p y); reflexivity.
  - congruence.
Qed.

Lemma perm_nil_cons {A B} (l l' : list A) (x y : B) :
  Permutation l l' ->
  match l with [] => x | _ :: _ => y end
  = match l' with [] => x | _ :: _ => y end.
Proof.
  intros H. destruct l as [|a l].
  - now rewrite (Permutation_nil H).
  - destruct l' as [|a' l']; [|reflexivity].
    symmetry in H. apply Permutation_nil in H. discriminate.
Qed.

Lemma typed_infer_dtype_perm (col col' : list Typed.job_cell) :
  Permutation col col' -> Typed.infer_dtype col = Typed.infer_dtype col'.
Proof.
  intros H. unfold Typed.infer_dtype.
  rewrite (forallb_perm Typed.job_is_int _ _ H),
    (forallb_perm Typed.job_is_float _ _ H).
  apply (perm_nil_cons col col' _ _ H).
Qed.

Lemma job_dtype_perm (col col' : list Typed.job_cell) :
  Permutation col col' -> Typed.job_dtype col = Typed.job_dtype col'.
Proof.
  intros H. unfold Typed.job_dtype.
  rewrite (typed_infer_dtype_perm _ _ H).
  now rewrite (forallb_perm _ _ _ H).
Qed.

Lemma id_dtype_perm (col col' : list Typed.id_cell) :
  Permutation col col' -> Typed.id_dtype col = Typed.id_dtype col'.
Proof.
  intros H. unfold Typed.id_dtype.
  rewrite (existsb_perm Typed.id_is_text _ _ H),
    (forallb_perm Typed.id_is_int64 _ _ H).
  apply (perm_nil_cons col col' _ _ H).
Qed.

Lemma has_str_perm (col col' : list Typed.stamp_cell) :
  Permutation col col' -> Typed.has_str col = Typed.has_str col'.
Proof.
  intros H. unfold Typed.has_str.
  rewrite (existsb_perm Typed.stamp_is_text _ _ H).
  apply (perm_nil_cons col col' _ _ H).
Qed.

Lemma typed_ingest_perm (dt : dtype)
    (rows rows' : list (Typed.Log.row Typed.job_cell)) :
  Permutation rows rows' ->
  match Typed.ingest dt rows, Typed.ingest dt rows' with
  | inl e, inl e' => e = e'
  | inr l, inr l' => Permutation l l'
  | _, _ => False
  end.
Proof.
  intros H. unfold Typed.ingest.
  rewrite <- (forallb_perm _ _ _ (filter_perm Typed.numeric _ _ H)).
  destruct (forallb _ (filter Typed.numeric rows)); [|reflexivity].
  apply Permutation_map, filter_perm, H.
Qed.

Lemma sum_abs_perm (l l' : list Z) :
  Permutation l l' -> Typed.sum_abs l = Typed.sum_abs l'.
Proof. unfold Typed.sum_abs. induction 1; simpl; lia. Qed.

Lemma mean_perm (l l' : list Z) :
  Permutation l l' -> Typed.mean l = Typed.mean l'.
Proof.
  intros H. unfold Typed.mean, count.
  rewrite (sum_abs_perm _ _ H), (sum_perm _ _ H), (Permutation_length H).
  apply (perm_nil_cons l l' _ _ H).
Qed.

Lemma typed_group_perm (df df' : frame (Typed.Log.row Z)) (k : Typed.key) :
  Permutation (values df) (values df') ->
  Permutation (Typed.group k df) (Typed.group k df').
Proof.
  intros H. unfold Typed.group. now apply Permutation_map, filter_perm.
Qed.

Lemma typed_metrics_row_perm (df df' : frame (Typed.Log.row Z))
    (k : Typed.key) :
  Permutation (values df) (values df') ->
  Typed.metrics_row df k = Typed.metrics_row df' k.
Proof.
  intros H. pose proof (typed_group_perm df df' k H) as Hg.
  unfold Typed.metrics_row, count.
  now rewrite (sum_perm _ _ Hg), (Permutation_length Hg), (mean_perm _ _ Hg).
Qed.

Lemma typed_group_keys_perm (df df' : frame (Typed.Log.row Z)) :
  Permutation (values df) (values df') ->
  Typed.group_keys df = Typed.group_keys df'.
Proof.
  intros H. apply typed_sorted_unique;
    try apply typed_group_keys_sorted; try apply typed_group_keys_NoDup.
  intros k. rewrite !typed_group_keys_In, !typed_user_ids_In.
  split; apply Permutation_in;
    [|symmetry]; apply Permutation_map, H.
Qed.

Lemma typed_dfFinalReport_perm (df df' : frame (Typed.Log.row Z)) :
  Permutation (values df) (values df') ->
  Typed.dfFinalReport df = Typed.dfFinalReport df'.
Proof.
  intros H.
  rewrite !typed_dfFinalReport_rows, (typed_group_keys_perm df df' H).
  apply map_ext. intros k. now apply typed_metrics_row_perm.
Qed.



Lemma typed_outcome_perm (job_type id_type lookup_type : dtype)
    (csvLogFile csvLogFile' : list Typed.Csv.row)
    (csvLookUpTable : list Typed.LookUpCsv.row) (startDate endDate : string) :
  Permutation csvLogFile csvLogFile' ->
  Typed.outcome job_type id_type lookup_type csvLogFile csvLookUpTable
                startDate endDate
  = Typed.outcome job_type id_type lookup_type csvLogFile' csvLookUpTable
                  startDate endDate.
Proof.
  intros H. unfold Typed.outcome.
  pose proof (typed_ingest_perm job_type _ _
                (Permutation_map (Typed.typed_row id_type) H)) as Hi.
  rewrite <- (has_str_perm _ _ (Permutation_map Typed.Csv.WHEN_CREATED H)).
  destruct (Typed.ingest job_type (map (Typed.typed_row id_type) csvLogFile))
    as [e|l];
    destruct (Typed.ingest job_type (map (Typed.typed_row id_type) csvLogFile'))
    as [e'|l']; try contradiction.
  - now subst e'.
  - destruct l as [|r l].
    + apply Permutation_nil in Hi. now subst l'.
    + destruct l' as [|r' l'];
        [symmetry in Hi; apply Permutation_nil in Hi; discriminate|].
      destruct (Typed.has_str (map Typed.Csv.WHEN_CREATED csvLogFile));
        [|reflexivity].
      f_equal. apply typed_dfFinalReport_perm.
      rewrite !values_read_csv. now apply filter_perm.
Qed.

Lemma typed_main_perm (csvLogFile csvLogFile' : list Typed.Csv.row)
    (csvLookUpTable : list Typed.LookUpCsv.row) (startDate endDate : string) :
  Permutation csvLogFile csvLogFile' ->
  Typed.main csvLogFile' csvLookUpTable startDate endDate
  = Typed.main csvLogFile csvLookUpTable startDate endDate.
Proof.
  intros H.
  pose proof (job_dtype_perm _ _
                (Permutation_map Typed.Csv.NUM_SUBMITTED_REQUESTS H)) as Hj.
  pose proof (id_dtype_perm _ _ (Permutation_map Typed.Csv.USER_ID H)) as Hi.
  destruct (Typed.job_dtype (map Typed.Csv.NUM_SUBMITTED_REQUESTS csvLogFile))
    as [jt|] eqn:Ej.
  2:{ rewrite (typed_main_outside csvLogFile) by auto.
      rewrite (typed_main_outside csvLogFile') by (left; now rewrite <- Hj).
      reflexivity. }
  destruct (Typed.id_dtype (map Typed.Csv.USER_ID csvLogFile)) as [it|] eqn:Ei.
  2:{ rewrite (typed_main_outside csvLogFile) by auto.
      rewrite (typed_main_outside csvLogFile')
        by (right; left; now rewrite <- Hi).
      reflexivity. }
  destruct (Typed.id_dtype (map Typed.LookUpCsv.USER_ID csvLookUpTable))
    as [lt|] eqn:El.
  2:{ now rewrite !typed_main_outside by auto. }
  rewrite (typed_main_outcome jt it lt csvLogFile) by assumption.
  rewrite (typed_main_outcome jt it lt csvLogFile') by congruence.
  symmetry. now apply typed_outcome_perm.
Qed.




(* ================================================================== *)
(** * Typed columns: the date arguments *)




(* ================================================================== *)
(** * Typed columns: rows that are not numbers *)

(** The claim of C6 fails on the code.  [5.5] is not a valid integer, yet
    the row passes the numeric filter and is counted, as a job of 5
    addresses.  And a row that is dropped can still change the run: a
    repeated header line turns a [USER_ID] column of numbers into text, and
    the merge with a lookup table keyed by numbers raises. *)
Lemma fractional_row_is_counted :
  Typed.job_is_int (Typed.Csv.NUM_SUBMITTED_REQUESTS row_half) = false /\
  Typed.main [row1; row_half] [lookup_alice] "2019-09-01" "2019-09-02"
  = Typed.Done [Typed.Usage.mk (Typed.KText "u1") 10 2 (Some (5 # 1))
                  (Some "Alice") (Some "a@x.com") (Some "OrgA")] /\
  Typed.main [row1] [lookup_alice] "2019-09-01" "2019-09-02"
  = Typed.Done [Typed.Usage.mk (Typed.KText "u1") 5 1 (Some (5 # 1))
                  (Some "Alice") (Some "a@x.com") (Some "OrgA")] /\
  Typed.to_numeric (Typed.Csv.NUM_SUBMITTED_REQUESTS Typed.header_row) = None /\
  Typed.main [row_12; row_7] [lookup_1001] "2019-09-01" "2019-09-02"
  = Typed.Done [Typed.Usage.mk (Typed.KInt 7) 4 1 (Some (4 # 1))
                  None None None;
                Typed.Usage.mk (Typed.KInt 12) 6 1 (Some (6 # 1))
                  None None None] /\
  Typed.main [row_12; Typed.header_row; row_7] [lookup_1001]
             "2019-09-01" "2019-09-02"
  = Typed.Raises ValueError.
Proof. repeat split; vm_compute; reflexivity. Qed.

Lemma typed_numeric_int (r : Typed.Log.row Typed.job_cell) :
  Typed.numeric r = true ->
  Typed.job_is_int (Typed.Log.NUM_SUBMITTED_REQUESTS r) = true
  \/ Typed.to_numeric (Typed.Log.NUM_SUBMITTED_REQUESTS r) = None ->
  exists n, Typed.Log.NUM_SUBMITTED_REQUESTS r = Typed.JobInt n.
Proof.
  unfold Typed.numeric.
  destruct (Typed.Log.NUM_SUBMITTED_REQUESTS r) as [n|q| | |t];
    simpl; intros Hn [H|H]; try discriminate; now exists n.
Qed.

(** Rows of integers convert the same under every column type. *)
Lemma typed_ingest_int (dt dt' : dtype)
    (kept : list (Typed.Log.row Typed.job_cell)) :
  (forall r, In r kept ->
             exists n, Typed.Log.NUM_SUBMITTED_REQUESTS r = Typed.JobInt n) ->
  forallb (Typed.can_int dt) kept = forallb (Typed.can_int dt') kept /\
  map (Typed.as_int dt) kept = map (Typed.as_int dt') kept.
Proof.
  induction kept as [|r kept IH]; simpl; intros H; [auto|].
  destruct (H r (or_introl eq_refl)) as [n Hn].
  destruct IH as [IH1 IH2]; [intros x Hx; apply H; now right|].
  unfold Typed.can_int at 1 3, Typed.as_int at 1 3. rewrite Hn. simpl.
  now rewrite IH1, IH2.
Qed.

(** C6, amended -- a row whose job-size field fails the numeric coercion
    (text that is no number, or an empty cell) is dropped: added anywhere to
    a log whose numbers are in the range this part describes, it changes
    nothing of the run, the table included, provided it leaves the
    [USER_ID] and [WHEN_CREATED] columns of the type they had, and the
    job-size column too unless the other job sizes are integers. *)
Theorem malformed_row_dropped (before after : list Typed.Csv.row)
    (bad : Typed.Csv.row) (csvLookUpTable : list Typed.LookUpCsv.row)
    (startDate endDate : string) (job_type job_type' : dtype) :
  Typed.to_numeric (Typed.Csv.NUM_SUBMITTED_REQUESTS bad) = None ->
  Typed.job_dtype (map Typed.Csv.NUM_SUBMITTED_REQUESTS (before ++ after))
  = Some job_type ->
  Typed.job_dtype (map Typed.Csv.NUM_SUBMITTED_REQUESTS (before ++ bad :: after))
  = Some job_type' ->
  (job_type' = job_type
   \/ forall r, In r (before ++ after) ->
        Typed.job_is_int (Typed.Csv.NUM_SUBMITTED_REQUESTS r) = true
        \/ Typed.to_numeric (Typed.Csv.NUM_SUBMITTED_REQUESTS r) = None) ->
  Typed.id_dtype (map Typed.Csv.USER_ID (before ++ bad :: after))
  = Typed.id_dtype (map Typed.Csv.USER_ID (before ++ after)) ->
  Typed.has_str (map Typed.Csv.WHEN_CREATED (before ++ bad :: after))
  = Typed.has_str (map Typed.Csv.WHEN_CREATED (before ++ after)) ->
  Typed.main (before ++ bad :: after) csvLookUpTable startDate endDate
  = Typed.main (before ++ after) csvLookUpTable startDate endDate.
Proof.
  intros Hbad Hj Hj' Hrest Hi Hs.
  destruct (Typed.id_dtype (map Typed.Csv.USER_ID (before ++ after)))
    as [it|] eqn:Ei.
  2:{ now rewrite !typed_main_outside by auto. }
  destruct (Typed.id_dtype (map Typed.LookUpCsv.USER_ID csvLookUpTable))
    as [lt|] eqn:El.
  2:{ now rewrite !typed_main_outside by auto. }
  rewrite (typed_main_outcome job_type' it lt (before ++ bad :: after))
    by assumption.
  rewrite (typed_main_outcome job_type it lt (before ++ after)) by assumption.
  unfold Typed.outcome. rewrite Hs.
  assert (Hin : Typed.ingest job_type'
                  (map (Typed.typed_row it) (before ++ bad :: after))
                = Typed.ingest job_type
                    (map (Typed.typed_row it) (before ++ after))).
  { unfold Typed.ingest.
    assert (Hk : filter Typed.numeric
                   (map (Typed.typed_row it) (before ++ bad :: after))
                 = filter Typed.numeric
                     (map (Typed.typed_row it) (before ++ after))).
    { rewrite !map_app, !filter_app. simpl.
      unfold Typed.numeric at 2. simpl. now rewrite Hbad. }
    rewrite Hk. destruct Hrest as [->|Hints]; [reflexivity|].
    destruct (typed_ingest_int job_type' job_type
                (filter Typed.numeric
                        (map (Typed.typed_row it) (before ++ after))))
      as [H1 H2].
    - intros r Hr. apply filter_In in Hr. destruct Hr as [Hr Hnum].
      apply typed_numeric_int; [exact Hnum|].
      apply in_map_iff in Hr. destruct Hr as [c [<- Hc]]. simpl.
      now apply Hints.
    - now rewrite H1, H2. }
  now rewrite Hin.
Qed.

Lemma malformed_row_dropped_witness :
  Typed.to_numeric (Typed.Csv.NUM_SUBMITTED_REQUESTS Typed.header_row) = None /\
  Typed.main ([row1; row2] ++ Typed.header_row :: [row3]) [lookup_alice]
             "2019-09-01" "2019-09-02"
  = Typed.main ([row1; row2] ++ [row3]) [lookup_alice]
               "2019-09-01" "2019-09-02".
Proof.
  split; [reflexivity|].
  apply (malformed_row_dropped [row1; row2] [row3] Typed.header_row [lookup_alice]
           "2019-09-01" "2019-09-02" int64 object).
  - reflexivity.
  - reflexivity.
  - reflexivity.
  - right. simpl. intros r [<-|[<-|[<-|[]]]]; left; reflexivity.
  - reflexivity.
  - reflexivity.
Defined.

(* ================================================================== *)
(** * Typed columns: how a run ends *)

(** X8 -- the ways a run ends.  Once the two files are read into tables,
    steps 5 to 9 raise nothing but [ValueError], [IndexError] and
    [AttributeError] on the inputs this part describes, and each for one
    reason: a number that [astype(int)] does not convert (step 5), no row
    that holds a number ([index[0]]), a [WHEN_CREATED] column without a
    string ([.str]), and key columns of two kinds (the merge of step 9).
    The boolean indexers and the look-ups by label never raise. *)
Theorem run_ends_in_these_ways (csvLogFile : list Typed.Csv.row)
    (csvLookUpTable : list Typed.LookUpCsv.row) (startDate endDate : string)
    (err : exn) :
  Typed.main csvLogFile csvLookUpTable startDate endDate = Typed.Raises err ->
  exists job_type id_type lookup_type,
    Typed.job_dtype (map Typed.Csv.NUM_SUBMITTED_REQUESTS csvLogFile)
    = Some job_type /\
    Typed.id_dtype (map Typed.Csv.USER_ID csvLogFile) = Some id_type /\
    Typed.id_dtype (map Typed.LookUpCsv.USER_ID csvLookUpTable)
    = Some lookup_type /\
    let ingested :=
      Typed.ingest job_type (map (Typed.typed_row id_type) csvLogFile) in
    let strings := Typed.has_str (map Typed.Csv.WHEN_CREATED csvLogFile) in
    (err = ValueError /\ ingested = inl ValueError)
    \/ (err = IndexError /\ ingested = inr [])
    \/ (err = AttributeError /\ strings = false /\
        exists r rows, ingested = inr (r :: rows))
    \/ (err = ValueError /\ strings = true /\
        Typed.same_kind id_type lookup_type = false /\
        csvLookUpTable <> [] /\
        exists r rows, ingested = inr (r :: rows)).
Proof.
  intros H.
  destruct (Typed.job_dtype (map Typed.Csv.NUM_SUBMITTED_REQUESTS csvLogFile))
    as [jt|] eqn:Ej.
  2:{ rewrite typed_main_outside in H; [discriminate | auto]. }
  destruct (Typed.id_dtype (map Typed.Csv.USER_ID csvLogFile)) as [it|] eqn:Ei.
  2:{ rewrite typed_main_outside in H; [discriminate | auto]. }
  destruct (Typed.id_dtype (map Typed.LookUpCsv.USER_ID csvLookUpTable))
    as [lt|] eqn:El.
  2:{ rewrite typed_main_outside in H; [discriminate | auto]. }
  rewrite (typed_main_outcome jt it lt) in H by assumption.
  exists jt, it, lt. repeat split. cbv zeta.
  unfold Typed.outcome in H.
  assert (Herr : forall e, Typed.ingest jt (map (Typed.typed_row it) csvLogFile)
                           = inl e -> e = ValueError).
  { unfold Typed.ingest. intros e. destruct (forallb _ _); congruence. }
  destruct (Typed.ingest jt (map (Typed.typed_row it) csvLogFile))
    as [e|[|r rows]] eqn:Ein.
  - left. injection H as <-. rewrite (Herr e eq_refl). auto.
  - right. left. injection H as <-. auto.
  - destruct (Typed.has_str (map Typed.Csv.WHEN_CREATED csvLogFile)).
    + right. right. right. unfold Typed.dfCPFUsage in H.
      destruct (Typed.same_kind it lt); [discriminate H|].
      destruct (Typed.dfFinalReport _); [discriminate H|].
      destruct csvLookUpTable; [discriminate H|].
      injection H as <-. repeat split; try discriminate. now exists r, rows.
    + right. right. left. injection H as <-. repeat split. now exists r, rows.
Qed.

Lemma run_ends_in_these_ways_witness :
  exists job_type id_type lookup_type,
    Typed.job_dtype (map Typed.Csv.NUM_SUBMITTED_REQUESTS [row1; row2; row3])
    = Some job_type /\
    Typed.id_dtype (map Typed.Csv.USER_ID [row1; row2; row3]) = Some id_type /\
    Typed.id_dtype (map Typed.LookUpCsv.USER_ID [lookup_1001])
    = Some lookup_type.
Proof.
  assert (H : Typed.main [row1; row2; row3] [lookup_1001]
                         "2019-09-01" "2019-09-02"
              = Typed.Raises ValueError) by (vm_compute; reflexivity).
  destruct (run_ends_in_these_ways _ _ _ _ _ H)
    as [jt [it [lt [Hj [Hi [Hl _]]]]]].
  now exists jt, it, lt.
Defined.

(** X20 -- time stamps that are numbers.  When no cell of the
    [WHEN_CREATED] column is text, the column is a column of numbers and has
    no [.str]: a run that gets past step 5 with a row raises
    [AttributeError] at the date filter, whatever the two dates. *)
Theorem stamps_of_numbers_raise (csvLogFile : list Typed.Csv.row)
    (csvLookUpTable : list Typed.LookUpCsv.row) (startDate endDate : string)
    (job_type id_type lookup_type : dtype)
    (r : Typed.Log.row Z) (rows : list (Typed.Log.row Z)) :
  Typed.job_dtype (map Typed.Csv.NUM_SUBMITTED_REQUESTS csvLogFile)
  = Some job_type ->
  Typed.id_dtype (map Typed.Csv.USER_ID csvLogFile) = Some id_type ->
  Typed.id_dtype (map Typed.LookUpCsv.USER_ID csvLookUpTable)
  = Some lookup_type ->
  Typed.ingest job_type (map (Typed.typed_row id_type) csvLogFile)
  = inr (r :: rows) ->
  (forall c, In c csvLogFile ->
             Typed.stamp_is_text (Typed.Csv.WHEN_CREATED c) = false) ->
  Typed.main csvLogFile csvLookUpTable startDate endDate
  = Typed.Raises AttributeError.
Proof.
  intros Hj Hi Hl Hin Hs.
  rewrite (typed_main_outcome job_type id_type lookup_type) by assumption.
  unfold Typed.outcome. rewrite Hin.
  replace (Typed.has_str (map Typed.Csv.WHEN_CREATED csvLogFile)) with false;
    [reflexivity|].
  unfold Typed.has_str.
  destruct csvLogFile as [|c l]; [discriminate Hin|].
  symmetry. apply Bool.not_true_iff_false. intros E.
  apply existsb_exists in E. destruct E as [x [Hx Ex]].
  apply in_map_iff in Hx. destruct Hx as [c' [<- Hc']].
  now rewrite (Hs c' Hc') in Ex.
Qed.

Lemma stamps_of_numbers_raise_witness :
  Typed.main [Typed.Csv.mk (Typed.IdText "u1") (Typed.StampNumber "20190901")
                           (Typed.JobInt 5)]
             [lookup_alice] "20190901" "20190902"
  = Typed.Raises AttributeError.
Proof.
  apply (stamps_of_numbers_raise _ _ _ _ int64 object object
           (Typed.Log.mk (Some (Typed.KText "u1")) (Some "20190901") 5) []);
    try reflexivity.
  intros c [<-|[]]. reflexivity.
Defined.

(* ================================================================== *)
(** * Typed columns: more on step 5 *)

Lemma typed_step5_raises_iff (dt : dtype)
    (rows : list (Typed.Log.row Typed.job_cell)) :
  (exists e, Typed.step5 dt (read_csv rows) = inl e)
  <-> forallb (Typed.can_int dt) (filter Typed.numeric rows) = false.
Proof.
  pose proof (typed_step5_read_csv dt rows) as H. unfold Typed.ingest in H.
  destruct (Typed.step5 dt (read_csv rows)) as [e|df];
    destruct (forallb _ (filter Typed.numeric rows)); try discriminate H.
  - split; [reflexivity | intros _; now exists e].
  - split; [intros [e He]; discriminate He | discriminate].
  - destruct H as [H _]. discriminate H.
Qed.

Lemma typed_step5_error (dt : dtype)
    (rows : list (Typed.Log.row Typed.job_cell)) (e : exn) :
  Typed.step5 dt (read_csv rows) = inl e -> e = ValueError.
Proof.
  rewrite (typed_step5_spec dt _ (read_csv_NoDup rows)).
  destruct (forallb _ _); congruence.
Qed.

(** X13 -- when step 5 raises.  On a column whose numbers are within the
    range this part describes, [astype(int)] raises, always [ValueError],
    exactly when the job-size column holds an infinite number, or both a
    number that is no integer and a cell of text: the text makes the column
    a column of objects, in which the other does not convert. *)
Theorem step5_raises_on_mixed_column
    (rows : list (Typed.Log.row Typed.job_cell)) (dt : dtype) :
  Typed.job_dtype (map Typed.Log.NUM_SUBMITTED_REQUESTS rows) = Some dt ->
  ((exists e, Typed.step5 dt (read_csv rows) = inl e)
   <-> (exists r, In r rows /\ Typed.Log.NUM_SUBMITTED_REQUESTS r = Typed.JobInf)
       \/ ((exists r q, In r rows
                        /\ Typed.Log.NUM_SUBMITTED_REQUESTS r = Typed.JobFloat q)
           /\ (exists r t, In r rows
                           /\ Typed.Log.NUM_SUBMITTED_REQUESTS r
                              = Typed.JobText t)))
  /\ (forall e, Typed.step5 dt (read_csv rows) = inl e -> e = ValueError).
Proof.
  intros Hd.
  assert (Edt : dt = Typed.infer_dtype
                       (map Typed.Log.NUM_SUBMITTED_REQUESTS rows)).
  { unfold Typed.job_dtype in Hd. destruct (forallb _ _); congruence. }
  clear Hd. subst dt. split; [|intros e; apply typed_step5_error].
  rewrite typed_step5_raises_iff, forallb_false. split.
  - intros [r [Hr Hc]]. apply filter_In in Hr. destruct Hr as [Hin Hnum].
    unfold Typed.can_int in Hc. unfold Typed.numeric in Hnum.
    destruct (Typed.Log.NUM_SUBMITTED_REQUESTS r) as [n|q| | |t] eqn:E;
      try discriminate.
    + right. split; [now exists r, q|].
      assert (Hcell : In (Typed.JobFloat q)
                         (map Typed.Log.NUM_SUBMITTED_REQUESTS rows)).
      { rewrite <- E. now apply in_map. }
      unfold Typed.astype_int, Typed.infer_dtype in Hc.
      destruct (map Typed.Log.NUM_SUBMITTED_REQUESTS rows) as [|c0 col] eqn:Ecol;
        [destruct Hcell|]. rewrite <- Ecol in *. clear Ecol c0 col.
      destruct (forallb Typed.job_is_int _) eqn:Ei.
      { rewrite forallb_forall in Ei. discriminate (Ei _ Hcell). }
      destruct (forallb Typed.job_is_float _) eqn:Ef; [discriminate|].
      apply forallb_false in Ef. destruct Ef as [c [Hc' Hf]].
      apply in_map_iff in Hc'. destruct Hc' as [r' [<- Hr']].
      destruct (Typed.Log.NUM_SUBMITTED_REQUESTS r') as [n'|q'| | |t'] eqn:E';
        try discriminate. now exists r', t'.
    + left. now exists r.
  - intros [[r [Hr Einf]]|[[r [q [Hr Eq]]] [r' [t [Hr' Et]]]]].
    + exists r. split.
      * apply filter_In. split; [exact Hr|]. unfold Typed.numeric.
        now rewrite Einf.
      * unfold Typed.can_int. now rewrite Einf.
    + exists r. split.
      * apply filter_In. split; [exact Hr|]. unfold Typed.numeric.
        now rewrite Eq.
      * unfold Typed.can_int. rewrite Eq.
        unfold Typed.astype_int, Typed.infer_dtype.
        assert (H1 : In (Typed.JobFloat q)
                        (map Typed.Log.NUM_SUBMITTED_REQUESTS rows))
          by (rewrite <- Eq; now apply in_map).
        assert (H2 : In (Typed.JobText t)
                        (map Typed.Log.NUM_SUBMITTED_REQUESTS rows))
          by (rewrite <- Et; now apply in_map).
        destruct (map Typed.Log.NUM_SUBMITTED_REQUESTS rows)
          as [|c0 col] eqn:Ecol; [destruct H1|].
        rewrite <- Ecol in *. clear Ecol c0 col.
        destruct (forallb Typed.job_is_int _) eqn:Ei.
        { rewrite forallb_forall in Ei. discriminate (Ei _ H1). }
        destruct (forallb Typed.job_is_float _) eqn:Ef; [|reflexivity].
        rewrite forallb_forall in Ef. discriminate (Ef _ H2).
Qed.

Lemma step5_raises_on_mixed_column_witness :
  Typed.step5 object
    (read_csv (map (Typed.typed_row object) [row_half; Typed.header_row]))
  = inl ValueError.
Proof.
  destruct (step5_raises_on_mixed_column
              (map (Typed.typed_row object) [row_half; Typed.header_row])
              object eq_refl) as [Hiff Herr].
  destruct (proj2 Hiff) as [e He].
  - right. split.
    + exists (Typed.typed_row object row_half), (55 # 10).
      split; [simpl; auto | reflexivity].
    + exists (Typed.typed_row object Typed.header_row),
             "NUM_SUBMITTED_REQUESTS".
      split; [simpl; auto | reflexivity].
  - rewrite He. f_equal. now apply Herr.
Defined.

Lemma job_fits_int64 (dt : dtype) (c : Typed.job_cell) (n : Z) :
  Typed.job_fits dt c = true -> Typed.astype_int dt c = inr n ->
  Typed.in_int64 n = true.
Proof.
  destruct c as [m|q| | |t]; simpl; try discriminate.
  - intros Hf H. injection H as <-. destruct dt; try exact Hf.
    apply Z.leb_le in Hf. unfold Typed.in_int64.
    apply andb_true_intro. split; [apply Z.leb_le | apply Z.ltb_lt]; lia.
  - destruct dt; try discriminate. intros Hf H. now injection H as <-.
Qed.

(** X18 -- what step 5 keeps.  When step 5 completes, its rows are the rows
    of the file that hold a number, in the order of the file, each with its
    user id and time stamp, an integer as it is and another number cut to an
    integer towards zero; every one of these integers is an [int64]. *)
Theorem step5_keeps_the_numbers (rows : list (Typed.Log.row Typed.job_cell))
    (dt : dtype) (csvLogFileContent : frame (Typed.Log.row Z)) :
  Typed.job_dtype (map Typed.Log.NUM_SUBMITTED_REQUESTS rows) = Some dt ->
  Typed.step5 dt (read_csv rows) = inr csvLogFileContent ->
  Forall2 Typed.converted
          (filter (fun r => notnull (Typed.to_numeric
                                       (Typed.Log.NUM_SUBMITTED_REQUESTS r)))
                  rows)
          (values csvLogFileContent) /\
  Forall (fun out => - 2 ^ 63 <= Typed.Log.NUM_SUBMITTED_REQUESTS out < 2 ^ 63)
         (values csvLogFileContent).
Proof.
  intros Hd H. pose proof (typed_step5_read_csv dt rows) as H5.
  rewrite H in H5. destruct H5 as [Hi _]. unfold Typed.ingest in Hi.
  destruct (forallb (Typed.can_int dt) (filter Typed.numeric rows)) eqn:Ec;
    [|discriminate Hi].
  injection Hi as <-.
  unfold Typed.job_dtype in Hd.
  destruct (forallb _ (map Typed.Log.NUM_SUBMITTED_REQUESTS rows)) eqn:Ef;
    [|discriminate Hd].
  injection Hd as Hd. rewrite Hd in Ef.
  rewrite forallb_forall in Ec, Ef.
  split.
  - apply Forall2_map_r. intros r Hr. specialize (Ec r Hr).
    unfold Typed.can_int in Ec. unfold Typed.converted, Typed.as_int.
    cbn [Typed.Log.USER_ID Typed.Log.WHEN_CREATED
         Typed.Log.NUM_SUBMITTED_REQUESTS].
    split; [reflexivity|]. split; [reflexivity|].
    destruct (Typed.Log.NUM_SUBMITTED_REQUESTS r) as [n|q| | |t];
      simpl in Ec |- *; try discriminate Ec; [reflexivity|].
    destruct dt; try discriminate Ec. reflexivity.
  - apply Forall_forall. intros out Hout. apply in_map_iff in Hout.
    destruct Hout as [r [<- Hr]]. specialize (Ec r Hr).
    apply filter_In in Hr. destruct Hr as [Hr _].
    assert (Hfit : Typed.job_fits dt (Typed.Log.NUM_SUBMITTED_REQUESTS r) = true)
      by (apply Ef; now apply in_map).
    unfold Typed.can_int in Ec. unfold Typed.as_int.
    cbn [Typed.Log.NUM_SUBMITTED_REQUESTS].
    destruct (Typed.astype_int dt (Typed.Log.NUM_SUBMITTED_REQUESTS r))
      as [e|n] eqn:Ea; [discriminate Ec|].
    pose proof (job_fits_int64 dt _ n Hfit Ea) as Hn.
    unfold Typed.in_int64 in Hn. apply andb_prop in Hn.
    destruct Hn as [H1 H2]. apply Z.leb_le in H1. apply Z.ltb_lt in H2. lia.
Qed.

Lemma step5_keeps_the_numbers_witness :
  let rows := [ Typed.typed_row object row1;
                Typed.Log.mk (Some (Typed.KText "u1"))
                             (Some "2019-09-01 00:00:00.000")
                             (Typed.JobFloat (- 19 # 10)) ] in
  Forall2 Typed.converted rows
          [ Typed.Log.mk (Some (Typed.KText "u1"))
                         (Some "2019-09-01 00:00:00.000") 5;
            Typed.Log.mk (Some (Typed.KText "u1"))
                         (Some "2019-09-01 00:00:00.000") (-1) ].
Proof.
  intros rows.
  exact (proj1 (step5_keeps_the_numbers rows float64 _ eq_refl eq_refl)).
Defined.

(* ================================================================== *)
(** * Typed columns: the merge of the daily files *)

Lemma typed_numeric_ints (id_type : dtype) (rows : list Typed.Csv.row) :
  (forall r, In r rows ->
             exists n, Typed.Csv.NUM_SUBMITTED_REQUESTS r = Typed.JobInt n) ->
  filter Typed.numeric (map (Typed.typed_row id_type) rows)
  = map (Typed.typed_row id_type) rows.
Proof.
  intros H. apply filter_all. intros r Hr. apply in_map_iff in Hr.
  destruct Hr as [c [<- Hc]]. destruct (H c Hc) as [n Hn].
  unfold Typed.numeric. simpl. now rewrite Hn.
Qed.

Lemma typed_numeric_merged (id_type : dtype) (logs : list (list Typed.Csv.row)) :
  (forall r, In r (List.concat logs) ->
             exists n, Typed.Csv.NUM_SUBMITTED_REQUESTS r = Typed.JobInt n) ->
  filter Typed.numeric
         (map (Typed.typed_row id_type)
              (flat_map (fun f => Typed.header_row :: f) logs))
  = map (Typed.typed_row id_type) (List.concat logs).
Proof.
  induction logs as [|f logs IH]; intros H; [reflexivity|].
  cbn [flat_map List.concat].
  rewrite !map_app, filter_app, IH.
  - f_equal. cbn [map filter].
    change (Typed.numeric (Typed.typed_row id_type Typed.header_row))
      with false.
    apply typed_numeric_ints.
    intros r Hr. apply H. cbn [List.concat]. apply in_or_app. now left.
  - intros r Hr. apply H. cbn [List.concat]. apply in_or_app. now right.
Qed.

(** X6 -- the headers of the merge.  When the daily files hold integer job
    sizes, each within [int64], step 5 leaves exactly their rows, in the
    order of the files: the header line of every file but the first, which
    the merge turns into a row, is removed. *)
Theorem merged_headers_removed (first : list Typed.Csv.row)
    (others : list (list Typed.Csv.row)) (table : list Typed.Csv.row)
    (job_type id_type : dtype) :
  Typed.merged_table (first :: others) = Some table ->
  Typed.job_dtype (map Typed.Csv.NUM_SUBMITTED_REQUESTS table)
  = Some job_type ->
  Typed.id_dtype (map Typed.Csv.USER_ID table) = Some id_type ->
  (forall r, In r (List.concat (first :: others)) ->
             exists n, Typed.Csv.NUM_SUBMITTED_REQUESTS r = Typed.JobInt n) ->
  List.length table
  = (List.length (List.concat (first :: others)) + List.length others)%nat /\
  exists csvLogFileContent,
    Typed.step5 job_type (read_csv (map (Typed.typed_row id_type) table))
    = inr csvLogFileContent /\
    Forall2 (fun r out =>
               Typed.typed_row id_type r
               = Typed.Log.mk (Typed.Log.USER_ID out)
                              (Typed.Log.WHEN_CREATED out)
                              (Typed.JobInt (Typed.Log.NUM_SUBMITTED_REQUESTS out)))
            (List.concat (first :: others)) (values csvLogFileContent).
Proof.
  intros Ht _ _ Hints. injection Ht as <-. split.
  - clear. cbn [List.concat]. rewrite !length_app, <- Nat.add_assoc. f_equal.
    induction others as [|f others IH]; [reflexivity|].
    simpl. rewrite !length_app, IH. lia.
  - set (table := (first ++ flat_map (fun f => Typed.header_row :: f)
                                      others)%list).
    assert (Hing : Typed.ingest job_type (map (Typed.typed_row id_type) table)
                   = inr (map (Typed.as_int job_type)
                              (map (Typed.typed_row id_type)
                                   (List.concat (first :: others))))).
    { unfold Typed.ingest, table.
      rewrite map_app, filter_app, typed_numeric_ints, typed_numeric_merged.
      - rewrite <- map_app.
        change (first ++ List.concat others)%list
          with (List.concat (first :: others)).
        replace (forallb (Typed.can_int job_type)
                   (map (Typed.typed_row id_type)
                        (List.concat (first :: others))))
          with true; [reflexivity|].
        symmetry. apply forallb_forall. intros r Hr. apply in_map_iff in Hr.
        destruct Hr as [c [<- Hc]]. destruct (Hints c Hc) as [n Hn].
        unfold Typed.can_int. simpl. now rewrite Hn.
      - intros r Hr. apply Hints. cbn [List.concat]. apply in_or_app.
        now right.
      - intros r Hr. apply Hints. cbn [List.concat]. apply in_or_app.
        now left. }
    pose proof (typed_step5_read_csv job_type
                  (map (Typed.typed_row id_type) table)) as H5.
    rewrite Hing in H5.
    destruct (Typed.step5 job_type
                (read_csv (map (Typed.typed_row id_type) table)))
      as [e|df]; [discriminate H5|].
    exists df. split; [reflexivity|]. destruct H5 as [H5 _].
    injection H5 as <-. rewrite map_map. apply Forall2_map_r.
    intros c Hc. destruct (Hints c Hc) as [n Hn].
    unfold Typed.as_int, Typed.typed_row. simpl. now rewrite Hn.
Qed.

Lemma merged_headers_removed_witness :
  exists csvLogFileContent,
    Typed.step5 object
      (read_csv (map (Typed.typed_row object)
                     [row1; row2; Typed.header_row; row3]))
    = inr csvLogFileContent /\
    List.length csvLogFileContent = 3%nat.
Proof.
  destruct (merged_headers_removed [row1; row2] [[row3]]
              [row1; row2; Typed.header_row; row3] object object
              eq_refl eq_refl eq_refl)
    as [_ [df [H5 Hrows]]].
  - simpl. intros r [<-|[<-|[<-|[]]]]; eexists; reflexivity.
  - exists df. split; [exact H5|].
    apply Forall2_length in Hrows. unfold values in Hrows.
    rewrite length_map in Hrows. now rewrite <- Hrows.
Defined.

Lemma header_row_in_merged (first f : list Typed.Csv.row)
    (others : list (list Typed.Csv.row)) (table : list Typed.Csv.row) :
  Typed.merged_table (first :: f :: others) = Some table ->
  In Typed.header_row table.
Proof.
  intros H. injection H as <-. apply in_or_app. right. simpl. now left.
Qed.

(** X19 -- an archive of two or more files.  The header line that every
    file after the first leaves in the table is text in each of its cells:
    the three columns are then columns of strings, whatever the files hold.
    So user ids written with digits only are compared as text ([007] is not
    [7]), and a job size that is a number but no integer makes step 5 raise
    instead of being cut to an integer. *)
Theorem merged_columns_are_text (first f : list Typed.Csv.row)
    (others : list (list Typed.Csv.row)) (table : list Typed.Csv.row) :
  Typed.merged_table (first :: f :: others) = Some table ->
  Typed.id_dtype (map Typed.Csv.USER_ID table) = Some object /\
  Typed.has_str (map Typed.Csv.WHEN_CREATED table) = true /\
  Typed.infer_dtype (map Typed.Csv.NUM_SUBMITTED_REQUESTS table) = object /\
  (forall csvLookUpTable startDate endDate job_type lookup_type r q,
     Typed.job_dtype (map Typed.Csv.NUM_SUBMITTED_REQUESTS table)
     = Some job_type ->
     Typed.id_dtype (map Typed.LookUpCsv.USER_ID csvLookUpTable)
     = Some lookup_type ->
     In r table ->
     Typed.Csv.NUM_SUBMITTED_REQUESTS r = Typed.JobFloat q ->
     Typed.main table csvLookUpTable startDate endDate
     = Typed.Raises ValueError).
Proof.
  intros Ht. pose proof (header_row_in_merged _ _ _ _ Ht) as Hh.
  assert (Hid : Typed.id_dtype (map Typed.Csv.USER_ID table) = Some object).
  { unfold Typed.id_dtype.
    replace (existsb Typed.id_is_text (map Typed.Csv.USER_ID table)) with true.
    - now destruct (map Typed.Csv.USER_ID table).
    - symmetry. apply existsb_exists. exists (Typed.IdText "USER_ID").
      split; [|reflexivity].
      change (Typed.IdText "USER_ID") with (Typed.Csv.USER_ID Typed.header_row).
      now apply in_map. }
  assert (Hjob : Typed.infer_dtype (map Typed.Csv.NUM_SUBMITTED_REQUESTS table)
                 = object).
  { unfold Typed.infer_dtype.
    assert (Hin : In (Typed.JobText "NUM_SUBMITTED_REQUESTS")
                     (map Typed.Csv.NUM_SUBMITTED_REQUESTS table)).
    { change (Typed.JobText "NUM_SUBMITTED_REQUESTS")
        with (Typed.Csv.NUM_SUBMITTED_REQUESTS Typed.header_row).
      now apply in_map. }
    destruct (map Typed.Csv.NUM_SUBMITTED_REQUESTS table) as [|c0 col] eqn:Ecol;
      [reflexivity|]. rewrite <- Ecol in *. clear Ecol c0 col.
    destruct (forallb Typed.job_is_int _) eqn:Ei.
    { rewrite forallb_forall in Ei. discriminate (Ei _ Hin). }
    destruct (forallb Typed.job_is_float _) eqn:Ef; [|reflexivity].
    rewrite forallb_forall in Ef. discriminate (Ef _ Hin). }
  split; [exact Hid|]. split; [|split; [exact Hjob|]].
  - unfold Typed.has_str.
    replace (existsb Typed.stamp_is_text (map Typed.Csv.WHEN_CREATED table))
      with true.
    + now destruct (map Typed.Csv.WHEN_CREATED table).
    + symmetry. apply existsb_exists. exists (Typed.StampText "WHEN_CREATED").
      split; [|reflexivity].
      change (Typed.StampText "WHEN_CREATED")
        with (Typed.Csv.WHEN_CREATED Typed.header_row).
      now apply in_map.
  - intros D s e jt lt r q Hj Hl Hr Hq.
    assert (jt = object).
    { unfold Typed.job_dtype in Hj. rewrite Hjob in Hj.
      destruct (forallb _ _); congruence. }
    subst jt.
    rewrite (typed_main_outcome object object lt) by assumption.
    unfold Typed.outcome, Typed.ingest.
    replace (forallb (Typed.can_int object)
               (filter Typed.numeric (map (Typed.typed_row object) table)))
      with false; [reflexivity|].
    symmetry. apply forallb_false. exists (Typed.typed_row object r). split.
    + apply filter_In. split; [now apply in_map|].
      unfold Typed.numeric. simpl. now rewrite Hq.
    + unfold Typed.can_int. simpl. now rewrite Hq.
Qed.

Lemma merged_columns_are_text_witness :
  Typed.main [row1; Typed.header_row; row_half] [lookup_alice]
             "2019-09-01" "2019-09-02"
  = Typed.Raises ValueError.
Proof.
  destruct (merged_columns_are_text [row1] [row_half] []
              [row1; Typed.header_row; row_half] eq_refl)
    as [_ [_ [_ H]]].
  apply (H [lookup_alice] "2019-09-01" "2019-09-02" object object
           row_half (55 # 10)); try reflexivity.
  simpl. auto.
Defined.

Lemma typed_merged_table_perm (logs logs' : list (list Typed.Csv.row))
    (table table' : list Typed.Csv.row) :
  Permutation logs logs' ->
  Typed.merged_table logs = Some table ->
  Typed.merged_table logs' = Some table' ->
  Permutation table table'.
Proof.
  intros Hp Ht Ht'.
  assert (Hflat : forall l t, Typed.merged_table l = Some t ->
            Typed.header_row :: t
            = flat_map (fun f => Typed.header_row :: f) l).
  { intros [|f l] t E; [discriminate|]. now injection E as <-. }
  apply (Permutation_cons_inv (a := Typed.header_row)).
  rewrite (Hflat _ _ Ht), (Hflat _ _ Ht').
  now apply Permutation_flat_map.
Qed.

(** X7 -- the order of the daily files.  [glob] lists the files in no fixed
    order, and the first one lends its header to the table; whatever the
    order, the run ends the same way and writes the same table (the averages
    where this part gives them: job sizes adding up to at most [2^53]). *)
Theorem file_order_does_not_matter (logs logs' : list (list Typed.Csv.row))
    (table table' : list Typed.Csv.row)
    (csvLookUpTable : list Typed.LookUpCsv.row) (startDate endDate : string) :
  Permutation logs logs' ->
  Typed.merged_table logs = Some table ->
  Typed.merged_table logs' = Some table' ->
  Typed.main table' csvLookUpTable startDate endDate
  = Typed.main table csvLookUpTable startDate endDate.
Proof.
  intros Hp Ht Ht'. apply typed_main_perm.
  exact (typed_merged_table_perm logs logs' table table' Hp Ht Ht').
Qed.

Lemma file_order_does_not_matter_witness :
  Typed.main [row3; Typed.header_row; row1; row2] [lookup_alice]
             "2019-09-01" "2019-09-02"
  = Typed.main [row1; row2; Typed.header_row; row3] [lookup_alice]
               "2019-09-01" "2019-09-02".
Proof.
  assert (Hp : Permutation [[row1; row2]; [row3]] [[row3]; [row1; row2]])
    by apply perm_swap.
  apply (file_order_does_not_matter [[row1; row2]; [row3]]
           [[row3]; [row1; row2]] _ _ [lookup_alice]
           "2019-09-01" "2019-09-02" Hp eq_refl eq_refl).
Defined.

(* ================================================================== *)
(** * Typed columns: more on the aggregates *)

Lemma typed_matches_at_most_one {R} (key : R -> option Typed.key)
    (k : Typed.key) (right : list R) :
  NoDup (Typed.dropna (map key right)) ->
  (List.length (Typed.matches key k right) <= 1)%nat.
Proof.
  induction right as [|r right IH]; simpl; intros Hnd; [lia|].
  destruct (key r) as [k'|] eqn:Ek; simpl in Hnd; [|auto].
  inversion Hnd; subst.
  destruct (key_eqb_spec k' k) as [E|E]; [|auto].
  simpl. rewrite (typed_matches_none key k right); [simpl; lia|].
  subst k'. now rewrite <- dropna_In.
Qed.

Lemma typed_join_length (M : list Typed.Final.row)
    (D : list Typed.LookUp.row) :
  (List.length M <= List.length (Typed.join M D))%nat /\
  (NoDup (Typed.dropna (map Typed.LookUp.USER_ID D)) ->
   List.length (Typed.join M D) = List.length M).
Proof.
  rewrite typed_join_flat_map. induction M as [|f M [IH1 IH2]]; simpl; [auto|].
  rewrite length_app, typed_joined_length. split.
  - lia.
  - intros Hnd. rewrite (IH2 Hnd).
    pose proof (typed_matches_at_most_one Typed.LookUp.USER_ID
                  (Typed.Final.USER_ID f) D Hnd).
    lia.
Qed.

(** X10 -- the number of users.  The number the run prints,
    [len(seriesTotalAddresses)], is the number of distinct user ids among
    the trimmed records, a missing id not counted; the three series have
    that many entries.  The joined table has at least that many rows, and
    exactly that many when no user id occurs twice in the lookup table. *)
Theorem number_of_users (trimmed : frame (Typed.Log.row Z))
    (dir : list Typed.LookUp.row) :
  let users := List.length (Typed.unique (Typed.user_ids trimmed)) in
  List.length (Typed.groupby_sum trimmed) = users /\
  List.length (Typed.groupby_mean trimmed) = users /\
  List.length (Typed.value_counts trimmed) = users /\
  (users <= List.length (Typed.join (Typed.dfFinalReport trimmed) dir))%nat /\
  (NoDup (Typed.dropna (map Typed.LookUp.USER_ID dir)) ->
   List.length (Typed.join (Typed.dfFinalReport trimmed) dir) = users).
Proof.
  intros users.
  assert (Hk : List.length (Typed.group_keys trimmed) = users).
  { symmetry. apply Permutation_length, typed_sort_keys_perm. }
  assert (Hl : List.length (Typed.dfFinalReport trimmed) = users).
  { now rewrite typed_dfFinalReport_rows, length_map. }
  split; [|split; [|split]].
  - unfold Typed.groupby_sum. now rewrite length_map.
  - unfold Typed.groupby_mean. now rewrite length_map.
  - rewrite <- (Permutation_length (typed_value_counts_perm trimmed)).
    now rewrite length_map.
  - destruct (typed_join_length (Typed.dfFinalReport trimmed) dir) as [H1 H2].
    rewrite <- Hl. split; [exact H1 | exact H2].
Qed.

Lemma number_of_users_witness :
  List.length (Typed.groupby_sum typed_trimmed) = 2%nat /\
  List.length (Typed.join (Typed.dfFinalReport typed_trimmed) [typed_alice])
  = 2%nat.
Proof.
  destruct (number_of_users typed_trimmed [typed_alice])
    as [Hs [_ [_ [_ Hn]]]].
  split; [exact Hs|].
  apply Hn. simpl. constructor; [intros [] | constructor].
Defined.

Lemma wrap64_mod (a : Z) : Typed.wrap64 a mod 2 ^ 64 = a mod 2 ^ 64.
Proof.
  unfold Typed.wrap64.
  rewrite <- (Zminus_mod_idemp_l ((a + 2 ^ 63) mod 2 ^ 64)).
  rewrite Z.mod_mod by lia. rewrite Zminus_mod_idemp_l.
  f_equal. lia.
Qed.

Lemma wrap64_congr (a b : Z) :
  a mod 2 ^ 64 = b mod 2 ^ 64 -> Typed.wrap64 a = Typed.wrap64 b.
Proof.
  intros H. unfold Typed.wrap64.
  rewrite <- (Zplus_mod_idemp_l a), <- (Zplus_mod_idemp_l b), H. reflexivity.
Qed.

Lemma sum_wrap64 {A} (f : A -> Z) (l : list A) :
  Typed.wrap64 (sum (map (fun x => Typed.wrap64 (f x)) l))
  = Typed.wrap64 (sum (map f l)).
Proof.
  apply wrap64_congr. unfold sum.
  induction l as [|a l IH]; cbn [map fold_right]; [reflexivity|].
  rewrite Zplus_mod, IH, wrap64_mod, <- Zplus_mod. reflexivity.
Qed.

Lemma sum_filter_by {A} (w : A -> Z) (p q : A -> bool) (l : list A) :
  (forall x, p x = true -> q x = true) ->
  sum (map w (filter q l))
  = sum (map w (filter p l))
    + sum (map w (filter q (filter (fun x => negb (p x)) l))).
Proof.
  intros Hpq. unfold sum. induction l as [|a l IH]; simpl; [reflexivity|].
  destruct (p a) eqn:Ep; simpl.
  - rewrite (Hpq a Ep). simpl. lia.
  - destruct (q a); simpl; lia.
Qed.

(** Summing a weight key by key, over keys without repetition that cover
    the rows, sums it over the rows that have a key. *)
Lemma typed_sum_by_key {A} (key : A -> option Typed.key) (w : A -> Z)
    (keys : list Typed.key) (l : list A) :
  NoDup keys ->
  (forall x k, In x l -> key x = Some k -> In k keys) ->
  sum (map (fun k => sum (map w (filter (fun x => match key x with
                                                  | Some k' => Typed.key_eqb k' k
                                                  | None => false
                                                  end) l))) keys)
  = sum (map w (filter (fun x => notnull (key x)) l)).
Proof.
  intros Hnd. revert l.
  induction Hnd as [|k keys Hk Hnd IH]; intros l Hcov.
  - rewrite filter_none; [reflexivity|].
    intros x Hx. destruct (key x) as [k|] eqn:E; [|reflexivity].
    destruct (Hcov x k Hx E).
  - cbn [map]. change (sum (?a :: ?l)) with (a + sum l).
    set (p := fun x => match key x with
                       | Some k' => Typed.key_eqb k' k
                       | None => false
                       end).
    rewrite (sum_filter_by w p (fun x => notnull (key x)) l).
    2:{ intros x. unfold p. now destruct (key x). }
    f_equal.
    rewrite <- (IH (filter (fun x => negb (p x)) l)).
    + f_equal. apply map_ext_in. intros k' Hk'. do 2 f_equal.
      rewrite filter_filter. apply filter_ext. intros a. unfold p.
      destruct (key a) as [ka|]; [|reflexivity].
      destruct (key_eqb_spec ka k) as [E|E]; simpl; [|reflexivity].
      destruct (key_eqb_spec ka k') as [E'|E']; [|reflexivity].
      exfalso. apply Hk. congruence.
    + intros x kx Hx Ex. apply filter_In in Hx. destruct Hx as [Hx Hne].
      destruct (Hcov x kx Hx Ex) as [E|Hin]; [|exact Hin].
      unfold p in Hne. rewrite Ex, <- E, key_eqb_refl in Hne. discriminate.
Qed.

Lemma typed_group_sums (df : frame (Typed.Log.row Z)) :
  sum (map (fun k => sum (Typed.group k df)) (Typed.group_keys df))
  = sum (map Typed.Log.NUM_SUBMITTED_REQUESTS
             (Typed.with_user_id (values df))).
Proof.
  unfold Typed.group, Typed.with_user_id.
  apply (typed_sum_by_key Typed.Log.USER_ID Typed.Log.NUM_SUBMITTED_REQUESTS).
  - apply typed_group_keys_NoDup.
  - intros r k Hr Hk. apply typed_group_keys_In, typed_user_ids_In.
    rewrite <- Hk. now apply in_map.
Qed.

Lemma sum_abs_filter {A} (w : A -> Z) (p : A -> bool) (l : list A) :
  Typed.sum_abs (map w (filter p l)) <= Typed.sum_abs (map w l).
Proof.
  unfold Typed.sum_abs. induction l as [|a l IH]; simpl; [lia|].
  destruct (p a); simpl; lia.
Qed.

(** X11 -- the totals add up.  The totals of [groupby(...).sum()], and the
    [Total] column of the merged report, sum to the sum of the job sizes of
    the trimmed records that have a user id, all sums taken in [int64]: no
    such record is counted twice or left out.  When the job sizes of all
    trimmed records add up to at most [2^53] in absolute value, no sum wraps
    around. *)
Theorem totals_add_up (trimmed : frame (Typed.Log.row Z)) :
  let sizes := map Typed.Log.NUM_SUBMITTED_REQUESTS
                   (Typed.with_user_id (values trimmed)) in
  Typed.wrap64 (sum (map snd (Typed.groupby_sum trimmed)))
  = Typed.wrap64 (sum sizes) /\
  Typed.wrap64 (sum (map Typed.Final.Total (Typed.dfFinalReport trimmed)))
  = Typed.wrap64 (sum sizes) /\
  (Typed.sum_abs (map Typed.Log.NUM_SUBMITTED_REQUESTS (values trimmed))
   <= 2 ^ 53 ->
   sum (map snd (Typed.groupby_sum trimmed)) = sum sizes /\
   sum (map Typed.Final.Total (Typed.dfFinalReport trimmed)) = sum sizes).
Proof.
  intros sizes.
  assert (Hs : map snd (Typed.groupby_sum trimmed)
               = map (fun k => Typed.wrap64 (sum (Typed.group k trimmed)))
                     (Typed.group_keys trimmed)).
  { unfold Typed.groupby_sum. now rewrite map_map. }
  assert (Ht : map Typed.Final.Total (Typed.dfFinalReport trimmed)
               = map (fun k => Typed.wrap64 (sum (Typed.group k trimmed)))
                     (Typed.group_keys trimmed)).
  { now rewrite typed_dfFinalReport_rows, map_map. }
  rewrite Hs, Ht. split; [|split].
  - rewrite sum_wrap64. f_equal. apply typed_group_sums.
  - rewrite sum_wrap64. f_equal. apply typed_group_sums.
  - intros Hsmall.
    assert (E : map (fun k => Typed.wrap64 (sum (Typed.group k trimmed)))
                    (Typed.group_keys trimmed)
                = map (fun k => sum (Typed.group k trimmed))
                      (Typed.group_keys trimmed)).
    { apply map_ext. intros k. apply wrap64_sum. unfold Typed.group.
      pose proof (sum_abs_filter Typed.Log.NUM_SUBMITTED_REQUESTS
                    (Typed.has_key k) (values trimmed)).
      lia. }
    rewrite E. split; apply typed_group_sums.
Qed.

Lemma totals_add_up_witness :
  sum (map snd (Typed.groupby_sum typed_trimmed)) = 18.
Proof.
  assert (Hsmall : Typed.sum_abs (map Typed.Log.NUM_SUBMITTED_REQUESTS
                                      (values typed_trimmed)) <= 2 ^ 53)
    by (vm_compute; discriminate).
  destruct (totals_add_up typed_trimmed) as [_ [_ H]].
  destruct (H Hsmall) as [H1 _]. rewrite H1. reflexivity.
Defined.

(* ================================================================== *)
(** * Typed columns: the day of a time stamp *)

Lemma split0_prefix (s : string) :
  s = split0 s \/ exists rest, s = split0 s ++ String " " rest.
Proof.
  induction s as [|c s IH]; simpl; [now left|].
  destruct (Ascii.eqb_spec c " "%char) as [->|E].
  - right. now exists s.
  - destruct IH as [IH|[rest IH]].
    + left. now f_equal.
    + right. exists rest. simpl. now f_equal.
Qed.

(** X17 -- the day of a time stamp.  In a column of strings,
    [.str.split(' ').str[0]] of a time stamp is the text up to its first
    blank: it has no blank, and the time stamp is this text alone or this
    text, a blank and a rest; so a stamp without a blank, such as
    [2019-09-01T10:00], is compared whole.  A missing time stamp has no day,
    and its record is in no window. *)
Theorem day_is_text_before_first_blank {T} (r : Typed.Log.row T) :
  match Typed.Log.WHEN_CREATED r with
  | Some stamp =>
      exists d, Typed.day r = Some d /\ ~ has_char " " d /\
                (stamp = d \/ exists rest, stamp = d ++ String " " rest)
  | None =>
      Typed.day r = None /\
      forall startDate endDate, Typed.in_window startDate endDate r = false
  end.
Proof.
  unfold Typed.in_window, Typed.day.
  destruct (Typed.Log.WHEN_CREATED r) as [stamp|]; simpl.
  - exists (split0 stamp). split; [reflexivity|].
    split; [apply split0_no_blank | apply split0_prefix].
  - auto.
Qed.

(* ================================================================== *)
(** * Typed columns: no valid row, no row in the window, no time stamp *)

Lemma typed_ingest_none (dt : dtype) (rows : list (Typed.Log.row Typed.job_cell)) :
  (forall r, In r rows -> Typed.numeric r = false) ->
  Typed.ingest dt rows = inr [].
Proof.
  intros H. unfold Typed.ingest. now rewrite (filter_none _ _ H).
Qed.

(** X22 -- no valid log record, the columns typed.  When no row of the log
    passes the numeric coercion, whatever the types of the columns, the
    lookup table and the two dates, the run raises [IndexError] at
    [index[0]] and writes no table. *)
Theorem no_number_no_table (csvLogFile : list Typed.Csv.row)
    (csvLookUpTable : list Typed.LookUpCsv.row) (startDate endDate : string)
    (job_type id_type lookup_type : dtype) :
  Typed.job_dtype (map Typed.Csv.NUM_SUBMITTED_REQUESTS csvLogFile)
  = Some job_type ->
  Typed.id_dtype (map Typed.Csv.USER_ID csvLogFile) = Some id_type ->
  Typed.id_dtype (map Typed.LookUpCsv.USER_ID csvLookUpTable)
  = Some lookup_type ->
  (forall r, In r csvLogFile ->
             Typed.to_numeric (Typed.Csv.NUM_SUBMITTED_REQUESTS r) = None) ->
  Typed.main csvLogFile csvLookUpTable startDate endDate
  = Typed.Raises IndexError.
Proof.
  intros Hj Hi Hl Hnone.
  rewrite (typed_main_outcome job_type id_type lookup_type) by assumption.
  unfold Typed.outcome. rewrite typed_ingest_none; [reflexivity|].
  intros r Hr. apply in_map_iff in Hr. destruct Hr as [c [<- Hc]].
  unfold Typed.numeric. simpl. now rewrite (Hnone c Hc).
Qed.

Lemma no_number_no_table_witness :
  Typed.main [Typed.header_row; Typed.header_row] [lookup_alice]
             "2019-09-01" "2019-09-02"
  = Typed.Raises IndexError.
Proof.
  apply (no_number_no_table [Typed.header_row; Typed.header_row] [lookup_alice]
           "2019-09-01" "2019-09-02" object object object);
    try reflexivity.
  simpl. intros r [<-|[<-|[]]]; reflexivity.
Defined.

(** X23 -- a window without a record.  When step 5 leaves a row and the
    window matches no record, which is the case of every reversed window, a
    run whose key columns are of one kind writes a table without a row. *)
Theorem empty_window_gives_no_row (csvLogFile : list Typed.Csv.row)
    (csvLookUpTable : list Typed.LookUpCsv.row) (startDate endDate : string)
    (job_type id_type lookup_type : dtype)
    (r : Typed.Log.row Z) (rows : list (Typed.Log.row Z)) :
  Typed.job_dtype (map Typed.Csv.NUM_SUBMITTED_REQUESTS csvLogFile)
  = Some job_type ->
  Typed.id_dtype (map Typed.Csv.USER_ID csvLogFile) = Some id_type ->
  Typed.id_dtype (map Typed.LookUpCsv.USER_ID csvLookUpTable)
  = Some lookup_type ->
  Typed.ingest job_type (map (Typed.typed_row id_type) csvLogFile)
  = inr (r :: rows) ->
  Typed.has_str (map Typed.Csv.WHEN_CREATED csvLogFile) = true ->
  Typed.same_kind id_type lookup_type = true ->
  str_le startDate endDate = false
  \/ (forall x, In x (r :: rows) ->
                Typed.in_window startDate endDate x = false) ->
  Typed.main csvLogFile csvLookUpTable startDate endDate = Typed.Done [].
Proof.
  intros Hj Hi Hl Hin Hs Hk Hw.
  rewrite (typed_main_outcome job_type id_type lookup_type) by assumption.
  unfold Typed.outcome. rewrite Hin, Hs.
  rewrite (filter_none (Typed.in_window startDate endDate) (r :: rows)).
  - now rewrite (typed_dfCPFUsage_same_kind _ _ _ _ Hk).
  - destruct Hw as [Hrev|Hw]; [|exact Hw].
    intros x _. unfold Typed.in_window, Typed.ge_text, Typed.le_text.
    destruct (Typed.day x) as [d|]; [|reflexivity].
    destruct (str_ge d startDate) eqn:E1; [|reflexivity].
    destruct (str_le d endDate) eqn:E2; [|reflexivity].
    unfold str_ge in E1.
    now rewrite (str_le_trans startDate d endDate E1 E2) in Hrev.
Qed.

Lemma empty_window_gives_no_row_witness :
  Typed.main [row1; row2; row3] [lookup_alice] "2019-09-02" "2019-09-01"
  = Typed.Done [].
Proof.
  apply (empty_window_gives_no_row [row1; row2; row3] [lookup_alice]
           "2019-09-02" "2019-09-01" int64 object object
           (Typed.Log.mk (Some (Typed.KText "u1"))
                         (Some "2019-09-01 00:00:00.000") 5)
           [ Typed.Log.mk (Some (Typed.KText "u1"))
                          (Some "2019-09-02 00:00:00.000") 3;
             Typed.Log.mk (Some (Typed.KText "u2"))
                          (Some "2019-09-01 00:00:00.000") 10 ]);
    try reflexivity.
  left. reflexivity.
Defined.



(* ================================================================== *)
(** * The scenario, run *)

Example scenario_report :
  finalReport (fst (run [r1; r2; header_row; r3] [alice] "2019-09-01" "2019-09-02"))
  = Some (report_columns,
          [ Usage.mk "u1" 8 2 (40 # 10) (Some "Alice") (Some "a@x.com") (Some "OrgA");
            Usage.mk "u2" 10 1 (100 # 10) None None None ]).
Proof. vm_compute. reflexivity. Qed.

Example scenario_exit :
  snd (run [r1; r2; header_row; r3] [alice] "2019-09-01" "2019-09-02") = inr tt.
Proof. vm_compute. reflexivity. Qed.

Example scenario_one_day :
  finalReport (fst (run [r1; r2; header_row; r3] [alice] "2019-09-02" "2019-09-02"))
  = Some (report_columns,
          [ Usage.mk "u1" 3 1 (30 # 10) (Some "Alice") (Some "a@x.com") (Some "OrgA") ]).
Proof. vm_compute. reflexivity. Qed.

(** Two lookup rows for [u1]: the join gives [u1] two report rows. *)
Example scenario_duplicate_lookup :
  dfCPFUsage scenario_trimmed [alice; alice_again]
  = [ Usage.mk "u1" 8 2 (40 # 10) (Some "Alice") (Some "a@x.com") (Some "OrgA");
      Usage.mk "u1" 8 2 (40 # 10)
               (Some "Alice B.") (Some "alice@y.org") (Some "OrgB");
      Usage.mk "u2" 10 1 (100 # 10) None None None ].
Proof. vm_compute. reflexivity. Qed.

Example scenario_value_counts :
  value_counts scenario_trimmed = [("u1", 2); ("u2", 1)].
Proof. reflexivity. Qed.

(** Halves go to the even tenth: 0.25 to 0.2, 0.35 to 0.4; 7/3 to 2.3. *)
Example round1_quarter : round1 (1 # 4) = 2 # 10.
Proof. vm_compute. reflexivity. Qed.

Example round1_seven_twentieths : round1 (7 # 20) = 4 # 10.
Proof. vm_compute. reflexivity. Qed.

Example round1_seven_thirds : round1 (mean [2; 2; 3]) = 23 # 10.
Proof. vm_compute. reflexivity. Qed.

Example isoformat_day : isoformat (Date 2019 9 1) = "2019-09-01".
Proof. reflexivity. Qed.

Example day_before_march : isoformat (prev_day (Date 2020 3 1)) = "2020-02-29".
Proof. reflexivity. Qed.

Example day_after_december :
  isoformat (next_day (Date 2019 12 31)) = "2020-01-01".
Proof. reflexivity. Qed.

Example parse_date_ok : parse_date "2019-08-25" = Some (Date 2019 8 25).
Proof. reflexivity. Qed.

Example parse_date_no_such_day : parse_date "2019-02-29" = None.
Proof. reflexivity. Qed.
